(** * path2json worker: a shallow embedding of [worker.js]

    The worker reads a JSON document out of the request path.  This file
    embeds [worker.js] function by function and states the properties of
    the segment scan and of the decode cascade as theorems.

    JavaScript strings are sequences of UTF-16 code units; they are kept
    here as lists of code units ([N]).  The engine services the worker
    calls ([JSON.parse], [decodeURIComponent], [atob], [TextDecoder]) are
    gathered in the class [Platform]: the worker's functions are written
    against the class, and a concrete instance that follows the ECMAScript
    and WHATWG definitions is given afterwards. *)

From Stdlib Require Import List String Ascii NArith ZArith Bool Lia.
Import ListNotations.

Set Implicit Arguments.

(* ================================================================== *)
(** * JavaScript strings *)
(* ================================================================== *)

Definition jsstring := list N.

(** A string literal of the source: one code unit per (ASCII) character. *)
Definition lit (s : string) : jsstring :=
  map N_of_ascii (list_ascii_of_string s).

Definition ch (a : ascii) : N := N_of_ascii a.

Definition between (lo hi c : N) : bool := ((lo <=? c) && (c <=? hi))%N.

Definition isUpper (c : N) : bool := between 65 90 c.
Definition isLower (c : N) : bool := between 97 122 c.
Definition isDigit (c : N) : bool := between 48 57 c.

Definition jsstring_eqb (a b : jsstring) : bool :=
  if list_eq_dec N.eq_dec a b then true else false.

(** [s.length], as an integer. *)
Definition jslength (s : jsstring) : Z := Z.of_nat (List.length s).

(** Truthiness of a string: every string but the empty one. *)
Definition truthyString (s : jsstring) : bool :=
  match s with [] => false | _ :: _ => true end.

(** [s.toLowerCase()] and [s.toUpperCase()].  The worker lowercases path
    segments (ASCII in a serialised URL) and two-character prefixes of
    stripped strings, and uppercases stripped base32 text: on those
    inputs only A-Z / a-z change, and that is the mapping kept here. *)
Definition toLowerCase (s : jsstring) : jsstring :=
  map (fun c => if isUpper c then (c + 32)%N else c) s.

Definition toUpperCase (s : jsstring) : jsstring :=
  map (fun c => if isLower c then (c - 32)%N else c) s.

(** [s.startsWith(prefix)]. *)
Fixpoint startsWith (s prefix : jsstring) {struct prefix} : bool :=
  match prefix, s with
  | [], _ => true
  | _ :: _, [] => false
  | p :: prefix', c :: s' => (c =? p)%N && startsWith s' prefix'
  end.

(** [s.slice(0, n)]. *)
Definition slice0 (n : nat) (s : jsstring) : jsstring := firstn n s.

(** [(s.match(/[class]/g) || []).join(empty)]: the characters of [s] that
    are in the class, in order. *)
Definition keepClass (cls : N -> bool) (s : jsstring) : jsstring :=
  filter cls s.

(** [s.split(sep)] for a one-character separator. *)
Fixpoint split (sep : N) (s : jsstring) : list jsstring :=
  match s with
  | [] => [[]]
  | c :: s' =>
      if (c =? sep)%N then [] :: split sep s'
      else match split sep s' with
           | h :: t => (c :: h) :: t
           | [] => [[c]]
           end
  end.

(** [parts.join(sep)]. *)
Fixpoint join (sep : jsstring) (parts : list jsstring) : jsstring :=
  match parts with
  | [] => []
  | [p] => p
  | p :: rest => p ++ sep ++ join sep rest
  end.

(** [list.includes(x)] on strings. *)
Definition includes (l : list jsstring) (x : jsstring) : bool :=
  existsb (jsstring_eqb x) l.

(** Line terminators: the characters [.] does not match in a regular
    expression without the [s] flag. *)
Definition isLineTerminator (c : N) : bool :=
  ((c =? 10) || (c =? 13) || (c =? 8232) || (c =? 8233))%N.

(** [s.match(/.{n}/g)]: successive runs of [n] characters other than
    line terminators, from left to right; a run cut short by a line
    terminator or by the end of the string gives no match.  [cur] holds
    the run being built, reversed.  The result is the list of matches
    ([[]] where JavaScript gives [null]). *)
Fixpoint matchDotsFrom (n : nat) (cur : jsstring) (s : jsstring)
  : list jsstring :=
  match s with
  | [] => []
  | c :: s' =>
      if isLineTerminator c then matchDotsFrom n [] s'
      else
        let cur' := c :: cur in
        if Nat.eqb (List.length cur') n
        then rev cur' :: matchDotsFrom n [] s'
        else matchDotsFrom n cur' s'
  end.

Definition matchDots (n : nat) (s : jsstring) : list jsstring :=
  matchDotsFrom n [] s.

(** Value of a digit character in a radix, if it is one. *)
Definition digitValue (radix : N) (c : N) : option N :=
  let v :=
    if isDigit c then Some (c - 48)%N
    else if isLower c then Some (c - 87)%N
    else if isUpper c then Some (c - 55)%N
    else None in
  match v with
  | Some d => if (d <? radix)%N then Some d else None
  | None => None
  end.

(** Longest prefix of digits of the radix, accumulated most significant
    digit first; [None] when there is no digit at all. *)
Fixpoint parseDigits (radix : N) (acc : option N) (s : jsstring)
  : option N :=
  match s with
  | [] => acc
  | c :: s' =>
      match digitValue radix c with
      | Some d =>
          parseDigits radix
            (Some (match acc with Some a => a * radix + d | None => d end)%N)
            s'
      | None => acc
      end
  end.

(** White space skipped by [parseInt] before the number. *)
Definition isStrWhiteSpace (c : N) : bool :=
  (between 9 13 c || (c =? 32) || (c =? 160) || (c =? 5760)
   || between 8192 8202 c || (c =? 8232) || (c =? 8233) || (c =? 8239)
   || (c =? 8287) || (c =? 12288) || (c =? 65279))%N.

Fixpoint skipWhite (s : jsstring) : jsstring :=
  match s with
  | c :: s' => if isStrWhiteSpace c then skipWhite s' else s
  | [] => []
  end.

(** [parseInt(s, radix)] for radix 2 and 16; [None] is [NaN]. *)
Definition parseInt (s : jsstring) (radix : N) : option Z :=
  let s1 := skipWhite s in
  let '(sign, s2) :=
    match s1 with
    | c :: r => if (c =? 45)%N then ((-1)%Z, r)
                else if (c =? 43)%N then (1%Z, r) else (1%Z, s1)
    | [] => (1%Z, s1)
    end in
  let s3 :=
    match s2 with
    | z :: x :: r =>
        if ((radix =? 16) && (z =? 48) && ((x =? 120) || (x =? 88)))%N
        then r else s2
    | _ => s2
    end in
  match parseDigits radix None s3 with
  | Some n => Some (sign * Z.of_N n)%Z
  | None => None
  end.

(** Storing a number in a [Uint8Array] slot: [NaN] becomes 0, anything
    else is reduced modulo 256. *)
Definition toUint8 (v : option Z) : N :=
  match v with
  | Some z => Z.to_N (z mod 256)
  | None => 0%N
  end.

(** [s.replace(/c/g, d)] for single characters. *)
Definition replaceChar (c d : N) (s : jsstring) : jsstring :=
  map (fun x => if (x =? c)%N then d else x) s.

(** [s.replace(/c+$/, empty)], with [empty] the empty string: drop
    the trailing run of [c]. *)
Fixpoint dropTrailing (c : N) (s : jsstring) : jsstring :=
  match s with
  | [] => []
  | x :: s' =>
      match dropTrailing c s' with
      | [] => if (x =? c)%N then [] else [x]
      | r => x :: r
      end
  end.

(** Drop the leading run of [c]. *)
Fixpoint dropLeading (c : N) (s : jsstring) : jsstring :=
  match s with
  | x :: s' => if (x =? c)%N then dropLeading c s' else s
  | [] => []
  end.

(** [alphabet.indexOf(c)] for a single code unit; [None] is -1. *)
Fixpoint indexOf (alphabet : jsstring) (c : N) : option N :=
  match alphabet with
  | [] => None
  | a :: rest =>
      if (a =? c)%N then Some 0%N
      else option_map N.succ (indexOf rest c)
  end.

(** [val.toString(2).padStart(5, "0")] for [0 <= val]: the binary digits
    of [val], most significant first, left-padded with ["0"] to five. *)
Fixpoint toBinaryFuel (fuel : nat) (v : N) (acc : jsstring) : jsstring :=
  match fuel with
  | O => acc
  | S fuel' =>
      let acc' := (48 + v mod 2)%N :: acc in
      if (v / 2 =? 0)%N then acc' else toBinaryFuel fuel' (v / 2)%N acc'
  end.

Definition toBinary (v : N) : jsstring :=
  toBinaryFuel (S (N.to_nat (N.log2 v))) v [].

Definition padStart (n : nat) (c : N) (s : jsstring) : jsstring :=
  repeat c (n - List.length s) ++ s.

(* ================================================================== *)
(** * JSON values *)
(* ================================================================== *)

(** A number of a JSON text, kept as the exact decimal it denotes:
    [(-1)^neg * mant * 10^exp10], with [mant] free of trailing zeros.
    Rounding to binary64 is not modelled. *)
Record JsNumber := { neg : bool; mant : N; exp10 : Z }.

(** Objects keep their properties in the order of first insertion. *)
#[local] Set Warnings "-register-all".
Inductive JsonValue :=
| JNull
| JBool (b : bool)
| JNumber (n : JsNumber)
| JString (s : jsstring)
| JArray (items : list JsonValue)
| JObject (props : list (jsstring * JsonValue)).
#[local] Set Warnings "register-all".

(** [typeof v]. *)
Definition typeof (v : JsonValue) : string :=
  match v with
  | JNull => "object"
  | JBool _ => "boolean"
  | JNumber _ => "number"
  | JString _ => "string"
  | JArray _ => "object"
  | JObject _ => "object"
  end.

(** Truthiness of a value, as [val && ...] tests it. *)
Definition truthy (v : JsonValue) : bool :=
  match v with
  | JNull => false
  | JBool b => b
  | JNumber n => negb (mant n =? 0)%N
  | JString s => truthyString s
  | JArray _ => true
  | JObject _ => true
  end.

Definition isObject (v : JsonValue) : bool :=
  match v with JObject _ => true | _ => false end.

Definition isArray (v : JsonValue) : bool :=
  match v with JArray _ => true | _ => false end.

(* ================================================================== *)
(** * The engine services *)
(* ================================================================== *)

(** What the worker asks of the JavaScript engine.  A call that throws
    returns [None]. *)
Class Platform := {
  (** [JSON.parse(text)]; [None] on [SyntaxError]. *)
  JSON_parse : jsstring -> option JsonValue;
  (** [decodeURIComponent(s)]; [None] on [URIError]. *)
  decodeURIComponent : jsstring -> option jsstring;
  (** [atob(s)], a binary string; [None] on [InvalidCharacterError]. *)
  atob : jsstring -> option jsstring;
  (** [new TextDecoder("utf-8").decode(bytes)]; it never throws. *)
  TextDecoder_decode : list N -> jsstring
}.

(* ================================================================== *)
(** * worker.js *)
(* ================================================================== *)

(** The outcome of one parser attempt: [{ ok: false }] or
    [{ ok: true, value, rawText }]. *)
Inductive Attempt :=
| Fail
| Ok (value : JsonValue) (rawText : jsstring).

Definition ok (r : Attempt) : bool :=
  match r with Ok _ _ => true | Fail => false end.

(** [function fail()]. *)
Definition fail : Attempt := Fail.

(** Body of a [Response]: [null], the bundled landing page, a string
    passed through, or [JSON.stringify(v, null, 2)] of a value. *)
Inductive Body :=
| BodyNull
| BodyHtml
| BodyString (s : jsstring)
| BodyJson (v : JsonValue).

Record Response := {
  status : Z;
  headers : list (string * string);
  body : Body
}.

(** [function corsHeaders()]. *)
Definition corsHeaders : list (string * string) :=
  [ ("access-control-allow-origin", "*");
    ("access-control-allow-methods", "GET, HEAD, OPTIONS");
    ("access-control-allow-headers", "Content-Type") ]%string.

(** [function json(body, status = 200)]. *)
Definition json (b : JsonValue) (st : Z) : Response :=
  {| status := st;
     headers :=
       [ ("content-type", "application/json; charset=utf-8");
         ("cache-control",
          "public, immutable, max-age=86400, s-maxage=86400") ]%string
       ++ corsHeaders;
     body := match b with
             | JString s => BodyString s
             | _ => BodyJson b
             end |}.

(** The object literal [{ error: msg }]. *)
Definition errorBody (msg : string) : JsonValue :=
  JObject [ (lit "error", JString (lit msg)) ].

(** ** Prefix heuristics *)

(** [function looksLikeB64Prefix(s)]. *)
Definition looksLikeB64Prefix (s : jsstring) : bool :=
  let lower := toLowerCase (slice0 2 s) in
  includes [lit "ey"] lower.

(** [function looksLikeBase32Prefix(s)]. *)
Definition looksLikeBase32Prefix (s : jsstring) : bool :=
  let lower := toLowerCase (slice0 2 s) in
  includes [lit "pm"; lit "on"; lit "em"] lower.

(** [function looksLikeHexPrefix(s)]. *)
Definition looksLikeHexPrefix (s : jsstring) : bool :=
  let lower := toLowerCase (slice0 2 s) in
  jsstring_eqb lower (lit "7b").

(** ** Alphabet filters *)

(** [/[A-Za-z0-9\-_]/]. *)
Definition isB64UrlChar (c : N) : bool :=
  (isUpper c || isLower c || isDigit c || (c =? ch "-") || (c =? ch "_"))%N.

(** [/[A-Za-z0-9+/=]/]. *)
Definition isB64StdChar (c : N) : bool :=
  (isUpper c || isLower c || isDigit c
   || (c =? ch "+") || (c =? ch "/") || (c =? ch "="))%N.

(** [/[A-Z2-7=]/i]: without the [u] flag, ignoring case lets the ASCII
    letters match and no character outside ASCII. *)
Definition isBase32Char (c : N) : bool :=
  (isUpper c || isLower c || between 50 55 c || (c =? ch "="))%N.

(** [/[A-Fa-f0-9]/]. *)
Definition isHexChar (c : N) : bool :=
  (between 65 70 c || between 97 102 c || isDigit c)%N.

Definition stripNonB64Url (s : jsstring) : jsstring := keepClass isB64UrlChar s.
Definition stripNonB64Std (s : jsstring) : jsstring := keepClass isB64StdChar s.
Definition stripNonBase32 (s : jsstring) : jsstring := keepClass isBase32Char s.
Definition stripNonHex (s : jsstring) : jsstring := keepClass isHexChar s.

(** [function padBase64(s)]. *)
Definition padBase64 (s : jsstring) : jsstring :=
  let rem := (List.length s mod 4)%nat in
  if Nat.eqb rem 0 then s else s ++ repeat (ch "=") (4 - rem).

(** The argument of [utf8FromBytes]: a binary string or a [Uint8Array]. *)
Inductive BinarySource :=
| BinString (s : jsstring)
| BinBytes (bytes : list N).

Section Worker.

Context {P : Platform}.

(** [function parseJson(text, rawText)]. *)
Definition parseJson (text rawText : jsstring) : Attempt :=
  match JSON_parse text with
  | Some val =>
      if truthy val && String.eqb (typeof val) "object"
      then Ok val rawText
      else fail
  | None => fail
  end.

(** [function safeDecodeURIComponent(s)]; [None] is [null]. *)
Definition safeDecodeURIComponent (s : jsstring) : option jsstring :=
  decodeURIComponent s.

(** [function utf8FromBytes(binStr)]: a string is copied code unit by
    code unit into a [Uint8Array], which keeps each unit modulo 256. *)
Definition utf8FromBytes (b : BinarySource) : jsstring :=
  match b with
  | BinString s => TextDecoder_decode (map (fun c => c mod 256)%N s)
  | BinBytes bytes => TextDecoder_decode bytes
  end.

(** [function b64urlToUtf8(s)]. *)
Definition b64urlToUtf8 (s : jsstring) : option jsstring :=
  let padded :=
    padBase64 (replaceChar (ch "_") (ch "/")
                 (replaceChar (ch "-") (ch "+") s)) in
  match atob padded with
  | Some bin => Some (utf8FromBytes (BinString bin))
  | None => None
  end.

(** [function b64StdToUtf8(s)]. *)
Definition b64StdToUtf8 (s : jsstring) : option jsstring :=
  let padded := padBase64 s in
  match atob padded with
  | Some bin => Some (utf8FromBytes (BinString bin))
  | None => None
  end.

Definition base32Alphabet : jsstring := lit "ABCDEFGHIJKLMNOPQRSTUVWXYZ234567".

(** The loop of [base32ToUtf8] that builds [bits]. *)
Fixpoint base32Bits (cleaned : jsstring) : jsstring :=
  match cleaned with
  | [] => []
  | c :: rest =>
      match indexOf base32Alphabet c with
      | None => base32Bits rest
      | Some val => padStart 5 (ch "0") (toBinary val) ++ base32Bits rest
      end
  end.

(** [function base32ToUtf8(s)]. *)
Definition base32ToUtf8 (s : jsstring) : option jsstring :=
  let cleaned := dropTrailing (ch "=") (toUpperCase s) in
  let bits := base32Bits cleaned in
  let bytes := map (fun b => toUint8 (parseInt b 2)) (matchDots 8 bits) in
  Some (TextDecoder_decode bytes).

(** [function hexToUtf8(s)]: [s.match] gives [null] when there is no
    pair, [null.map] throws, and the function returns [null]. *)
Definition hexToUtf8 (s : jsstring) : option jsstring :=
  let s :=
    if Nat.eqb (List.length s mod 2) 0 then s
    else slice0 (List.length s - 1) s in
  match matchDots 2 s with
  | [] => None
  | pairs =>
      let bytes := map (fun h => toUint8 (parseInt h 16)) pairs in
      Some (TextDecoder_decode bytes)
  end.

(** [text ? parseJson(text, text) : fail()] for [text] a string or [null]. *)
Definition parseDecoded (text : option jsstring) : Attempt :=
  match text with
  | Some text => if truthyString text then parseJson text text else fail
  | None => fail
  end.

(** The six closures of [tryParseJson], in the order they are pushed. *)
Definition attemptUrlDecoded (input : jsstring) : unit -> Attempt :=
  fun _ =>
    let text := safeDecodeURIComponent input in
    parseDecoded text.

Definition attemptRaw (input : jsstring) : unit -> Attempt :=
  fun _ => parseJson input input.

Definition attemptB64Url (input : jsstring) : unit -> Attempt :=
  fun _ =>
    let raw := stripNonB64Url input in
    if negb (looksLikeB64Prefix raw) then fail
    else let text := b64urlToUtf8 raw in parseDecoded text.

Definition attemptB64Std (input : jsstring) : unit -> Attempt :=
  fun _ =>
    let raw := stripNonB64Std input in
    if negb (looksLikeB64Prefix raw) then fail
    else let text := b64StdToUtf8 raw in parseDecoded text.

Definition attemptBase32 (input : jsstring) : unit -> Attempt :=
  fun _ =>
    let raw := stripNonBase32 input in
    if negb (looksLikeBase32Prefix raw) then fail
    else let text := base32ToUtf8 raw in parseDecoded text.

Definition attemptHex (input : jsstring) : unit -> Attempt :=
  fun _ =>
    let raw := stripNonHex input in
    if negb (looksLikeHexPrefix raw) then fail
    else let text := hexToUtf8 raw in parseDecoded text.

Definition attempts (input : jsstring) : list (unit -> Attempt) :=
  [ attemptUrlDecoded input; attemptRaw input; attemptB64Url input;
    attemptB64Std input; attemptBase32 input; attemptHex input ].

(** [for (const f of attempts) { const r = f(); if (r.ok) return r; }
    return fail();], counting the closures that were called. *)
Fixpoint runAttempts (fs : list (unit -> Attempt)) (called : nat)
  : Attempt * nat :=
  match fs with
  | [] => (fail, called)
  | f :: fs' =>
      let r := f tt in
      if ok r then (r, S called) else runAttempts fs' (S called)
  end.

(** [function tryParseJson(input)]. *)
Definition tryParseJson (input : jsstring) : Attempt :=
  fst (runAttempts (attempts input) 0).

(** ** The request handler *)

Definition START_PREFIXES : list jsstring :=
  [ lit "{"; lit "%7b"; lit "7b"; lit "pm"; lit "ey" ].

(** [START_PREFIXES.some(prefix => p.startsWith(prefix))] for
    [p = parts[i].toLowerCase()]. *)
Definition isStart (part : jsstring) : bool :=
  let p := toLowerCase part in
  existsb (fun prefix => startsWith p prefix) START_PREFIXES.

(** The loop that sets [startIdx]: [rest] is [parts] from index [i] on;
    the result is -1 when the loop ends without a [break]. *)
Fixpoint findStartFrom (i : Z) (rest : list jsstring) : Z :=
  match rest with
  | [] => (-1)%Z
  | part :: rest' =>
      if isStart part then i else findStartFrom (i + 1)%Z rest'
  end.

Definition findStart (parts : list jsstring) : Z := findStartFrom 0 parts.

(** [accumulated ? `${accumulated}/${parts[endIdx]}` : parts[endIdx]]. *)
Definition grow (accumulated part : jsstring) : jsstring :=
  if truthyString accumulated
  then accumulated ++ lit "/" ++ part
  else part.

(** The accumulation loop: [rest] is [parts] from [endIdx] on.  The
    result is the response together with the candidates handed to
    [tryParseJson], in order. *)
Fixpoint accumulate (accumulated : jsstring) (rest : list jsstring)
  : list jsstring * Response :=
  match rest with
  | [] =>
      ([], json (errorBody
                   "Could not parse a valid JSON document from the path") 400)
  | part :: rest' =>
      let accumulated := grow accumulated part in
      let parsed := tryParseJson accumulated in
      match parsed with
      | Ok value rawText =>
          if (jslength rawText >? 64000)%Z
          then ([accumulated], json (errorBody "Payload too large") 413)
          else ([accumulated], json value 200)
      | Fail =>
          let '(seen, resp) := accumulate accumulated rest' in
          (accumulated :: seen, resp)
      end
  end.

(** [fetch] from [START_PREFIXES] on, for the segment list [parts]. *)
Definition scanTraced (parts : list jsstring) : list jsstring * Response :=
  let startIdx := findStart parts in
  if (startIdx =? -1)%Z
  then ([], json (errorBody "No JSON-like segment found") 400)
  else accumulate [] (skipn (Z.to_nat startIdx) parts).

Definition scan (parts : list jsstring) : Response := snd (scanTraced parts).

(** [url.pathname.replace(/^\/+|\/+$/g, empty).split("/").filter(Boolean)]. *)
Definition pathParts (pathname : jsstring) : list jsstring :=
  filter truthyString
    (split (ch "/") (dropTrailing (ch "/") (dropLeading (ch "/") pathname))).

Definition landingPage : Response :=
  {| status := 200;
     headers :=
       [ ("content-type", "text/html; charset=utf-8");
         ("cache-control", "public, max-age=3600, s-maxage=86400") ]%string;
     body := BodyHtml |}.

(** [async fetch(request, env)], as a function of [request.method] and
    of the [pathname] of [request.url]. *)
Definition fetch (method pathname : jsstring) : Response :=
  if jsstring_eqb method (lit "OPTIONS")
  then {| status := 200; headers := corsHeaders; body := BodyNull |}
  else if negb (jsstring_eqb method (lit "GET"))
          && negb (jsstring_eqb method (lit "HEAD"))
  then json (errorBody "Method not allowed") 405
  else
    let parts := pathParts pathname in
    if includes [lit "/"; lit "/index.html"] pathname
    then landingPage
    else scan parts.

End Worker.

(* ================================================================== *)
(** * The engine, concretely *)
(* ================================================================== *)

(** Option plumbing for the decoders below. *)
Definition consTo {A} (x : A) (r : option (list A)) : option (list A) :=
  option_map (cons x) r.

Definition appTo {A} (x : list A) (r : option (list A)) : option (list A) :=
  option_map (app x) r.

(** [UTF16EncodeCodePoint]: one code unit, or a surrogate pair above
    U+FFFF. *)
Definition utf16Encode (cp : N) : jsstring :=
  if (cp <=? 65535)%N then [cp]
  else
    let v := (cp - 65536)%N in
    [ (55296 + v / 1024)%N; (56320 + v mod 1024)%N ].

(** ** UTF-8 decoding (WHATWG Encoding, section 9.1.1) *)

Module Utf8.

Record State := {
  codePoint : N;
  bytesSeen : N;
  bytesNeeded : N;
  lowerBound : N;
  upperBound : N
}.

Definition init : State :=
  {| codePoint := 0; bytesSeen := 0; bytesNeeded := 0;
     lowerBound := 128; upperBound := 191 |}.

(** A byte read while no sequence is open: what is emitted, and the
    state after it. *)
Definition lead (b : N) : list N * State :=
  if (b <=? 127)%N then ([b], init)
  else if between 194 223 b then
    ([], {| codePoint := N.land b 31; bytesSeen := 0; bytesNeeded := 1;
            lowerBound := 128; upperBound := 191 |})
  else if between 224 239 b then
    ([], {| codePoint := N.land b 15; bytesSeen := 0; bytesNeeded := 2;
            lowerBound := if (b =? 224)%N then 160%N else 128%N;
            upperBound := if (b =? 237)%N then 159%N else 191%N |})
  else if between 240 244 b then
    ([], {| codePoint := N.land b 7; bytesSeen := 0; bytesNeeded := 3;
            lowerBound := if (b =? 240)%N then 144%N else 128%N;
            upperBound := if (b =? 244)%N then 143%N else 191%N |})
  else ([65533%N], init).

(** A continuation byte inside its bounds. *)
Definition continue (st : State) (b : N) : option N * State :=
  let cp := N.lor (N.shiftl (codePoint st) 6) (N.land b 63) in
  let seen := (bytesSeen st + 1)%N in
  if (seen =? bytesNeeded st)%N then (Some cp, init)
  else (None, {| codePoint := cp; bytesSeen := seen;
                 bytesNeeded := bytesNeeded st;
                 lowerBound := 128; upperBound := 191 |}).

(** The decoder with error mode "replacement": a malformed sequence
    gives U+FFFD and the offending byte is read again as a lead byte. *)
Fixpoint decodeFrom (st : State) (bytes : list N) : list N :=
  match bytes with
  | [] => if (bytesNeeded st =? 0)%N then [] else [65533%N]
  | b :: rest =>
      if (bytesNeeded st =? 0)%N then
        let '(out, st') := lead b in out ++ decodeFrom st' rest
      else if negb (between (lowerBound st) (upperBound st) b) then
        let '(out, st') := lead b in
        65533%N :: out ++ decodeFrom st' rest
      else
        match continue st b with
        | (Some cp, st') => cp :: decodeFrom st' rest
        | (None, st') => decodeFrom st' rest
        end
  end.

(** A leading byte order mark is not part of the text. *)
Definition stripBOM (bytes : list N) : list N :=
  match bytes with
  | 239%N :: 187%N :: 191%N :: rest => rest
  | _ => bytes
  end.

(** [new TextDecoder().decode(bytes)]. *)
Definition decode (bytes : list N) : jsstring :=
  flat_map utf16Encode (decodeFrom init (stripBOM bytes)).

(** The continuation bytes of one sequence, with no tolerance: the code
    point when [bytes] completes the sequence exactly. *)
Fixpoint strictRest (st : State) (bytes : list N) : option N :=
  match bytes with
  | [] => None
  | b :: rest =>
      if between (lowerBound st) (upperBound st) b then
        match continue st b with
        | (Some cp, _) => match rest with [] => Some cp | _ => None end
        | (None, st') => strictRest st' rest
        end
      else None
  end.

(** The code point of which [octets] (two or more) is the valid UTF-8
    encoding, if there is one. *)
Definition strict (octets : list N) : option N :=
  match octets with
  | b :: rest =>
      match lead b with
      | ([], st) => strictRest st rest
      | _ => None
      end
  | [] => None
  end.

End Utf8.

(** ** [decodeURIComponent] (ECMA-262, Decode with an empty preserve set) *)

Module URI.

(** [ParseHexOctet]: the byte written by two hexadecimal digits. *)
Definition hexOctet (h1 h2 : N) : option N :=
  match digitValue 16 h1, digitValue 16 h2 with
  | Some a, Some b => Some (a * 16 + b)%N
  | _, _ => None
  end.

(** Number of leading 1 bits of a byte. *)
Definition leadingOnes (b : N) : nat :=
  if (b <? 128)%N then 0
  else if (b <? 192)%N then 1
  else if (b <? 224)%N then 2
  else if (b <? 240)%N then 3
  else if (b <? 248)%N then 4
  else 5.

(** [pending] is the multi-byte sequence being collected: the octets so
    far and how many are still to come.  Every way of throwing
    [URIError] is a [None]. *)
Fixpoint decodeFrom (pending : option (list N * nat)) (s : jsstring)
  : option jsstring :=
  match s with
  | [] => match pending with None => Some [] | Some _ => None end
  | c :: rest =>
      if (c =? ch "%")%N then
        match rest with
        | h1 :: h2 :: rest' =>
            match hexOctet h1 h2 with
            | None => None
            | Some B =>
                match pending with
                | None =>
                    match leadingOnes B with
                    | 0%nat => consTo B (decodeFrom None rest')
                    | 2%nat | 3%nat | 4%nat =>
                        decodeFrom (Some ([B], leadingOnes B - 1)%nat) rest'
                    | _ => None
                    end
                | Some (octets, remaining) =>
                    let octets' := octets ++ [B] in
                    if Nat.eqb remaining 1 then
                      match Utf8.strict octets' with
                      | Some V => appTo (utf16Encode V) (decodeFrom None rest')
                      | None => None
                      end
                    else decodeFrom (Some (octets', remaining - 1)%nat) rest'
                end
            end
        | _ => None
        end
      else
        match pending with
        | None => consTo c (decodeFrom None rest)
        | Some _ => None
        end
  end.

Definition decodeURIComponent (s : jsstring) : option jsstring :=
  decodeFrom None s.

End URI.

(** ** [atob] (WHATWG Infra, forgiving-base64 decode) *)

Module Base64.

Definition isAsciiWhitespace (c : N) : bool :=
  ((c =? 9) || (c =? 10) || (c =? 12) || (c =? 13) || (c =? 32))%N.

(** Position of a character in the base64 alphabet. *)
Definition sextet (c : N) : option N :=
  if isUpper c then Some (c - 65)%N
  else if isLower c then Some (c - 71)%N
  else if isDigit c then Some (c + 4)%N
  else if (c =? ch "+")%N then Some 62%N
  else if (c =? ch "/")%N then Some 63%N
  else None.

(** All the sextets, or [None] if a character is outside the alphabet. *)
Fixpoint sextets (s : jsstring) : option (list N) :=
  match s with
  | [] => Some []
  | c :: rest =>
      match sextet c with
      | Some v => consTo v (sextets rest)
      | None => None
      end
  end.

(** Four sextets give three bytes; a tail of three gives two bytes, a
    tail of two gives one, the spare bits being dropped. *)
Fixpoint bytesOf (v : list N) : list N :=
  match v with
  | a :: b :: c :: d :: rest =>
      (a * 4 + b / 16)%N :: ((b mod 16) * 16 + c / 4)%N
        :: ((c mod 4) * 64 + d)%N :: bytesOf rest
  | [a; b; c] => [ (a * 4 + b / 16)%N; ((b mod 16) * 16 + c / 4)%N ]
  | [a; b] => [ (a * 4 + b / 16)%N ]
  | _ => []
  end.

(** Remove one or two [=] from the end. *)
Definition dropPadding (s : jsstring) : jsstring :=
  match rev s with
  | e1 :: e2 :: r =>
      if (e1 =? ch "=")%N then
        if (e2 =? ch "=")%N then rev r else rev (e2 :: r)
      else s
  | [e1] => if (e1 =? ch "=")%N then [] else s
  | [] => s
  end.

Definition atob (data : jsstring) : option jsstring :=
  let s := filter (fun c => negb (isAsciiWhitespace c)) data in
  let s := if Nat.eqb (List.length s mod 4) 0 then dropPadding s else s in
  if Nat.eqb (List.length s mod 4) 1 then None
  else option_map bytesOf (sextets s).

End Base64.

(** ** [JSON.parse] (ECMA-404 grammar, ECMA-262 object construction) *)

Module JSON.

Definition isWhitespace (c : N) : bool :=
  ((c =? 9) || (c =? 10) || (c =? 13) || (c =? 32))%N.

Fixpoint skipWs (s : jsstring) : jsstring :=
  match s with
  | c :: rest => if isWhitespace c then skipWs rest else s
  | [] => []
  end.

(** The character a two-character escape stands for. *)
Definition simpleEscape (e : N) : option N :=
  if (e =? 34)%N then Some 34%N
  else if (e =? ch "\")%N then Some 92%N
  else if (e =? ch "/")%N then Some 47%N
  else if (e =? ch "b")%N then Some 8%N
  else if (e =? ch "f")%N then Some 12%N
  else if (e =? ch "n")%N then Some 10%N
  else if (e =? ch "r")%N then Some 13%N
  else if (e =? ch "t")%N then Some 9%N
  else None.

Definition hex4 (h1 h2 h3 h4 : N) : option N :=
  match digitValue 16 h1, digitValue 16 h2,
        digitValue 16 h3, digitValue 16 h4 with
  | Some a, Some b, Some c, Some d =>
      Some (((a * 16 + b) * 16 + c) * 16 + d)%N
  | _, _, _, _ => None
  end.

(** A string after its opening quote: its characters and what follows
    the closing quote. *)
Fixpoint stringBody (s : jsstring) : option (jsstring * jsstring) :=
  let cons1 c r :=
    match r with Some (str, rest) => Some (c :: str, rest) | None => None end in
  match s with
  | [] => None
  | c :: r =>
      if (c =? 34)%N then Some ([], r)
      else if (c =? 92)%N then
        match r with
        | e :: r' =>
            if (e =? ch "u")%N then
              match r' with
              | h1 :: h2 :: h3 :: h4 :: r'' =>
                  match hex4 h1 h2 h3 h4 with
                  | Some u => cons1 u (stringBody r'')
                  | None => None
                  end
              | _ => None
              end
            else
              match simpleEscape e with
              | Some x => cons1 x (stringBody r')
              | None => None
              end
        | [] => None
        end
      else if (c <? 32)%N then None
      else cons1 c (stringBody r)
  end.

(** The longest run of decimal digits at the head of [s]. *)
Fixpoint digits (s : jsstring) : jsstring * jsstring :=
  match s with
  | c :: rest =>
      if isDigit c then let '(d, r) := digits rest in (c :: d, r)
      else ([], s)
  | [] => ([], [])
  end.

Definition digitsValue (d : jsstring) : N :=
  fold_left (fun acc c => acc * 10 + (c - 48))%N d 0%N.

(** Move factors of ten from the mantissa to the exponent. *)
Fixpoint normalise (fuel : nat) (m : N) (e : Z) : N * Z :=
  match fuel with
  | O => (m, e)
  | S fuel' =>
      if (m =? 0)%N then (0%N, 0%Z)
      else if (m mod 10 =? 0)%N then normalise fuel' (m / 10)%N (e + 1)%Z
      else (m, e)
  end.

(** A number: [-]? int frac? exp?, with no leading zero in int. *)
Definition number (s : jsstring) : option (JsNumber * jsstring) :=
  let '(negative, s1) :=
    match s with
    | c :: r => if (c =? ch "-")%N then (true, r) else (false, s)
    | [] => (false, s)
    end in
  let '(int, s2) := digits s1 in
  match int with
  | [] => None
  | d0 :: more =>
      if (d0 =? ch "0")%N && truthyString more then None
      else
        let fracPart :=
          match s2 with
          | c :: r =>
              if (c =? ch ".")%N then
                let '(f, r') := digits r in
                match f with [] => None | _ => Some (f, r') end
              else Some ([], s2)
          | [] => Some ([], s2)
          end in
        match fracPart with
        | None => None
        | Some (frac, s3) =>
            let expPart :=
              match s3 with
              | c :: r =>
                  if ((c =? ch "e") || (c =? ch "E"))%N then
                    let '(sign, r1) :=
                      match r with
                      | g :: r0 =>
                          if (g =? ch "-")%N then ((-1)%Z, r0)
                          else if (g =? ch "+")%N then (1%Z, r0)
                          else (1%Z, r)
                      | [] => (1%Z, r)
                      end in
                    let '(e, r2) := digits r1 in
                    match e with
                    | [] => None
                    | _ => Some ((sign * Z.of_N (digitsValue e))%Z, r2)
                    end
                  else Some (0%Z, s3)
              | [] => Some (0%Z, s3)
              end in
            match expPart with
            | None => None
            | Some (e, s4) =>
                let all := int ++ frac in
                let '(m, e') :=
                  normalise (S (List.length all)) (digitsValue all)
                    (e - Z.of_nat (List.length frac))%Z in
                Some ({| neg := negative; mant := m; exp10 := e' |}, s4)
            end
        end
  end.

(** [CreateDataProperty] on the object being built: a key seen before
    keeps its place and takes the new value. *)
Fixpoint setProperty (k : jsstring) (v : JsonValue)
    (props : list (jsstring * JsonValue)) : list (jsstring * JsonValue) :=
  match props with
  | [] => [(k, v)]
  | (k', v') :: rest =>
      if jsstring_eqb k k' then (k', v) :: rest
      else (k', v') :: setProperty k v rest
  end.

(** [s] starts with the characters of [word]: what follows them. *)
Fixpoint expect (word s : jsstring) : option jsstring :=
  match word, s with
  | [], _ => Some s
  | w :: word', c :: s' => if (c =? w)%N then expect word' s' else None
  | _ :: _, [] => None
  end.

(** Recursive descent; [fuel] bounds the number of nested calls.
    [value] reads one value after white space; [elements] reads the
    rest of an array from an element on; [members] reads the rest of an
    object from a key on. *)
Fixpoint value (fuel : nat) (s : jsstring) : option (JsonValue * jsstring) :=
  match fuel with
  | O => None
  | S fuel' =>
      match skipWs s with
      | [] => None
      | c :: r =>
          if (c =? ch "{")%N then
            match skipWs r with
            | c' :: r' =>
                if (c' =? ch "}")%N then Some (JObject [], r')
                else members fuel' [] (c' :: r')
            | [] => None
            end
          else if (c =? ch "[")%N then
            match skipWs r with
            | c' :: r' =>
                if (c' =? ch "]")%N then Some (JArray [], r')
                else elements fuel' [] (c' :: r')
            | [] => None
            end
          else if (c =? 34)%N then
            match stringBody r with
            | Some (str, rest) => Some (JString str, rest)
            | None => None
            end
          else if (c =? ch "t")%N then
            option_map (pair (JBool true)) (expect (lit "rue") r)
          else if (c =? ch "f")%N then
            option_map (pair (JBool false)) (expect (lit "alse") r)
          else if (c =? ch "n")%N then
            option_map (pair JNull) (expect (lit "ull") r)
          else
            match number (c :: r) with
            | Some (n, rest) => Some (JNumber n, rest)
            | None => None
            end
      end
  end

with elements (fuel : nat) (acc : list JsonValue) (s : jsstring)
  : option (JsonValue * jsstring) :=
  match fuel with
  | O => None
  | S fuel' =>
      match value fuel' s with
      | Some (v, r) =>
          match skipWs r with
          | c :: r' =>
              if (c =? ch ",")%N then elements fuel' (acc ++ [v]) r'
              else if (c =? ch "]")%N then Some (JArray (acc ++ [v]), r')
              else None
          | [] => None
          end
      | None => None
      end
  end

with members (fuel : nat) (acc : list (jsstring * JsonValue)) (s : jsstring)
  : option (JsonValue * jsstring) :=
  match fuel with
  | O => None
  | S fuel' =>
      match skipWs s with
      | q :: r =>
          if (q =? 34)%N then
            match stringBody r with
            | Some (key, r1) =>
                match skipWs r1 with
                | colon :: r2 =>
                    if (colon =? ch ":")%N then
                      match value fuel' r2 with
                      | Some (v, r3) =>
                          let acc' := setProperty key v acc in
                          match skipWs r3 with
                          | c :: r4 =>
                              if (c =? ch ",")%N then members fuel' acc' r4
                              else if (c =? ch "}")%N
                              then Some (JObject acc', r4)
                              else None
                          | [] => None
                          end
                      | None => None
                      end
                    else None
                | [] => None
                end
            | None => None
            end
          else None
      | [] => None
      end
  end.

(** [JSON.parse(text)]: one value, with nothing but white space after
    it.  Of two nested calls of the descent in a row, one at least
    consumes a character, so twice the length of the text, and two,
    bounds the nesting. *)
Definition parse (text : jsstring) : option JsonValue :=
  match value (2 * List.length text + 2) text with
  | Some (v, rest) =>
      match skipWs rest with
      | [] => Some v
      | _ :: _ => None
      end
  | None => None
  end.

End JSON.

(** The engine the worker runs on. *)
Definition engine : Platform :=
  {| JSON_parse := JSON.parse;
     decodeURIComponent := URI.decodeURIComponent;
     atob := Base64.atob;
     TextDecoder_decode := Utf8.decode |}.

(** The same engine around any [JSON.parse].  The parser above keeps
    numbers as exact decimals and properties in insertion order, where
    an engine rounds to binary64 and lists integer-like keys first; the
    statements that range over all JSON texts therefore take the parser
    as it comes, and only its answers on the texts at hand are assumed. *)
Definition engineWith (parse : jsstring -> option JsonValue) : Platform :=
  {| JSON_parse := parse;
     decodeURIComponent := URI.decodeURIComponent;
     atob := Base64.atob;
     TextDecoder_decode := Utf8.decode |}.

(* ================================================================== *)
(** * Vocabulary of the specification *)
(* ================================================================== *)

(** The four outcomes the scan hands to the response wrapper. *)
Inductive Outcome :=
| Success (value : JsonValue)
| NoCandidateFound
| PayloadTooLarge
| Exhausted.

(** The response the wrapper builds for each outcome. *)
Definition respond (o : Outcome) : Response :=
  match o with
  | Success value => json value 200
  | NoCandidateFound => json (errorBody "No JSON-like segment found") 400
  | PayloadTooLarge => json (errorBody "Payload too large") 413
  | Exhausted =>
      json (errorBody "Could not parse a valid JSON document from the path")
        400
  end.

(** [p] is an initial part of [s]. *)
Definition isPrefixOf {A} (p s : list A) : Prop := exists t, s = p ++ t.

(** The five trigger prefixes, as the specification lists them. *)
Definition triggerPrefixes : list jsstring :=
  [ lit "{"; lit "%7b"; lit "7b"; lit "ey"; lit "pm" ].

(** A segment that, lowercased, starts with a trigger prefix. *)
Definition triggered (segment : jsstring) : Prop :=
  exists prefix, In prefix triggerPrefixes
                 /\ isPrefixOf prefix (toLowerCase segment).

(** [i] is the index of the first triggered segment of [parts]. *)
Definition firstTriggeredAt (parts : list jsstring) (i : nat) : Prop :=
  (exists segment, nth_error parts i = Some segment /\ triggered segment)
  /\ forall j segment, (j < i)%nat -> nth_error parts j = Some segment ->
                       ~ triggered segment.

(** The segments of indices [startIdx] to [endIdx], both included. *)
Definition segmentRange (parts : list jsstring) (startIdx endIdx : nat)
  : list jsstring :=
  firstn (S endIdx - startIdx) (skipn startIdx parts).

(** The candidate of the pair [(startIdx, endIdx)]. *)
Definition candidateAt (parts : list jsstring) (startIdx endIdx : nat)
  : jsstring :=
  join (lit "/") (segmentRange parts startIdx endIdx).

(** All the candidates of a path: [endIdx] from [startIdx] to the last
    index. *)
Definition candidates (parts : list jsstring) (startIdx : nat)
  : list jsstring :=
  map (candidateAt parts startIdx)
      (seq startIdx (List.length parts - startIdx)).

(** The standard base64 alphabet: A-Z, a-z, 0-9, [+] and [/]. *)
Definition inB64StdAlphabet (c : N) : bool :=
  (isUpper c || isLower c || isDigit c || (c =? ch "+") || (c =? ch "/"))%N.

(** The first successful result of a list of results, with its
    position. *)
Fixpoint firstSuccess (results : list Attempt) : option (nat * Attempt) :=
  match results with
  | [] => None
  | r :: rest =>
      if ok r then Some (0%nat, r)
      else match firstSuccess rest with
           | Some (k, r') => Some (S k, r')
           | None => None
           end
  end.

Section Runs.

Context {P : Platform}.

(** The results of the six attempts on a candidate, were all of them
    run. *)
Definition attemptResults (input : jsstring) : list Attempt :=
  map (fun f => f tt) (attempts input).

(** [segment] is the percent-encoded JSON text of the object [O]. *)
Definition percentEncodes (segment : jsstring) (O : JsonValue) : Prop :=
  exists text, decodeURIComponent segment = Some text
               /\ JSON_parse text = Some O
               /\ isObject O = true.

(** The successive values of [accumulated] when the loop runs over
    [rest] to the end. *)
Fixpoint growAll (accumulated : jsstring) (rest : list jsstring)
  : list jsstring :=
  match rest with
  | [] => []
  | part :: rest' =>
      grow accumulated part :: growAll (grow accumulated part) rest'
  end.

(** The decode orchestrator driven over a sequence of candidates, as
    the specification describes it: the first candidate that decodes
    ends the scan, with [PayloadTooLarge] when its decoded text is
    longer than 64,000 characters and with its value otherwise; the
    scan is [Exhausted] when no candidate decodes.  The candidates
    examined are returned as well. *)
Fixpoint examine (cands : list jsstring) : list jsstring * Outcome :=
  match cands with
  | [] => ([], Exhausted)
  | c :: cands' =>
      match tryParseJson c with
      | Ok value rawText =>
          ([c], if (64000 <? jslength rawText)%Z
                then PayloadTooLarge else Success value)
      | Fail => let '(seen, o) := examine cands' in (c :: seen, o)
      end
  end.

End Runs.

(** ** Sample inputs *)

(** A string between double quotes. *)
Definition quoted (s : jsstring) : jsstring := 34%N :: s ++ [34%N].

(** The request path of the README and of the first scenario of the
    specification, its first segment, and the document it encodes. *)
Definition examplePath : jsstring :=
  lit "/7b22636c69656e745f6e616d65223a2274657374696e67227d/client.json".

Definition exampleCandidate : jsstring :=
  lit "7b22636c69656e745f6e616d65223a2274657374696e67227d".

Definition exampleText : jsstring :=
  lit "{" ++ quoted (lit "client_name") ++ lit ":"
          ++ quoted (lit "testing") ++ lit "}".

Definition exampleObject : JsonValue :=
  JObject [ (lit "client_name", JString (lit "testing")) ].

(** A candidate that two attempts decode: it is the JSON text of an
    array, and its base64 characters spell the object with [a] set to 1. *)
Definition ambiguousCandidate : jsstring :=
  lit "[" ++ quoted (lit "eyJhIjoxfQ") ++ lit "]".

(** No [/] in the string. *)
Definition noSlash (s : jsstring) : bool :=
  forallb (fun c => negb (c =? ch "/")%N) s.

(** A path of one segment, the percent-encoded text of the empty object
    with [n] spaces between its braces, and that text: [n + 2]
    characters. *)
Definition paddedPath (n : N) : jsstring :=
  lit "/%7B" ++ List.concat (repeat (lit "%20") (N.to_nat n)) ++ lit "%7D".

Definition paddedText (n : N) : jsstring :=
  lit "{" ++ repeat 32%N (N.to_nat n) ++ lit "}".

(** ** Encoders: the inverses of the worker's decoders *)

(** Bytes, and text of ASCII characters. *)
Definition isBytes (bytes : list N) : bool :=
  forallb (fun b => (b <? 256)%N) bytes.

Definition isAscii (text : jsstring) : bool :=
  forallb (fun c => (c <? 128)%N) text.

(** Two hexadecimal digits per byte, letters in lower or in upper case. *)
Definition hexDigit (upper : bool) (v : N) : N :=
  if (v <? 10)%N then (48 + v)%N
  else if upper then (55 + v)%N else (87 + v)%N.

Definition hexPair (upper : bool) (b : N) : jsstring :=
  [ hexDigit upper (b / 16); hexDigit upper (b mod 16) ].

Definition hexEncode (upper : bool) (bytes : list N) : jsstring :=
  flat_map (hexPair upper) bytes.

(** The [n] low bits of [v], most significant first, written with the
    characters 0 and 1. *)
Fixpoint bitsOf (n : nat) (v : N) : jsstring :=
  match n with
  | O => []
  | S n' =>
      (if N.testbit v (N.of_nat n') then ch "1" else ch "0") :: bitsOf n' v
  end.

(** The number a string of 0 and 1 writes. *)
Definition bitsValue (bits : jsstring) : N :=
  fold_left (fun acc b => (2 * acc + (b - 48))%N) bits 0%N.

(** Groups of five bits, the last one completed with zeros. *)
Fixpoint quintets (bits : jsstring) : list jsstring :=
  match bits with
  | a :: b :: c :: d :: e :: rest => [a; b; c; d; e] :: quintets rest
  | [] => []
  | short => [ short ++ repeat (ch "0") (5 - List.length short) ]
  end.

(** Base32 (RFC 4648): one character of the alphabet per group of five
    bits, then [=] signs up to a multiple of eight characters. *)
Definition base32Char (group : jsstring) : N :=
  nth (N.to_nat (bitsValue group)) base32Alphabet 0%N.

Definition base32Chars (bytes : list N) : jsstring :=
  map base32Char (quintets (flat_map (bitsOf 8) bytes)).

Definition base32Encode (bytes : list N) : jsstring :=
  let chars := base32Chars bytes in
  chars ++ repeat (ch "=") ((8 - List.length chars mod 8) mod 8).

(** [encodeURIComponent] on ASCII text: letters, digits and
    [- _ . ! ~ * ' ( )] stand for themselves, any other character is
    written [%XX]. *)
Definition isUriUnreserved (c : N) : bool :=
  (isUpper c || isLower c || isDigit c
   || (c =? ch "-") || (c =? ch "_") || (c =? ch ".") || (c =? ch "!")
   || (c =? ch "~") || (c =? ch "*") || (c =? ch "'") || (c =? ch "(")
   || (c =? ch ")"))%N.

Definition percentEncodeChar (c : N) : jsstring :=
  if isUriUnreserved c then [c]
  else [ ch "%"; hexDigit true (c / 16); hexDigit true (c mod 16) ].

Definition percentEncode (text : jsstring) : jsstring :=
  flat_map percentEncodeChar text.

(** Base64 (RFC 4648), with the standard or the URL-safe alphabet, and
    without padding. *)
Definition base64Char (url : bool) (v : N) : N :=
  if (v <? 26)%N then (65 + v)%N
  else if (v <? 52)%N then (71 + v)%N
  else if (v <? 62)%N then (v - 4)%N
  else if (v =? 62)%N then (if url then ch "-" else ch "+")
  else (if url then ch "_" else ch "/").

Fixpoint base64Chars (url : bool) (bytes : list N) : jsstring :=
  match bytes with
  | a :: b :: c :: rest =>
      base64Char url (a / 4)
        :: base64Char url ((a mod 4) * 16 + b / 16)
        :: base64Char url ((b mod 16) * 4 + c / 64)
        :: base64Char url (c mod 64)
        :: base64Chars url rest
  | [a; b] =>
      [ base64Char url (a / 4);
        base64Char url ((a mod 4) * 16 + b / 16);
        base64Char url ((b mod 16) * 4) ]
  | [a] => [ base64Char url (a / 4); base64Char url ((a mod 4) * 16) ]
  | [] => []
  end.

(** ** Character conditions used in the statements *)

(** No line terminator in the string. *)
Definition noLineTerminator (s : jsstring) : bool :=
  forallb (fun c => negb (isLineTerminator c)) s.

(** Only the characters 0 and 1. *)
Definition isBinary (bits : jsstring) : bool :=
  forallb (fun c => (c =? 48) || (c =? 49))%N bits.

(** No [%] in the string. *)
Definition noPercent (s : jsstring) : bool :=
  forallb (fun c => negb (c =? ch "%")%N) s.

(** Neither [=] nor white space in the string. *)
Definition isB64Payload (s : jsstring) : bool :=
  forallb (fun c => negb (c =? ch "=")%N
                    && negb (Base64.isAsciiWhitespace c)) s.

(** The text of the object with [a] set to 1, after its opening brace
    and quote, and that object. *)
Definition sampleTail : jsstring := lit "a" ++ [34%N] ++ lit ":1}".

Definition sampleObject : JsonValue :=
  JObject [ (lit "a", JNumber {| neg := false; mant := 1; exp10 := 0 |}) ].

(* ================================================================== *)
(** * Strings: basic facts *)
(* ================================================================== *)

Lemma jsstring_eqb_eq (a b : jsstring) : jsstring_eqb a b = true <-> a = b.
Proof.
  unfold jsstring_eqb. destruct (list_eq_dec N.eq_dec a b); split; congruence.
Qed.

Lemma jsstring_eqb_refl (a : jsstring) : jsstring_eqb a a = true.
Proof. now apply jsstring_eqb_eq. Qed.

Lemma includes_In (l : list jsstring) (x : jsstring) :
  includes l x = true <-> In x l.
Proof.
  unfold includes. rewrite existsb_exists. split.
  - intros [y [Hy E]]. apply jsstring_eqb_eq in E. now subst.
  - intros H. exists x. split; [assumption | apply jsstring_eqb_refl].
Qed.

Lemma startsWith_prefix (prefix s : jsstring) :
  startsWith s prefix = true <-> isPrefixOf prefix s.
Proof.
  revert s. induction prefix as [|p prefix IH]; intros s; simpl.
  - split; [intros _; now exists s | now destruct s].
  - destruct s as [|c s]; simpl.
    + split; [discriminate | intros [t E]; discriminate].
    + rewrite andb_true_iff, N.eqb_eq, IH. split.
      * intros [-> [t ->]]. now exists t.
      * intros [t E]. simpl in E. injection E as -> ->. split; [reflexivity | now exists t].
Qed.

Lemma truthyString_true (s : jsstring) : truthyString s = true <-> s <> [].
Proof. destruct s; simpl; split; congruence. Qed.

Lemma toLowerCase_nil (s : jsstring) : toLowerCase s = [] -> s = [].
Proof. destruct s; [reflexivity | discriminate]. Qed.

(** The test of the source and the wording of the specification name
    the same segments. *)
Lemma isStart_triggered (segment : jsstring) :
  isStart segment = true <-> triggered segment.
Proof.
  unfold isStart, triggered. rewrite existsb_exists. split.
  - intros [prefix [Hin Hs]]. exists prefix. split.
    + unfold START_PREFIXES in Hin. unfold triggerPrefixes. simpl in *. tauto.
    + now apply startsWith_prefix.
  - intros [prefix [Hin Hs]]. exists prefix. split.
    + unfold START_PREFIXES. unfold triggerPrefixes in Hin. simpl in *. tauto.
    + now apply startsWith_prefix.
Qed.

Lemma isStart_false (segment : jsstring) :
  isStart segment = false <-> ~ triggered segment.
Proof.
  rewrite <- isStart_triggered. destruct (isStart segment); split; congruence.
Qed.

Lemma isStart_nonempty (segment : jsstring) :
  isStart segment = true -> segment <> [].
Proof. intros H ->. discriminate H. Qed.

(** What the search loop returns, from any starting index. *)
Lemma findStartFrom_spec (rest : list jsstring) (i : Z) :
  (findStartFrom i rest = (-1)%Z
   /\ forall segment, In segment rest -> isStart segment = false)
  \/ (exists k segment,
        findStartFrom i rest = (i + Z.of_nat k)%Z
        /\ nth_error rest k = Some segment
        /\ isStart segment = true
        /\ forall j segment', (j < k)%nat ->
             nth_error rest j = Some segment' -> isStart segment' = false).
Proof.
  revert i. induction rest as [|part rest IH]; intros i; simpl.
  - left. split; [reflexivity | intros ? []].
  - destruct (isStart part) eqn:Hp.
    + right. exists 0%nat, part. repeat split; try assumption.
      * lia.
      * intros j s Hj. lia.
    + destruct (IH (i + 1)%Z) as [[E Hall] | [k [segment [E [Hn [Hs Hlt]]]]]].
      * left. split; [assumption |].
        intros s [<- | Hin]; [assumption | now apply Hall].
      * right. exists (S k), segment. repeat split; try assumption.
        -- rewrite E. lia.
        -- intros [|j] s Hj Hnth; simpl in Hnth.
           ++ now injection Hnth as <-.
           ++ apply (Hlt j); [lia | assumption].
Qed.

Lemma findStart_spec (parts : list jsstring) :
  (findStart parts = (-1)%Z
   /\ forall segment, In segment parts -> ~ triggered segment)
  \/ (exists i, findStart parts = Z.of_nat i /\ firstTriggeredAt parts i).
Proof.
  unfold findStart.
  destruct (findStartFrom_spec parts 0) as [[E Hall] | [k [s [E [Hn [Hs Hlt]]]]]].
  - left. split; [assumption |].
    intros s Hin. apply isStart_false. now apply Hall.
  - right. exists k. split; [now rewrite E |]. split.
    + exists s. split; [assumption | now apply isStart_triggered].
    + intros j s' Hj Hnth. apply isStart_false. now apply (Hlt j).
Qed.

Lemma firstTriggeredAt_unique (parts : list jsstring) (i j : nat) :
  firstTriggeredAt parts i -> firstTriggeredAt parts j -> i = j.
Proof.
  intros [[si [Hi Ti]] Li] [[sj [Hj Tj]] Lj].
  destruct (Nat.lt_trichotomy i j) as [H | [H | H]]; [| assumption |].
  - exfalso. now apply (Lj i si).
  - exfalso. now apply (Li j sj).
Qed.

(* ================================================================== *)
(** * Responses *)
(* ================================================================== *)

Lemma respond_injective (o1 o2 : Outcome) :
  respond o1 = respond o2 -> o1 = o2.
Proof.
  intros H.
  assert (Hs := f_equal status H). assert (Hb := f_equal body H).
  destruct o1 as [v1| | |], o2 as [v2| | |]; simpl in Hs;
    try discriminate Hs; try reflexivity.
  - simpl in Hb. f_equal.
    destruct v1, v2; simpl in Hb; congruence.
  - vm_compute in Hb. discriminate Hb.
  - vm_compute in Hb. discriminate Hb.
Qed.

(* ================================================================== *)
(** * The candidates of a scan *)
(* ================================================================== *)

Lemma join_snoc (sep : jsstring) (pre : list jsstring) (p : jsstring) :
  pre <> [] -> join sep (pre ++ [p]) = join sep pre ++ sep ++ p.
Proof.
  induction pre as [|a pre IH]; intros Hne; [congruence |].
  destruct pre as [|b pre].
  - reflexivity.
  - change (join sep ((a :: b :: pre) ++ [p]))
      with (a ++ sep ++ join sep ((b :: pre) ++ [p])).
    rewrite IH by discriminate.
    change (join sep (a :: b :: pre)) with (a ++ sep ++ join sep (b :: pre)).
    now rewrite <- !app_assoc.
Qed.

Lemma join_nonempty (sep : jsstring) (a : jsstring) (pre : list jsstring) :
  a <> [] -> join sep (a :: pre) <> [].
Proof.
  intros Ha. destruct pre; simpl; [assumption |].
  destruct a; [congruence | discriminate].
Qed.

Lemma grow_join (a : jsstring) (pre : list jsstring) (p : jsstring) :
  a <> [] ->
  grow (join (lit "/") (a :: pre)) p = join (lit "/") ((a :: pre) ++ [p]).
Proof.
  intros Ha. unfold grow.
  assert (Ht : truthyString (join (lit "/") (a :: pre)) = true)
    by now apply truthyString_true, join_nonempty.
  rewrite Ht. now rewrite join_snoc by discriminate.
Qed.

(** Once the first segment is in, the loop builds the joins of the
    growing segment ranges. *)
Lemma growAll_joins (a : jsstring) (pre rest : list jsstring) :
  a <> [] ->
  growAll (join (lit "/") (a :: pre)) rest
  = map (fun k => join (lit "/") ((a :: pre) ++ firstn (S k) rest))
        (seq 0 (List.length rest)).
Proof.
  intros Ha. revert pre. induction rest as [|p rest IH]; intros pre.
  - reflexivity.
  - cbn [growAll List.length seq map]. rewrite grow_join by assumption.
    f_equal.
    change ((a :: pre) ++ [p]) with (a :: (pre ++ [p])).
    rewrite IH. rewrite <- seq_shift, map_map.
    apply map_ext. intros k.
    cbn [firstn]. now rewrite <- !app_comm_cons, <- app_assoc.
Qed.

Lemma growAll_from_start (a : jsstring) (rest : list jsstring) :
  a <> [] ->
  growAll [] (a :: rest)
  = map (fun k => join (lit "/") (firstn (S k) (a :: rest)))
        (seq 0 (List.length (a :: rest))).
Proof.
  intros Ha. cbn [growAll List.length seq map].
  change (grow [] a) with a. f_equal.
  change a with (join (lit "/") (a :: [])) at 1.
  rewrite growAll_joins by assumption.
  rewrite <- seq_shift, map_map. reflexivity.
Qed.

Lemma seq_offset {A} (f : nat -> A) (s n base : nat) :
  map (fun k => f (S k)) (seq base n)
  = map (fun e => f (S e - s)%nat) (seq (s + base) n).
Proof.
  revert base. induction n as [|n IH]; intros base; [reflexivity |].
  cbn [seq map]. f_equal.
  - f_equal. lia.
  - rewrite IH. now rewrite Nat.add_succ_r.
Qed.

(** The values of [accumulated] are the candidates of the
    specification. *)
Lemma growAll_candidates (parts : list jsstring) (startIdx : nat)
    (segment : jsstring) :
  nth_error parts startIdx = Some segment ->
  segment <> [] ->
  growAll [] (skipn startIdx parts) = candidates parts startIdx.
Proof.
  intros Hnth Hne. unfold candidates, candidateAt, segmentRange.
  assert (Hlen : List.length (skipn startIdx parts)
                 = (List.length parts - startIdx)%nat) by apply length_skipn.
  destruct (skipn startIdx parts) as [|a rest] eqn:Hskip.
  - exfalso. apply nth_error_split in Hnth.
    destruct Hnth as [l1 [l2 [E Hl]]]. subst parts startIdx.
    rewrite skipn_app, Nat.sub_diag, skipn_all in Hskip. discriminate Hskip.
  - assert (a = segment).
    { apply nth_error_split in Hnth.
      destruct Hnth as [l1 [l2 [E Hl]]]. subst parts startIdx.
      rewrite skipn_app, Nat.sub_diag, skipn_all in Hskip.
      simpl in Hskip. congruence. }
    subst a. rewrite growAll_from_start by assumption.
    rewrite <- Hlen.
    rewrite (seq_offset (fun j => join (lit "/") (firstn j (segment :: rest)))
               startIdx (List.length (segment :: rest)) 0).
    now rewrite Nat.add_0_r.
Qed.

Lemma join_app (sep : jsstring) (pre more : list jsstring) :
  pre <> [] -> more <> [] ->
  join sep (pre ++ more) = join sep pre ++ sep ++ join sep more.
Proof.
  intros Hpre. revert pre Hpre.
  induction more as [|m more IH]; intros pre Hpre Hmore; [congruence |].
  destruct more as [|m' more].
  - now apply join_snoc.
  - replace (pre ++ m :: m' :: more) with ((pre ++ [m]) ++ m' :: more)
      by now rewrite <- app_assoc.
    rewrite IH; [| now destruct pre | discriminate].
    rewrite join_snoc by assumption.
    change (join sep (m :: m' :: more)) with (m ++ sep ++ join sep (m' :: more)).
    now rewrite <- !app_assoc.
Qed.

Lemma join_prefix (sep : jsstring) (pre more : list jsstring) :
  pre <> [] -> isPrefixOf (join sep pre) (join sep (pre ++ more)).
Proof.
  intros Hpre. destruct more as [|m more].
  - exists []. now rewrite !app_nil_r.
  - exists (sep ++ join sep (m :: more)). now apply join_app.
Qed.

Lemma firstn_le_prefix {A} (l : list A) (m m' : nat) :
  (m <= m')%nat -> firstn m' l = firstn m l ++ firstn (m' - m) (skipn m l).
Proof.
  revert l m'. induction m as [|m IH]; intros l m' Hle.
  - now rewrite Nat.sub_0_r.
  - destruct m' as [|m']; [lia |]. destruct l as [|a l].
    + now rewrite !firstn_nil.
    + cbn [firstn skipn app]. f_equal. apply IH. lia.
Qed.

Lemma isPrefixOf_length {A} (p s : list A) :
  isPrefixOf p s -> (List.length p <= List.length s)%nat.
Proof. intros [t ->]. rewrite length_app. lia. Qed.

(** A candidate is an initial part of every later candidate, segment by
    segment and character by character. *)
Lemma candidateAt_prefix (parts : list jsstring) (startIdx e e' : nat) :
  (startIdx <= e)%nat -> (e <= e')%nat -> (e' < List.length parts)%nat ->
  isPrefixOf (segmentRange parts startIdx e) (segmentRange parts startIdx e')
  /\ isPrefixOf (candidateAt parts startIdx e) (candidateAt parts startIdx e').
Proof.
  intros Hs Hee Hlen. unfold candidateAt, segmentRange.
  rewrite (@firstn_le_prefix _ (skipn startIdx parts)
             (S e - startIdx) (S e' - startIdx)) by lia.
  split.
  - eexists. reflexivity.
  - apply join_prefix.
    assert (Hl : List.length (skipn startIdx parts)
                 = (List.length parts - startIdx)%nat) by apply length_skipn.
    destruct (skipn startIdx parts) as [|a rest]; [simpl in Hl; lia |].
    replace (S e - startIdx)%nat with (S (e - startIdx)) by lia.
    discriminate.
Qed.

Lemma candidates_length (parts : list jsstring) (startIdx : nat) :
  List.length (candidates parts startIdx)
  = (List.length parts - startIdx)%nat.
Proof. unfold candidates. now rewrite length_map, length_seq. Qed.

Lemma candidates_nth (parts : list jsstring) (startIdx k : nat) :
  (k < List.length parts - startIdx)%nat ->
  nth_error (candidates parts startIdx) k
  = Some (candidateAt parts startIdx (startIdx + k)).
Proof.
  intros Hk. unfold candidates.
  rewrite nth_error_map, nth_error_seq.
  assert (Hb : (k <? List.length parts - startIdx)%nat = true)
    by now apply Nat.ltb_lt.
  now rewrite Hb.
Qed.

(* ================================================================== *)
(** * The decode cascade and the scan, on any engine *)
(* ================================================================== *)

Section Pipeline.

Context {P : Platform}.

(** The loop over the closures returns the first successful result and
    has then called one closure more than the failures before it. *)
Lemma runAttempts_firstSuccess (fs : list (unit -> Attempt)) (called : nat) :
  runAttempts fs called
  = match firstSuccess (map (fun f => f tt) fs) with
    | Some (k, r) => (r, (called + S k)%nat)
    | None => (Fail, (called + List.length fs)%nat)
    end.
Proof.
  revert called. induction fs as [|f fs IH]; intros called; simpl.
  - now rewrite Nat.add_0_r.
  - destruct (ok (f tt)) eqn:Hok.
    + f_equal. lia.
    + rewrite IH. destruct (firstSuccess (map (fun f0 => f0 tt) fs)) as [[k r]|];
        f_equal; lia.
Qed.

Lemma firstSuccess_Some (results : list Attempt) (k : nat) (r : Attempt) :
  firstSuccess results = Some (k, r)
  <-> nth_error results k = Some r /\ ok r = true
      /\ forall j r', (j < k)%nat -> nth_error results j = Some r' ->
                      ok r' = false.
Proof.
  revert k. induction results as [|a results IH]; intros k; simpl.
  - split; [discriminate | intros [H _]; now destruct k].
  - destruct (ok a) eqn:Ha.
    + split.
      * intros E. injection E as <- <-. repeat split; try assumption.
        intros j r' Hj. lia.
      * intros [Hn [Hr Hlt]]. destruct k as [|k].
        -- simpl in Hn. congruence.
        -- specialize (Hlt 0%nat a (Nat.lt_0_succ k) eq_refl). congruence.
    + destruct (firstSuccess results) as [[k' r']|] eqn:Hf.
      * split.
        -- intros E. injection E as <- <-.
           destruct (proj1 (IH k') eq_refl) as [Hn [Hr Hlt]].
           repeat split; try assumption.
           intros [|j] r0 Hj Hnth; simpl in Hnth.
           ++ congruence.
           ++ apply (Hlt j); [lia | assumption].
        -- intros [Hn [Hr Hlt]]. destruct k as [|k]; simpl in Hn.
           ++ congruence.
           ++ assert (E : Some (k', r') = Some (k, r)).
              { apply IH. repeat split; try assumption.
                intros j r0 Hj Hnth. apply (Hlt (S j)); [lia | assumption]. }
              congruence.
      * split; [discriminate |].
        intros [Hn [Hr Hlt]]. destruct k as [|k]; simpl in Hn.
        -- congruence.
        -- assert (E : None = Some (k, r)); [| discriminate E].
           apply IH. repeat split; try assumption.
           intros j r0 Hj Hnth. apply (Hlt (S j)); [lia | assumption].
Qed.

Lemma firstSuccess_None (results : list Attempt) :
  firstSuccess results = None
  <-> forall r, In r results -> ok r = false.
Proof.
  induction results as [|a results IH]; simpl.
  - split; [intros _ ? [] | reflexivity].
  - destruct (ok a) eqn:Ha.
    + split; [discriminate |]. intros H. specialize (H a (or_introl eq_refl)).
      congruence.
    + destruct (firstSuccess results) as [[k r]|].
      * split; [discriminate |]. intros H.
        assert (E : Some (k, r) = None); [| discriminate E].
        apply (proj2 IH). intros r0 Hin. apply H. now right.
      * split; [| reflexivity]. intros _ r0 [<- | Hin]; [assumption |].
        now apply (proj1 IH).
Qed.

Lemma tryParseJson_firstSuccess (input : jsstring) :
  tryParseJson input
  = match firstSuccess (attemptResults input) with
    | Some (_, r) => r
    | None => Fail
    end.
Proof.
  unfold tryParseJson, attemptResults. rewrite runAttempts_firstSuccess.
  now destruct (firstSuccess _) as [[k r]|].
Qed.

(** ** The accumulation loop against the specification's scan *)

Lemma accumulate_examine (accumulated : jsstring) (rest : list jsstring) :
  accumulate accumulated rest
  = (fst (examine (growAll accumulated rest)),
     respond (snd (examine (growAll accumulated rest)))).
Proof.
  revert accumulated. induction rest as [|part rest IH]; intros accumulated.
  - reflexivity.
  - cbn [accumulate growAll examine].
    destruct (tryParseJson (grow accumulated part)) as [|value rawText].
    + rewrite IH.
      now destruct (examine (growAll (grow accumulated part) rest)).
    + rewrite Z.gtb_ltb.
      now destruct (64000 <? jslength rawText)%Z.
Qed.

Lemma examine_not_NoCandidateFound (cands : list jsstring) :
  snd (examine cands) <> NoCandidateFound.
Proof.
  induction cands as [|c cands IH]; simpl; [discriminate |].
  destruct (tryParseJson c) as [|value rawText].
  - now destruct (examine cands).
  - simpl. now destruct (64000 <? jslength rawText)%Z.
Qed.

Lemma firstTriggeredAt_segment (parts : list jsstring) (i : nat) :
  firstTriggeredAt parts i ->
  exists segment, nth_error parts i = Some segment /\ segment <> [].
Proof.
  intros [[segment [Hn Ht]] _]. exists segment. split; [assumption |].
  now apply isStart_nonempty, isStart_triggered.
Qed.

(** The handler, from [START_PREFIXES] on, in the specification's
    terms. *)
Lemma scanTraced_spec (parts : list jsstring) :
  (findStart parts = (-1)%Z
   /\ (forall segment, In segment parts -> ~ triggered segment)
   /\ scanTraced parts = ([], respond NoCandidateFound))
  \/ (exists i,
        findStart parts = Z.of_nat i
        /\ firstTriggeredAt parts i
        /\ scanTraced parts
           = (fst (examine (candidates parts i)),
              respond (snd (examine (candidates parts i))))).
Proof.
  destruct (findStart_spec parts) as [[E Hall] | [i [E Hi]]].
  - left. repeat split; try assumption.
    unfold scanTraced. now rewrite E.
  - right. exists i. repeat split; try assumption; try apply Hi.
    unfold scanTraced. rewrite E.
    assert (Hne : (Z.of_nat i =? -1)%Z = false) by (apply Z.eqb_neq; lia).
    rewrite Hne, Nat2Z.id, accumulate_examine.
    destruct (firstTriggeredAt_segment Hi) as [segment [Hn Hs]].
    now rewrite (growAll_candidates parts i Hn Hs).
Qed.

Lemma examine_first_success (cands : list jsstring) (k : nat)
    (c : jsstring) (value : JsonValue) (rawText : jsstring) :
  nth_error cands k = Some c ->
  (forall j c', (j < k)%nat -> nth_error cands j = Some c' ->
                tryParseJson c' = Fail) ->
  tryParseJson c = Ok value rawText ->
  examine cands
  = (firstn (S k) cands,
     if (64000 <? jslength rawText)%Z then PayloadTooLarge else Success value).
Proof.
  revert k. induction cands as [|a cands IH]; intros k Hn Hlt Hok.
  - now destruct k.
  - destruct k as [|k]; simpl in Hn.
    + injection Hn as ->. cbn [examine]. rewrite Hok. reflexivity.
    + cbn [examine]. rewrite (Hlt 0%nat a (Nat.lt_0_succ k) eq_refl).
      rewrite (IH k Hn); [reflexivity | | assumption].
      intros j c' Hj Hnth. apply (Hlt (S j)); [lia | assumption].
Qed.

Lemma examine_all_fail (cands : list jsstring) :
  (forall c, In c cands -> tryParseJson c = Fail) ->
  examine cands = (cands, Exhausted).
Proof.
  induction cands as [|a cands IH]; intros Hall; [reflexivity |].
  cbn [examine]. rewrite (Hall a (or_introl eq_refl)).
  rewrite IH; [reflexivity |]. intros c Hin. apply Hall. now right.
Qed.

Lemma examine_seen_prefix (cands : list jsstring) :
  exists n, (n <= List.length cands)%nat
            /\ (cands <> [] -> (1 <= n)%nat)
            /\ fst (examine cands) = firstn n cands.
Proof.
  induction cands as [|a cands [n [Hn [Hpos E]]]].
  - exists 0%nat. repeat split; [lia | congruence].
  - cbn [examine]. destruct (tryParseJson a) as [|value rawText].
    + exists (S n). repeat split; simpl; try lia.
      destruct (examine cands). simpl in *. now rewrite E.
    + exists 1%nat. repeat split; simpl; lia.
Qed.

(** Past the method gate and the landing page, [fetch] is the scan of
    the path's segments. *)
Lemma fetch_scan (method pathname : jsstring) :
  method = lit "GET" \/ method = lit "HEAD" ->
  pathname <> lit "/" -> pathname <> lit "/index.html" ->
  fetch method pathname = scan (pathParts pathname).
Proof.
  intros Hm H1 H2. unfold fetch.
  assert (Hinc : includes [lit "/"; lit "/index.html"] pathname = false).
  { destruct (includes [lit "/"; lit "/index.html"] pathname) eqn:Hinc;
      [| reflexivity].
    apply includes_In in Hinc. destruct Hinc as [<- | [<- | []]]; congruence. }
  rewrite Hinc. destruct Hm as [-> | ->]; reflexivity.
Qed.

End Pipeline.

(* ================================================================== *)
(** * Properties of the decode cascade and of the scan *)
(* ================================================================== *)

Section Claims.

Context {P : Platform}.

(** C1.  On every candidate the orchestrator holds six attempts, in the
    order percent-decode, raw JSON, base64url, standard base64, base32,
    hex.  It returns the result of the first attempt that succeeds, and
    has then called that attempt and the ones before it, no later one;
    when none succeeds it has called all six and fails.  In particular,
    whenever the percent-decode attempt succeeds its result is the one
    returned, whatever a base64 attempt would give. *)
Theorem tryParseJson_priority (input : jsstring) :
  attemptResults input
  = [ attemptUrlDecoded input tt; attemptRaw input tt;
      attemptB64Url input tt; attemptB64Std input tt;
      attemptBase32 input tt; attemptHex input tt ]
  /\ (forall k r,
        nth_error (attemptResults input) k = Some r ->
        ok r = true ->
        (forall j r', (j < k)%nat ->
           nth_error (attemptResults input) j = Some r' -> ok r' = false) ->
        runAttempts (attempts input) 0 = (r, S k)
        /\ tryParseJson input = r)
  /\ ((forall r, In r (attemptResults input) -> ok r = false) ->
      runAttempts (attempts input) 0 = (Fail, 6%nat)
      /\ tryParseJson input = Fail)
  /\ (ok (attemptUrlDecoded input tt) = true ->
      tryParseJson input = attemptUrlDecoded input tt).
Proof.
  split; [reflexivity |]. split; [| split].
  - intros k r Hn Hr Hlt.
    assert (E : firstSuccess (attemptResults input) = Some (k, r))
      by (apply firstSuccess_Some; auto).
    unfold tryParseJson. rewrite runAttempts_firstSuccess.
    fold (attemptResults input). rewrite E. now split.
  - intros Hall.
    assert (E : firstSuccess (attemptResults input) = None)
      by now apply firstSuccess_None.
    unfold tryParseJson. rewrite runAttempts_firstSuccess.
    fold (attemptResults input). rewrite E. now split.
  - intros Hok. unfold tryParseJson, attempts. cbn [runAttempts].
    now rewrite Hok.
Qed.

(** C2.  The scan answers [NoCandidateFound] (status 400, error
    "No JSON-like segment found") exactly when no segment, lowercased,
    starts with one of the five trigger prefixes; and when some segment
    does, [startIdx] is the index of the first such segment.  The same
    holds of the response to a GET or HEAD of any pathname that the
    landing page does not take. *)
Theorem scan_NoCandidateFound_iff (parts : list jsstring) :
  (scan parts = respond NoCandidateFound
   <-> forall segment, In segment parts -> ~ triggered segment)
  /\ (findStart parts = (-1)%Z
      <-> forall segment, In segment parts -> ~ triggered segment)
  /\ ((exists segment, In segment parts /\ triggered segment) ->
      exists i, findStart parts = Z.of_nat i /\ firstTriggeredAt parts i)
  /\ (forall method pathname,
        parts = pathParts pathname ->
        method = lit "GET" \/ method = lit "HEAD" ->
        pathname <> lit "/" -> pathname <> lit "/index.html" ->
        (fetch method pathname = respond NoCandidateFound
         <-> forall segment, In segment parts -> ~ triggered segment)).
Proof.
  cut ((scan parts = respond NoCandidateFound
        <-> forall segment, In segment parts -> ~ triggered segment)
       /\ (findStart parts = (-1)%Z
           <-> forall segment, In segment parts -> ~ triggered segment)
       /\ ((exists segment, In segment parts /\ triggered segment) ->
           exists i, findStart parts = Z.of_nat i
                     /\ firstTriggeredAt parts i)).
  { intros [H1 [H2 H3]]. repeat (split; [assumption |]).
    intros method pathname -> Hm Hp1 Hp2.
    now rewrite (fetch_scan Hm Hp1 Hp2). }
  unfold scan.
  destruct (scanTraced_spec parts) as [[E [Hall Hs]] | [i [E [Hi Hs]]]].
  - rewrite Hs. split; [| split].
    + split; intros _; [assumption | reflexivity].
    + split; intros _; assumption.
    + intros [segment [Hin Ht]]. exfalso. now apply (Hall segment).
  - rewrite Hs. cbn [snd].
    assert (Hex : ~ forall segment, In segment parts -> ~ triggered segment).
    { intros Hall. destruct Hi as [[segment [Hn Ht]] _].
      apply (Hall segment); [| assumption]. now apply nth_error_In with i. }
    split; [| split].
    + split.
      * intros H. apply respond_injective in H.
        now apply examine_not_NoCandidateFound in H.
      * intros H. now apply Hex in H.
    + split.
      * intros H. rewrite E in H. lia.
      * intros H. now apply Hex in H.
    + intros _. now exists i.
Qed.

(** C4.  When a candidate decodes, and none before it did, the scan
    stops at that candidate: no later candidate is examined.  The answer
    is the parsed value when the decoded text has at most 64,000
    characters (exactly 64,000 included) and [PayloadTooLarge] (status
    413) when it has 64,001 or more; the decoded text is that of the
    first successful attempt on the candidate. *)
Theorem scan_stops_at_first_success (parts : list jsstring)
    (startIdx k : nat) (cand : jsstring)
    (value : JsonValue) (rawText : jsstring) :
  findStart parts = Z.of_nat startIdx ->
  nth_error (candidates parts startIdx) k = Some cand ->
  (forall j c, (j < k)%nat ->
     nth_error (candidates parts startIdx) j = Some c ->
     tryParseJson c = Fail) ->
  tryParseJson cand = Ok value rawText ->
  fst (scanTraced parts) = firstn (S k) (candidates parts startIdx)
  /\ (exists i, firstSuccess (attemptResults cand)
                = Some (i, Ok value rawText))
  /\ ((jslength rawText <= 64000)%Z ->
      scan parts = respond (Success value)
      /\ status (scan parts) = 200%Z)
  /\ ((jslength rawText = 64000)%Z -> scan parts = respond (Success value))
  /\ ((jslength rawText >= 64001)%Z ->
      scan parts = respond PayloadTooLarge
      /\ status (scan parts) = 413%Z).
Proof.
  intros Hstart Hn Hlt Hok. unfold scan.
  destruct (scanTraced_spec parts) as [[E _] | [i [E [Hi Hs]]]];
    [rewrite E in Hstart; lia |].
  assert (i = startIdx) by lia. subst i.
  rewrite Hs, (examine_first_success _ Hn Hlt Hok). cbn [fst snd].
  split; [reflexivity |]. split.
  - rewrite tryParseJson_firstSuccess in Hok.
    destruct (firstSuccess (attemptResults cand)) as [[i r]|];
      [| discriminate Hok].
    exists i. now subst r.
  - assert (Hsmall : (jslength rawText <= 64000)%Z ->
                     (64000 <? jslength rawText)%Z = false)
      by (intros; apply Z.ltb_ge; lia).
    assert (Hlarge : (jslength rawText >= 64001)%Z ->
                     (64000 <? jslength rawText)%Z = true)
      by (intros; apply Z.ltb_lt; lia).
    split; [| split].
    + intros Hlen. rewrite (Hsmall Hlen). now split.
    + intros Hlen. rewrite Hsmall by lia. reflexivity.
    + intros Hlen. rewrite (Hlarge Hlen). now split.
Qed.

(** C6.  The candidates of a path are the joins with [/] of the segment
    ranges from [startIdx] to [endIdx], for [endIdx] going up by one
    from [startIdx] to the last index.  The scan examines them in that
    order, from the first one on, without skipping any, and all of them
    when none decodes.  Every candidate is an initial part of every later
    one, as a sequence of segments and as a string; so is, in particular,
    the first candidate, and candidates never get shorter. *)
Theorem candidates_grow (parts : list jsstring) (startIdx : nat) :
  findStart parts = Z.of_nat startIdx ->
  List.length (candidates parts startIdx)
  = (List.length parts - startIdx)%nat
  /\ (forall k, (k < List.length parts - startIdx)%nat ->
        nth_error (candidates parts startIdx) k
        = Some (join (lit "/")
                  (segmentRange parts startIdx (startIdx + k))))
  /\ (exists n, (1 <= n <= List.length parts - startIdx)%nat
        /\ fst (scanTraced parts) = firstn n (candidates parts startIdx))
  /\ ((forall c, In c (candidates parts startIdx) -> tryParseJson c = Fail) ->
      fst (scanTraced parts) = candidates parts startIdx)
  /\ (forall e e',
        (startIdx <= e)%nat -> (e <= e')%nat -> (e' < List.length parts)%nat ->
        isPrefixOf (segmentRange parts startIdx e)
                   (segmentRange parts startIdx e')
        /\ isPrefixOf (candidateAt parts startIdx e)
                      (candidateAt parts startIdx e')
        /\ (List.length (candidateAt parts startIdx e)
            <= List.length (candidateAt parts startIdx e'))%nat)
  /\ (forall e,
        (startIdx <= e)%nat -> (e < List.length parts)%nat ->
        isPrefixOf (segmentRange parts startIdx startIdx)
                   (segmentRange parts startIdx e)
        /\ isPrefixOf (candidateAt parts startIdx startIdx)
                      (candidateAt parts startIdx e)).
Proof.
  intros Hstart.
  destruct (scanTraced_spec parts) as [[E _] | [i [E [Hi Hs]]]];
    [rewrite E in Hstart; lia |].
  assert (i = startIdx) by lia. subst i.
  assert (Hlt : (startIdx < List.length parts)%nat).
  { destruct Hi as [[segment [Hn _]] _].
    apply nth_error_Some. congruence. }
  split; [apply candidates_length |].
  split; [intros k Hk; now apply candidates_nth |].
  split; [| split; [| split]].
  - destruct (examine_seen_prefix (candidates parts startIdx))
      as [n [Hn [Hpos En]]].
    exists n. rewrite candidates_length in Hn. split.
    + split; [| assumption]. apply Hpos. intros Hnil.
      apply (f_equal (@List.length _)) in Hnil.
      rewrite candidates_length in Hnil. simpl in Hnil. lia.
    + now rewrite Hs.
  - intros Hall. rewrite Hs. cbn [fst].
    now rewrite (examine_all_fail _ Hall).
  - intros e e' H1 H2 H3.
    destruct (candidateAt_prefix parts H1 H2 H3) as [Hseg Hstr].
    repeat split; try assumption. now apply isPrefixOf_length.
  - intros e H1 H2.
    apply candidateAt_prefix; [apply Nat.le_refl | assumption | assumption].
Qed.

End Claims.

Lemma scan_outcome {P : Platform} (parts : list jsstring) :
  exists o, scan parts = respond o.
Proof.
  unfold scan.
  destruct (scanTraced_spec parts) as [[_ [_ Hs]] | [i [_ [_ Hs]]]];
    rewrite Hs; eexists; reflexivity.
Qed.

(* ================================================================== *)
(** * The landing page, the validator, the base64 filter *)
(* ================================================================== *)

Lemma respond_not_landingPage (o : Outcome) : respond o <> landingPage.
Proof.
  intros H. apply (f_equal headers) in H.
  destruct o; discriminate H.
Qed.

Lemma pathParts_root_no_trigger (pathname : jsstring) :
  includes [lit "/"; lit "/index.html"] pathname = true ->
  findStart (pathParts pathname) = (-1)%Z.
Proof.
  intros H. apply includes_In in H.
  destruct H as [<- | [<- | []]]; reflexivity.
Qed.

(** C10.  The landing page is served for the pathnames ["/"] and
    ["/index.html"] exactly (and for GET and HEAD only).  Any other
    pathname goes to the scan; when none of its segments carries a
    trigger prefix, as for ["/index.html/"] and ["//"], the answer is
    the 400 response "No JSON-like segment found", not the landing
    page. *)
Theorem landing_page_exact_paths :
  (forall (P : Platform) (method pathname : jsstring),
     fetch method pathname = landingPage
     <-> (method = lit "GET" \/ method = lit "HEAD")
         /\ (pathname = lit "/" \/ pathname = lit "/index.html"))
  /\ (forall (P : Platform) (method pathname : jsstring),
        method = lit "GET" \/ method = lit "HEAD" ->
        pathname <> lit "/" -> pathname <> lit "/index.html" ->
        (forall segment, In segment (pathParts pathname) ->
                         ~ triggered segment) ->
        fetch method pathname = respond NoCandidateFound
        /\ fetch method pathname <> landingPage)
  /\ (forall (P : Platform),
        pathParts (lit "/index.html/") = [lit "index.html"]
        /\ fetch (lit "GET") (lit "/index.html/") = respond NoCandidateFound
        /\ pathParts (lit "//") = []
        /\ fetch (lit "GET") (lit "//") = respond NoCandidateFound).
Proof.
  split; [| split].
  - intros P method pathname. split.
    + unfold fetch.
      destruct (jsstring_eqb method (lit "OPTIONS")) eqn:Hopt.
      { intros H. apply (f_equal body) in H. discriminate H. }
      destruct (jsstring_eqb method (lit "GET")) eqn:Hget;
        destruct (jsstring_eqb method (lit "HEAD")) eqn:Hhead; cbn [negb andb];
        try (intros H; apply (f_equal status) in H; discriminate H);
        (destruct (includes [lit "/"; lit "/index.html"] pathname) eqn:Hinc;
         [ intros _; split;
           [ first [ left; now apply jsstring_eqb_eq
                   | right; now apply jsstring_eqb_eq ]
           | apply includes_In in Hinc;
             destruct Hinc as [<- | [<- | []]]; auto ]
         | intros H; destruct (scan_outcome (pathParts pathname)) as [o Ho];
           rewrite Ho in H; now apply respond_not_landingPage in H ]).
    + intros [[-> | ->] [-> | ->]]; reflexivity.
  - intros P method pathname Hm H1 H2 Hall.
    assert (E : fetch method pathname = respond NoCandidateFound).
    { unfold fetch.
      assert (Hinc : includes [lit "/"; lit "/index.html"] pathname = false).
      { destruct (includes [lit "/"; lit "/index.html"] pathname) eqn:Hinc;
          [| reflexivity].
        apply includes_In in Hinc. destruct Hinc as [<- | [<- | []]]; congruence. }
      rewrite Hinc.
      assert (Hs : scan (pathParts pathname) = respond NoCandidateFound).
      { unfold scan.
        destruct (scanTraced_spec (pathParts pathname))
          as [[_ [_ Hs]] | [i [_ [[[segment [Hn Ht]] _] _]]]].
        - now rewrite Hs.
        - exfalso. apply (Hall segment); [| assumption].
          now apply nth_error_In with i. }
      destruct Hm as [-> | ->]; exact Hs. }
    split; [assumption |]. rewrite E. apply respond_not_landingPage.
  - intros P. repeat split; reflexivity.
Qed.

(** C3.  [parseJson] succeeds exactly when the text parses as JSON and
    the value is an object or an array; the value is then returned.  It
    fails on a syntax error and on a string, a number, a boolean or
    [null]: the text [42], valid JSON, is rejected. *)
Theorem parseJson_accepts_only_containers :
  (forall (P : Platform) (text rawText : jsstring),
     (ok (parseJson text rawText) = true
      <-> exists v, JSON_parse text = Some v
                    /\ (isObject v = true \/ isArray v = true))
     /\ (forall v, JSON_parse text = Some v ->
                   isObject v = true \/ isArray v = true ->
                   parseJson text rawText = Ok v rawText)
     /\ (JSON_parse text = None -> parseJson text rawText = Fail)
     /\ (forall v, JSON_parse text = Some v ->
                   isObject v = false -> isArray v = false ->
                   parseJson text rawText = Fail))
  /\ (JSON.parse (lit "42")
      = Some (JNumber {| neg := false; mant := 42; exp10 := 0 |})
      /\ @parseJson engine (lit "42") (lit "42") = Fail)
  /\ (JSON.parse (quoted (lit "hello")) = Some (JString (lit "hello"))
      /\ @parseJson engine (quoted (lit "hello")) (quoted (lit "hello"))
         = Fail)
  /\ @parseJson engine (lit "true") (lit "true") = Fail
  /\ @parseJson engine (lit "null") (lit "null") = Fail
  /\ @parseJson engine (lit "{") (lit "{") = Fail.
Proof.
  split; [| repeat split; reflexivity].
  intros P text rawText. unfold parseJson.
  destruct (JSON_parse text) as [v|].
  - destruct v; cbn [truthy typeof String.eqb isObject isArray];
      rewrite ?andb_false_r; cbn [andb ok fail].
    all: split; [| split; [| split]].
    all: try (split; [discriminate | intros [v [E [H | H]]];
                      injection E as <-; discriminate H]).
    all: try (split; [intros _; eexists; split; [reflexivity | auto] | reflexivity]).
    all: try (intros v E [H | H]; injection E as <-;
              first [discriminate H | reflexivity]).
    all: try discriminate.
    all: try (intros v E H1 H2; injection E as <-;
              first [reflexivity | discriminate H1 | discriminate H2]).
  - cbn [ok fail]. split; [| split; [| split]].
    + split; [discriminate | intros [v [E _]]; discriminate E].
    + intros v E. discriminate E.
    + reflexivity.
    + intros v E. discriminate E.
Qed.

(** The claim that the fourth attempt keeps only characters of the
    alphabet A-Z, a-z, 0-9, [+], [/] fails on the candidate [ey=]: the
    filter keeps the [=]. *)
Lemma stripNonB64Std_keeps_equals_sign :
  stripNonB64Std (lit "ey=") = lit "ey="
  /\ In (ch "=") (stripNonB64Std (lit "ey="))
  /\ inB64StdAlphabet (ch "=") = false
  /\ ~ (forall input c, In c (stripNonB64Std input) ->
                        inB64StdAlphabet c = true).
Proof.
  split; [reflexivity |]. split; [vm_compute; auto |].
  split; [reflexivity |].
  intros H. specialize (H (lit "ey=") (ch "=")).
  assert (Hin : In (ch "=") (stripNonB64Std (lit "ey="))) by (vm_compute; auto).
  apply H in Hin. discriminate Hin.
Qed.

Lemma padBase64_shape (s : jsstring) :
  exists n, (n < 4)%nat /\ padBase64 s = s ++ repeat (ch "=") n
            /\ (List.length (padBase64 s) mod 4 = 0)%nat.
Proof.
  unfold padBase64.
  assert (Hm : (List.length s mod 4 < 4)%nat) by (apply Nat.mod_upper_bound; lia).
  destruct (Nat.eqb (List.length s mod 4) 0) eqn:E.
  - apply Nat.eqb_eq in E. exists 0%nat. simpl. rewrite app_nil_r.
    repeat split; [lia | assumption].
  - apply Nat.eqb_neq in E. exists (4 - List.length s mod 4)%nat.
    repeat split; [lia |].
    rewrite length_app, repeat_length.
    pose proof (Nat.div_mod_eq (List.length s) 4) as Hd.
    replace (List.length s + (4 - List.length s mod 4))%nat
      with ((List.length s / 4 + 1) * 4)%nat by lia.
    apply Nat.Div0.mod_mul.
Qed.

(** C7, amended.  In the fourth attempt the candidate is first reduced
    to its characters in A-Z, a-z, 0-9, [+], [/] and [=]: the cleaned
    string, which the [ey] check reads and which is padded with [=] to a
    multiple of four characters and decoded, holds characters of the
    standard base64 alphabet and [=] signs only. *)
Theorem stripNonB64Std_alphabet_or_padding :
  forall (P : Platform) (input : jsstring),
    stripNonB64Std input
    = filter (fun c => inB64StdAlphabet c || (c =? ch "=")%N) input
    /\ (forall c, In c (stripNonB64Std input)
                  <-> In c input
                      /\ (inB64StdAlphabet c = true \/ c = ch "="))
    /\ attemptB64Std input tt
       = (if looksLikeB64Prefix (stripNonB64Std input)
          then parseDecoded
                 (option_map (fun bin => utf8FromBytes (BinString bin))
                    (atob (padBase64 (stripNonB64Std input))))
          else Fail)
    /\ (exists n, (n < 4)%nat
          /\ padBase64 (stripNonB64Std input)
             = stripNonB64Std input ++ repeat (ch "=") n
          /\ (List.length (padBase64 (stripNonB64Std input)) mod 4 = 0)%nat).
Proof.
  intros P input.
  assert (Hcls : forall c, isB64StdChar c
                           = inB64StdAlphabet c || (c =? ch "=")%N)
    by reflexivity.
  split; [| split; [| split]].
  - unfold stripNonB64Std, keepClass. apply filter_ext. exact Hcls.
  - intros c. unfold stripNonB64Std, keepClass.
    rewrite filter_In, Hcls, orb_true_iff, N.eqb_eq. reflexivity.
  - unfold attemptB64Std, b64StdToUtf8.
    destruct (looksLikeB64Prefix (stripNonB64Std input)); cbn [negb];
      [| reflexivity].
    now destruct (atob (padBase64 (stripNonB64Std input))).
  - apply padBase64_shape.
Qed.

(* ================================================================== *)
(** * Percent-encoded documents *)
(* ================================================================== *)

Lemma candidates_head (parts : list jsstring) (startIdx : nat)
    (segment : jsstring) :
  nth_error parts startIdx = Some segment ->
  nth_error (candidates parts startIdx) 0 = Some segment.
Proof.
  intros Hn.
  assert (Hlt : (startIdx < List.length parts)%nat)
    by (apply nth_error_Some; congruence).
  rewrite candidates_nth by lia.
  unfold candidateAt, segmentRange.
  replace (S (startIdx + 0) - startIdx)%nat with 1%nat by lia.
  apply nth_error_split in Hn. destruct Hn as [l1 [l2 [-> <-]]].
  rewrite skipn_app, Nat.sub_diag, skipn_all. reflexivity.
Qed.

(** A candidate that percent-decodes to the text of an object is
    decoded by the first attempt. *)
Lemma tryParseJson_percent_decoded {P : Platform}
    (segment text : jsstring) (O : JsonValue) :
  decodeURIComponent segment = Some text ->
  text <> [] ->
  JSON_parse text = Some O ->
  isObject O = true ->
  tryParseJson segment = Ok O text.
Proof.
  intros Hdec Hne Hparse Hobj.
  unfold tryParseJson, attempts. cbn [runAttempts].
  unfold attemptUrlDecoded at 1 2, safeDecodeURIComponent, parseDecoded.
  rewrite Hdec.
  assert (Ht : truthyString text = true) by now apply truthyString_true.
  rewrite Ht. unfold parseJson. rewrite Hparse.
  destruct O; try discriminate Hobj. reflexivity.
Qed.

(** A first triggered segment that percent-decodes to the text of an
    object is decoded on the first candidate. *)
Lemma scan_first_segment_percent_encoded {P : Platform}
    (parts : list jsstring) (startIdx : nat)
    (segment text : jsstring) (O : JsonValue) :
  findStart parts = Z.of_nat startIdx ->
  nth_error parts startIdx = Some segment ->
  decodeURIComponent segment = Some text ->
  text <> [] ->
  JSON_parse text = Some O ->
  isObject O = true ->
  (jslength text <= 64000)%Z ->
  scan parts = respond (Success O).
Proof.
  intros Hstart Hn Hdec Hne Hparse Hobj Hlen.
  assert (Htry : tryParseJson segment = Ok O text)
    by now apply tryParseJson_percent_decoded.
  unfold scan.
  destruct (scanTraced_spec parts) as [[E _] | [i [E [_ Hs]]]];
    [rewrite E in Hstart; lia |].
  assert (i = startIdx) by lia. subst i. rewrite Hs. cbn [snd].
  rewrite (@examine_first_success _ _ 0 segment O text);
    [| now apply candidates_head | intros j c Hj; lia | assumption].
  assert (Hb : (64000 <? jslength text)%Z = false) by (apply Z.ltb_ge; lia).
  now rewrite Hb.
Qed.

(** The claim that any segment holding the percent-encoded text of an
    object [O] makes the pipeline answer [O] fails on a path with two
    such segments: the scan starts at the first triggered segment and
    answers with the first document. *)
Lemma later_percent_encoded_segment_ignored :
  In (lit "%7B%22b%22%3A2%7D")
     (pathParts (lit "/%7B%22a%22%3A1%7D/%7B%22b%22%3A2%7D"))
  /\ @percentEncodes engine (lit "%7B%22b%22%3A2%7D")
       (JObject [ (lit "b",
                   JNumber {| neg := false; mant := 2; exp10 := 0 |}) ])
  /\ @fetch engine (lit "GET") (lit "/%7B%22a%22%3A1%7D/%7B%22b%22%3A2%7D")
     = respond
         (Success
            (JObject [ (lit "a",
                        JNumber {| neg := false; mant := 1; exp10 := 0 |}) ]))
  /\ @fetch engine (lit "GET") (lit "/%7B%22a%22%3A1%7D/%7B%22b%22%3A2%7D")
     <> respond
          (Success
             (JObject [ (lit "b",
                         JNumber {| neg := false; mant := 2; exp10 := 0 |}) ])).
Proof.
  split; [vm_compute; auto |]. split; [| split].
  - exists (lit "{" ++ quoted (lit "b") ++ lit ":2}").
    repeat split; reflexivity.
  - reflexivity.
  - intros H. vm_compute in H. discriminate H.
Qed.

(** C5, amended.  When the first segment of the path that carries a
    trigger prefix is the percent-encoded JSON text of an object [O], and
    that text has at most 64,000 characters, a GET of the path answers
    200 with exactly [O].  This holds on every engine: [O] is the object
    its [JSON.parse] makes of the text its [decodeURIComponent] makes of
    the segment (a JSON text is never empty). *)
Theorem first_triggered_segment_percent_encoded {P : Platform}
    (pathname segment text : jsstring) (O : JsonValue) (startIdx : nat) :
  findStart (pathParts pathname) = Z.of_nat startIdx ->
  nth_error (pathParts pathname) startIdx = Some segment ->
  decodeURIComponent segment = Some text ->
  text <> [] ->
  JSON_parse text = Some O ->
  isObject O = true ->
  (jslength text <= 64000)%Z ->
  scan (pathParts pathname) = respond (Success O)
  /\ fetch (lit "GET") pathname = respond (Success O)
  /\ status (fetch (lit "GET") pathname) = 200%Z.
Proof.
  intros Hstart Hn Hdec Hne Hparse Hobj Hlen.
  assert (Hs : scan (pathParts pathname) = respond (Success O))
    by (eapply scan_first_segment_percent_encoded; eassumption).
  assert (Hf : fetch (lit "GET") pathname = respond (Success O)).
  { unfold fetch.
    destruct (includes [lit "/"; lit "/index.html"] pathname) eqn:Hinc.
    - apply pathParts_root_no_trigger in Hinc. rewrite Hinc in Hstart. lia.
    - exact Hs. }
  split; [assumption |]. split; [assumption |]. now rewrite Hf.
Qed.

(* ================================================================== *)
(** * The example of the README *)
(* ================================================================== *)

(** C8.  On the path
    [/7b22636c69656e745f6e616d65223a2274657374696e67227d/client.json]
    the scan starts at the first segment; on that candidate the first
    five attempts fail and the hex attempt decodes the text
    [{"client_name":"testing"}]; no second candidate is examined, and
    the answer is 200 with exactly that object. *)
Theorem example_path_hex_decoded :
  pathParts examplePath = [exampleCandidate; lit "client.json"]
  /\ findStart (pathParts examplePath) = 0%Z
  /\ @attemptResults engine exampleCandidate
     = [Fail; Fail; Fail; Fail; Fail; Ok exampleObject exampleText]
  /\ runAttempts (@attempts engine exampleCandidate) 0
     = (Ok exampleObject exampleText, 6%nat)
  /\ @hexToUtf8 engine (stripNonHex exampleCandidate) = Some exampleText
  /\ @scanTraced engine (pathParts examplePath)
     = ([exampleCandidate], respond (Success exampleObject))
  /\ @fetch engine (lit "GET") examplePath = respond (Success exampleObject)
  /\ status (@fetch engine (lit "GET") examplePath) = 200%Z
  /\ body (@fetch engine (lit "GET") examplePath) = BodyJson exampleObject.
Proof. repeat split; vm_compute; reflexivity. Qed.


(* ================================================================== *)
(** * Documents of a chosen size *)
(* ================================================================== *)

(** A pathname made of one segment. *)
Lemma split_noSlash (s : jsstring) :
  noSlash s = true -> split (ch "/") s = [s].
Proof.
  induction s as [|c s IH]; intros H; [reflexivity |].
  unfold noSlash in H; cbn [forallb] in H; fold (noSlash s) in H.
  apply andb_true_iff in H. destruct H as [Hc Hs].
  cbn [split]. apply negb_true_iff in Hc. rewrite Hc.
  now rewrite (IH Hs).
Qed.

Lemma dropTrailing_noSlash (s : jsstring) :
  noSlash s = true -> dropTrailing (ch "/") s = s.
Proof.
  induction s as [|c s IH]; intros H; [reflexivity |].
  unfold noSlash in H; cbn [forallb] in H; fold (noSlash s) in H.
  apply andb_true_iff in H. destruct H as [Hc Hs].
  cbn [dropTrailing]. rewrite (IH Hs). apply negb_true_iff in Hc.
  destruct s; [now rewrite Hc | reflexivity].
Qed.

Lemma pathParts_single (s : jsstring) :
  s <> [] -> noSlash s = true -> pathParts (ch "/" :: s) = [s].
Proof.
  intros Hne Hs. unfold pathParts.
  assert (Hd : dropLeading (ch "/") (ch "/" :: s) = s).
  { cbn [dropLeading]. rewrite N.eqb_refl.
    destruct s as [|c s]; [congruence |].
    unfold noSlash in Hs; cbn [forallb] in Hs.
    apply andb_true_iff in Hs. destruct Hs as [Hc _].
    apply negb_true_iff in Hc. cbn [dropLeading]. now rewrite Hc. }
  rewrite Hd, (dropTrailing_noSlash _ Hs), (split_noSlash _ Hs).
  destruct s; [congruence | reflexivity].
Qed.

Lemma paddedPath_segment (n : N) :
  paddedPath n
  = ch "/" :: (lit "%7B" ++ List.concat (repeat (lit "%20") (N.to_nat n))
                        ++ lit "%7D").
Proof. reflexivity. Qed.

Lemma noSlash_spaces (n : nat) :
  noSlash (List.concat (repeat (lit "%20") n)) = true.
Proof. induction n as [|n IH]; [reflexivity | exact IH]. Qed.

Lemma pathParts_paddedPath (n : N) :
  pathParts (paddedPath n) = [tl (paddedPath n)].
Proof.
  rewrite paddedPath_segment. cbn [tl]. apply pathParts_single.
  - discriminate.
  - unfold noSlash. rewrite !forallb_app. fold (noSlash (List.concat (repeat (lit "%20") (N.to_nat n)))).
    now rewrite noSlash_spaces.
Qed.

Lemma decode_spaces (n : nat) (rest r : jsstring) :
  URI.decodeFrom None rest = Some r ->
  URI.decodeFrom None (List.concat (repeat (lit "%20") n) ++ rest)
  = Some (repeat 32%N n ++ r).
Proof.
  intros H. induction n as [|n IH]; [exact H |].
  change (URI.decodeFrom None
            (List.concat (repeat (lit "%20") (S n)) ++ rest))
    with (consTo 32%N
            (URI.decodeFrom None
               (List.concat (repeat (lit "%20") n) ++ rest))).
  now rewrite IH.
Qed.

Lemma decode_paddedPath (n : N) :
  URI.decodeURIComponent (tl (paddedPath n)) = Some (paddedText n).
Proof.
  unfold URI.decodeURIComponent. rewrite paddedPath_segment. cbn [tl].
  change (URI.decodeFrom None
            (lit "%7B" ++ List.concat (repeat (lit "%20") (N.to_nat n))
                       ++ lit "%7D"))
    with (consTo 123%N
            (URI.decodeFrom None
               (List.concat (repeat (lit "%20") (N.to_nat n)) ++ lit "%7D"))).
  rewrite (@decode_spaces (N.to_nat n) (lit "%7D") (lit "}")) by reflexivity.
  reflexivity.
Qed.

Lemma skipWs_spaces (n : nat) (c : N) (rest : jsstring) :
  JSON.isWhitespace c = false ->
  JSON.skipWs (repeat 32%N n ++ c :: rest) = c :: rest.
Proof.
  intros Hc. induction n as [|n IH]; simpl.
  - now rewrite Hc.
  - exact IH.
Qed.

Lemma value_open_brace (fuel : nat) (body : jsstring) :
  JSON.value (S fuel) (123%N :: body)
  = match JSON.skipWs body with
    | c' :: r' =>
        if (c' =? 125)%N then Some (JObject [], r')
        else JSON.members fuel [] (c' :: r')
    | [] => None
    end.
Proof. reflexivity. Qed.

Lemma parse_paddedText (n : N) :
  JSON.parse (paddedText n) = Some (JObject []).
Proof.
  unfold JSON.parse.
  destruct (2 * List.length (paddedText n) + 2)%nat as [|fuel] eqn:E; [lia |].
  unfold paddedText.
  change (lit "{" ++ repeat 32%N (N.to_nat n) ++ lit "}")
    with (123%N :: repeat 32%N (N.to_nat n) ++ 125%N :: []).
  rewrite value_open_brace, skipWs_spaces by reflexivity.
  reflexivity.
Qed.

Lemma paddedText_length (n : N) : jslength (paddedText n) = (Z.of_N n + 2)%Z.
Proof.
  unfold jslength, paddedText. rewrite !length_app, repeat_length.
  change (List.length (lit "{")) with 1%nat.
  change (List.length (lit "}")) with 1%nat. lia.
Qed.

Lemma isStart_padded (n : N) : isStart (tl (paddedPath n)) = true.
Proof. reflexivity. Qed.

Lemma tryParseJson_padded (n : N) :
  @tryParseJson engine (tl (paddedPath n)) = Ok (JObject []) (paddedText n).
Proof.
  apply (@tryParseJson_percent_decoded engine).
  - apply decode_paddedPath.
  - discriminate.
  - apply parse_paddedText.
  - reflexivity.
Qed.

(** The answer to a request for [paddedPath n], whatever [n]. *)
Lemma fetch_paddedPath (n : N) :
  @fetch engine (lit "GET") (paddedPath n)
  = respond (if (64000 <? Z.of_N n + 2)%Z
             then PayloadTooLarge else Success (JObject [])).
Proof.
  unfold fetch.
  change (jsstring_eqb (lit "GET") (lit "OPTIONS")) with false.
  change (jsstring_eqb (lit "GET") (lit "GET")) with true.
  cbn [negb andb].
  assert (Hinc : includes [lit "/"; lit "/index.html"] (paddedPath n) = false).
  { destruct (includes [lit "/"; lit "/index.html"] (paddedPath n)) eqn:Hinc;
      [| reflexivity].
    apply includes_In in Hinc.
    destruct Hinc as [H | [H | []]]; discriminate H. }
  rewrite Hinc, pathParts_paddedPath.
  unfold scan, scanTraced, findStart. cbn [findStartFrom].
  rewrite isStart_padded. cbn [Z.eqb Z.to_nat skipn accumulate].
  change (grow [] (tl (paddedPath n))) with (tl (paddedPath n)).
  rewrite tryParseJson_padded, Z.gtb_ltb, paddedText_length.
  now destruct (64000 <? Z.of_N n + 2)%Z.
Qed.

(* ================================================================== *)
(** * The theorems at work on sample requests *)
(* ================================================================== *)

(** On [ambiguousCandidate] the percent-decode attempt and the base64
    attempt both succeed, with different documents; the first wins. *)
Lemma tryParseJson_priority_witness :
  ok (@attemptUrlDecoded engine ambiguousCandidate tt) = true
  /\ ok (@attemptB64Std engine ambiguousCandidate tt) = true
  /\ @attemptB64Std engine ambiguousCandidate tt
     <> @attemptUrlDecoded engine ambiguousCandidate tt
  /\ @tryParseJson engine ambiguousCandidate
     = @attemptUrlDecoded engine ambiguousCandidate tt.
Proof.
  split; [reflexivity |]. split; [reflexivity |]. split.
  - intros H. vm_compute in H. discriminate H.
  - apply (proj2 (proj2 (proj2
             (@tryParseJson_priority engine ambiguousCandidate)))).
    reflexivity.
Defined.

(** [/v1/eyZZZ/x]: the scan starts at index 1. *)
Lemma scan_NoCandidateFound_iff_witness :
  exists i, findStart (pathParts (lit "/v1/eyZZZ/x")) = Z.of_nat i
            /\ firstTriggeredAt (pathParts (lit "/v1/eyZZZ/x")) i.
Proof.
  apply (proj1 (proj2 (proj2
           (@scan_NoCandidateFound_iff engine
              (pathParts (lit "/v1/eyZZZ/x")))))).
  exists (lit "eyZZZ"). split.
  - vm_compute. auto.
  - apply isStart_triggered. reflexivity.
Defined.

(** A decoded text of exactly 64,000 characters is accepted. *)
Lemma scan_stops_at_first_success_witness :
  jslength (paddedText 63998) = 64000%Z
  /\ @scan engine (pathParts (paddedPath 63998))
     = respond (Success (JObject [])).
Proof.
  split; [now rewrite paddedText_length |].
  refine (proj1 (proj2 (proj2 (proj2
            (@scan_stops_at_first_success engine
               (pathParts (paddedPath 63998)) 0 0
               (tl (paddedPath 63998)) (JObject []) (paddedText 63998)
               _ _ _ _)))) _).
  - rewrite pathParts_paddedPath. unfold findStart. cbn [findStartFrom].
    now rewrite isStart_padded.
  - rewrite pathParts_paddedPath. reflexivity.
  - intros j c Hj. lia.
  - apply tryParseJson_padded.
  - now rewrite paddedText_length.
Defined.

(** The same request through [fetch]: 200 with the empty object. *)
Example fetch_accepts_64000_characters :
  URI.decodeURIComponent (tl (paddedPath 63998)) = Some (paddedText 63998)
  /\ jslength (paddedText 63998) = 64000%Z
  /\ @fetch engine (lit "GET") (paddedPath 63998)
     = respond (Success (JObject []))
  /\ status (@fetch engine (lit "GET") (paddedPath 63998)) = 200%Z.
Proof.
  split; [apply decode_paddedPath |].
  split; [now rewrite paddedText_length |].
  assert (E : @fetch engine (lit "GET") (paddedPath 63998)
              = respond (Success (JObject [])))
    by now rewrite fetch_paddedPath.
  split; [assumption | now rewrite E].
Qed.

(** One character more and the request is refused. *)
Example fetch_rejects_64001_characters :
  URI.decodeURIComponent (tl (paddedPath 63999)) = Some (paddedText 63999)
  /\ jslength (paddedText 63999) = 64001%Z
  /\ @fetch engine (lit "GET") (paddedPath 63999) = respond PayloadTooLarge
  /\ status (@fetch engine (lit "GET") (paddedPath 63999)) = 413%Z.
Proof.
  split; [apply decode_paddedPath |].
  split; [now rewrite paddedText_length |].
  assert (E : @fetch engine (lit "GET") (paddedPath 63999)
              = respond PayloadTooLarge)
    by now rewrite fetch_paddedPath.
  split; [assumption | now rewrite E].
Qed.

(** [/v1/eyZZZ/b/c]: nothing decodes, and the three candidates are
    examined in order. *)
Lemma candidates_grow_witness :
  candidates (pathParts (lit "/v1/eyZZZ/b/c")) 1
  = [ lit "eyZZZ"; lit "eyZZZ/b"; lit "eyZZZ/b/c" ]
  /\ fst (@scanTraced engine (pathParts (lit "/v1/eyZZZ/b/c")))
     = candidates (pathParts (lit "/v1/eyZZZ/b/c")) 1.
Proof.
  split; [reflexivity |].
  refine (proj1 (proj2 (proj2 (proj2
            (@candidates_grow engine (pathParts (lit "/v1/eyZZZ/b/c")) 1 _))))
            _).
  - reflexivity.
  - intros c Hin. vm_compute in Hin.
    destruct Hin as [<- | [<- | [<- | []]]]; vm_compute; reflexivity.
Defined.

(** [/index.html/] is not the landing page. *)
Lemma landing_page_exact_paths_witness :
  @fetch engine (lit "GET") (lit "/index.html/") = respond NoCandidateFound
  /\ @fetch engine (lit "GET") (lit "/index.html/") <> landingPage.
Proof.
  apply (proj1 (proj2 landing_page_exact_paths) engine
           (lit "GET") (lit "/index.html/")).
  - left. reflexivity.
  - intros H. vm_compute in H. discriminate H.
  - intros H. vm_compute in H. discriminate H.
  - intros segment Hin. vm_compute in Hin. destruct Hin as [<- | []].
    apply isStart_false. reflexivity.
Defined.

(** The text [[]] is accepted. *)
Lemma parseJson_accepts_only_containers_witness :
  @parseJson engine (lit "[]") (lit "[]") = Ok (JArray []) (lit "[]").
Proof.
  apply (proj1 (proj2 (proj1 parseJson_accepts_only_containers
                         engine (lit "[]") (lit "[]")))).
  - reflexivity.
  - right. reflexivity.
Defined.

(** [/v1/%7B%22a%22%3A1%7D/extra]: the second segment is the first
    triggered one and encodes the object with [a] set to 1. *)
Lemma first_triggered_segment_percent_encoded_witness :
  @fetch engine (lit "GET") (lit "/v1/%7B%22a%22%3A1%7D/extra")
  = respond
      (Success
         (JObject [ (lit "a",
                     JNumber {| neg := false; mant := 1; exp10 := 0 |}) ])).
Proof.
  refine (proj1 (proj2
            (@first_triggered_segment_percent_encoded engine
               (lit "/v1/%7B%22a%22%3A1%7D/extra")
               (lit "%7B%22a%22%3A1%7D")
               (lit "{" ++ quoted (lit "a") ++ lit ":1}")
               (JObject [ (lit "a",
                           JNumber {| neg := false; mant := 1; exp10 := 0 |}) ])
               1 _ _ _ _ _ _ _))).
  - reflexivity.
  - reflexivity.
  - reflexivity.
  - discriminate.
  - reflexivity.
  - reflexivity.
  - vm_compute. discriminate.
Defined.

(** The cleaned form of [e-y/+=*] keeps [/], [+] and [=]. *)
Lemma stripNonB64Std_alphabet_or_padding_witness :
  In (ch "=") (stripNonB64Std (lit "e-y/+=*"))
  /\ ~ In (ch "-") (stripNonB64Std (lit "e-y/+=*")).
Proof.
  split.
  - apply (proj1 (proj2 (stripNonB64Std_alphabet_or_padding engine
                           (lit "e-y/+=*")))).
    split; [vm_compute; tauto | right; reflexivity].
  - intros Hin.
    apply (proj1 (proj2 (stripNonB64Std_alphabet_or_padding engine
                           (lit "e-y/+=*")))) in Hin.
    destruct Hin as [_ [H | H]]; discriminate H.
Defined.

(* ================================================================== *)
(** * The scenarios of the specification *)
(* ================================================================== *)

(** [/%7B%22a%22%3A1%7D] percent-decodes to an object. *)
Example scenario_percent_encoded :
  @fetch engine (lit "GET") (lit "/%7B%22a%22%3A1%7D")
  = respond
      (Success
         (JObject [ (lit "a",
                     JNumber {| neg := false; mant := 1; exp10 := 0 |}) ])).
Proof. vm_compute. reflexivity. Qed.

(** [/not-json-at-all] has no triggered segment. *)
Example scenario_no_trigger :
  @fetch engine (lit "GET") (lit "/not-json-at-all")
  = respond NoCandidateFound.
Proof. vm_compute. reflexivity. Qed.

(** [/eyJhIjoxfQ] is unpadded base64url. *)
Example scenario_base64url :
  @attemptResults engine (lit "eyJhIjoxfQ")
  = [ Fail; Fail;
      Ok (JObject [ (lit "a",
                     JNumber {| neg := false; mant := 1; exp10 := 0 |}) ])
         (lit "{" ++ quoted (lit "a") ++ lit ":1}");
      Ok (JObject [ (lit "a",
                     JNumber {| neg := false; mant := 1; exp10 := 0 |}) ])
         (lit "{" ++ quoted (lit "a") ++ lit ":1}");
      Fail; Fail ]
  /\ @fetch engine (lit "GET") (lit "/eyJhIjoxfQ")
     = respond
         (Success
            (JObject [ (lit "a",
                        JNumber {| neg := false; mant := 1; exp10 := 0 |}) ])).
Proof. split; vm_compute; reflexivity. Qed.

(** [/eyZZZ]: no attempt succeeds on the only candidate. *)
Example scenario_exhausted :
  @fetch engine (lit "GET") (lit "/eyZZZ") = respond Exhausted.
Proof. vm_compute. reflexivity. Qed.

(** A candidate that is the text of a string is refused by every
    attempt. *)
Example scenario_string_primitive :
  @attemptResults engine (quoted (lit "hello"))
  = [Fail; Fail; Fail; Fail; Fail; Fail].
Proof. vm_compute. reflexivity. Qed.

(** [/PMRGCIR2GF6Q====] is base32. *)
Example scenario_base32 :
  @attemptResults engine (lit "PMRGCIR2GF6Q====")
  = [ Fail; Fail; Fail; Fail;
      Ok (JObject [ (lit "a",
                     JNumber {| neg := false; mant := 1; exp10 := 0 |}) ])
         (lit "{" ++ quoted (lit "a") ++ lit ":1}");
      Fail ].
Proof. vm_compute. reflexivity. Qed.

(** A document with a [/] inside spans two segments: the first
    candidate fails, the second is the whole document. *)
Example scenario_two_segments :
  @scanTraced engine (pathParts (lit "/v1/%7B%22u%22%3A%22a/b%22%7D"))
  = ( [ lit "%7B%22u%22%3A%22a"; lit "%7B%22u%22%3A%22a/b%22%7D" ],
      respond (Success (JObject [ (lit "u", JString (lit "a/b")) ])) ).
Proof. vm_compute. reflexivity. Qed.

(* ================================================================== *)
(** * The answers of the handler *)
(* ================================================================== *)

Section Handler.

Context {P : Platform}.

Lemma parseJson_Ok (text rawText : jsstring) (v : JsonValue) (r : jsstring) :
  parseJson text rawText = Ok v r ->
  r = rawText /\ JSON_parse text = Some v
  /\ (isObject v = true \/ isArray v = true).
Proof.
  unfold parseJson. destruct (JSON_parse text) as [val|]; [| discriminate].
  destruct val; cbn [truthy typeof String.eqb]; rewrite ?andb_false_r;
    cbn [andb fail]; try discriminate;
    intros E; injection E as <- <-; repeat split; auto.
Qed.

Lemma parseDecoded_Ok (text : option jsstring) (v : JsonValue) (r : jsstring) :
  parseDecoded text = Ok v r ->
  text = Some r /\ r <> [] /\ JSON_parse r = Some v
  /\ (isObject v = true \/ isArray v = true).
Proof.
  unfold parseDecoded. destruct text as [t|]; [| discriminate].
  destruct (truthyString t) eqn:Ht; [| discriminate].
  intros E. apply parseJson_Ok in E. destruct E as [-> [Hp Hc]].
  repeat split; try assumption. now apply truthyString_true.
Qed.

Lemma attemptResults_sound (input : jsstring) (r : Attempt) :
  In r (attemptResults input) ->
  forall v raw, r = Ok v raw ->
    JSON_parse raw = Some v /\ (isObject v = true \/ isArray v = true).
Proof.
  unfold attemptResults, attempts. cbn [map In].
  intros [<- | [<- | [<- | [<- | [<- | [<- | []]]]]]] v raw E.
  - unfold attemptUrlDecoded in E. apply parseDecoded_Ok in E. tauto.
  - unfold attemptRaw in E. apply parseJson_Ok in E.
    destruct E as [-> [Hp Hc]]. now split.
  - unfold attemptB64Url in E.
    destruct (looksLikeB64Prefix (stripNonB64Url input)); cbn [negb] in E;
      [| discriminate]. apply parseDecoded_Ok in E. tauto.
  - unfold attemptB64Std in E.
    destruct (looksLikeB64Prefix (stripNonB64Std input)); cbn [negb] in E;
      [| discriminate]. apply parseDecoded_Ok in E. tauto.
  - unfold attemptBase32 in E.
    destruct (looksLikeBase32Prefix (stripNonBase32 input)); cbn [negb] in E;
      [| discriminate]. apply parseDecoded_Ok in E. tauto.
  - unfold attemptHex in E.
    destruct (looksLikeHexPrefix (stripNonHex input)); cbn [negb] in E;
      [| discriminate]. apply parseDecoded_Ok in E. tauto.
Qed.

Lemma tryParseJson_Ok (input : jsstring) (v : JsonValue)
    (rawText : jsstring) :
  tryParseJson input = Ok v rawText ->
  JSON_parse rawText = Some v
  /\ (isObject v = true \/ isArray v = true)
  /\ exists k, nth_error (attemptResults input) k = Some (Ok v rawText).
Proof.
  intros E. rewrite tryParseJson_firstSuccess in E.
  destruct (firstSuccess (attemptResults input)) as [[k r]|] eqn:Hf;
    [| discriminate E].
  subst r. apply firstSuccess_Some in Hf. destruct Hf as [Hn _].
  assert (Hs : JSON_parse rawText = Some v
               /\ (isObject v = true \/ isArray v = true)).
  { eapply attemptResults_sound;
      [eapply nth_error_In; eassumption | reflexivity]. }
  destruct Hs as [Hp Hc].
  repeat split; try assumption. now exists k.
Qed.

Lemma examine_cases (cands : list jsstring) :
  (examine cands = (cands, Exhausted)
   /\ forall c, In c cands -> tryParseJson c = Fail)
  \/ (exists k c v raw,
        nth_error cands k = Some c
        /\ (forall j c', (j < k)%nat -> nth_error cands j = Some c' ->
                         tryParseJson c' = Fail)
        /\ tryParseJson c = Ok v raw
        /\ examine cands
           = (firstn (S k) cands,
              if (64000 <? jslength raw)%Z
              then PayloadTooLarge else Success v)).
Proof.
  induction cands as [|a cands IH].
  - left. split; [reflexivity | intros c []].
  - destruct (tryParseJson a) as [|v raw] eqn:Ha.
    + destruct IH as [[E Hall] | [k [c [v [raw [Hn [Hlt [Hok E]]]]]]]].
      * left. split.
        -- cbn [examine]. now rewrite Ha, E.
        -- intros c [<- | Hin]; [assumption | now apply Hall].
      * right. exists (S k), c, v, raw. repeat split; try assumption.
        -- intros [|j] c' Hj Hnth; simpl in Hnth.
           ++ now injection Hnth as <-.
           ++ apply (Hlt j); [lia | assumption].
        -- cbn [examine]. now rewrite Ha, E.
    + right. exists 0%nat, a, v, raw. repeat split; try assumption.
      * intros j c' Hj. lia.
      * cbn [examine]. now rewrite Ha.
Qed.

(** The four ways a scan can end, with what each says of the path. *)
Lemma scan_cases (parts : list jsstring) :
  (scanTraced parts = ([], respond NoCandidateFound)
   /\ forall segment, In segment parts -> ~ triggered segment)
  \/ (exists i,
        firstTriggeredAt parts i
        /\ ((scanTraced parts = (candidates parts i, respond Exhausted)
             /\ forall c, In c (candidates parts i) -> tryParseJson c = Fail)
            \/ (exists k c v raw,
                  nth_error (candidates parts i) k = Some c
                  /\ (forall j c', (j < k)%nat ->
                        nth_error (candidates parts i) j = Some c' ->
                        tryParseJson c' = Fail)
                  /\ tryParseJson c = Ok v raw
                  /\ scanTraced parts
                     = (firstn (S k) (candidates parts i),
                        respond (if (64000 <? jslength raw)%Z
                                 then PayloadTooLarge else Success v))))).
Proof.
  destruct (scanTraced_spec parts) as [[_ [Hall Hs]] | [i [_ [Hi Hs]]]].
  - left. now split.
  - right. exists i. split; [assumption |]. rewrite Hs.
    destruct (examine_cases (candidates parts i))
      as [[E Hfail] | [k [c [v [raw [Hn [Hlt [Hok E]]]]]]]]; rewrite E.
    + left. now split.
    + right. exists k, c, v, raw. now repeat split.
Qed.

Lemma findStartFrom_untriggered_app (pre rest : list jsstring) (i : Z) :
  (forall segment, In segment pre -> ~ triggered segment) ->
  findStartFrom i (pre ++ rest)
  = findStartFrom (i + Z.of_nat (List.length pre))%Z rest.
Proof.
  revert i. induction pre as [|p pre IH]; intros i Hall.
  - simpl. now rewrite Z.add_0_r.
  - cbn [app findStartFrom List.length].
    assert (Hp : isStart p = false)
      by (apply isStart_false, Hall; now left).
    rewrite Hp, IH by (intros s Hin; apply Hall; now right).
    f_equal. lia.
Qed.

Lemma findStartFrom_found_or_not (rest : list jsstring) (i : Z) :
  (findStartFrom i rest = (-1)%Z
   /\ forall d, findStartFrom (i + d)%Z rest = (-1)%Z)
  \/ (exists k, (k < List.length rest)%nat
        /\ forall d, findStartFrom (i + d)%Z rest = (i + d + Z.of_nat k)%Z).
Proof.
  revert i. induction rest as [|p rest IH]; intros i.
  - left. now split.
  - cbn [findStartFrom]. destruct (isStart p).
    + right. exists 0%nat. split; [simpl; lia |]. intros d. lia.
    + destruct (IH (i + 1)%Z) as [[E Hd] | [k [Hk Hd]]].
      * left. split; [assumption |]. intros d.
        replace (i + d + 1)%Z with (i + 1 + d)%Z by lia. apply Hd.
      * right. exists (S k). split; [simpl; lia |]. intros d.
        replace (i + d + 1)%Z with (i + 1 + d)%Z by lia. rewrite Hd. lia.
Qed.

Lemma skipn_app_left {A} (n : nat) (l1 l2 : list A) :
  skipn (List.length l1 + n) (l1 ++ l2) = skipn n l2.
Proof. induction l1 as [|a l1 IH]; [reflexivity | exact IH]. Qed.

Lemma findStartFrom_app_found (rest more : list jsstring) (i : Z) :
  findStartFrom i rest <> (-1)%Z ->
  findStartFrom i (rest ++ more) = findStartFrom i rest.
Proof.
  revert i. induction rest as [|p rest IH]; intros i H.
  - now contradiction H.
  - cbn [app findStartFrom] in *. destruct (isStart p); [reflexivity |].
    now apply IH.
Qed.

Lemma accumulate_app_answered (accumulated : jsstring)
    (rest more : list jsstring) :
  snd (examine (growAll accumulated rest)) <> Exhausted ->
  accumulate accumulated (rest ++ more) = accumulate accumulated rest.
Proof.
  revert accumulated. induction rest as [|p rest IH]; intros accumulated H.
  - now contradiction H.
  - cbn [app accumulate]. cbn [growAll examine] in H.
    destruct (tryParseJson (grow accumulated p)); [| reflexivity].
    rewrite IH; [reflexivity |].
    now destruct (examine (growAll (grow accumulated p) rest)).
Qed.

(** X1.  Whichever attempt decodes a candidate, the value returned is the
    parse of the raw text returned with it, and it is an object or an
    array, never a string, a number, a boolean or [null]. *)
Theorem tryParseJson_sound (input : jsstring) (v : JsonValue)
    (rawText : jsstring) :
  tryParseJson input = Ok v rawText ->
  JSON_parse rawText = Some v
  /\ (isObject v = true \/ isArray v = true)
  /\ exists k, (k < 6)%nat
               /\ nth_error (attemptResults input) k = Some (Ok v rawText).
Proof.
  intros E. destruct (tryParseJson_Ok _ E) as [Hp [Hc [k Hk]]].
  split; [assumption |]. split; [assumption |]. exists k. split; [| assumption].
  assert (Hl : (k < List.length (attemptResults input))%nat)
    by (apply nth_error_Some; congruence).
  exact Hl.
Qed.

(** X2.  A 200 answer of the scan comes from a candidate of the path,
    the first that decodes, whose decoded text parses to the value
    answered and has at most 64,000 characters; a 413 answer comes from a
    first decoded candidate whose text is longer. *)
Theorem scan_answer_sound (parts : list jsstring) :
  (forall v,
     scan parts = respond (Success v) ->
     exists startIdx k cand rawText,
       firstTriggeredAt parts startIdx
       /\ nth_error (candidates parts startIdx) k = Some cand
       /\ (forall j c, (j < k)%nat ->
             nth_error (candidates parts startIdx) j = Some c ->
             tryParseJson c = Fail)
       /\ tryParseJson cand = Ok v rawText
       /\ (jslength rawText <= 64000)%Z
       /\ JSON_parse rawText = Some v
       /\ (isObject v = true \/ isArray v = true))
  /\ (scan parts = respond PayloadTooLarge ->
      exists startIdx k cand v rawText,
        firstTriggeredAt parts startIdx
        /\ nth_error (candidates parts startIdx) k = Some cand
        /\ (forall j c, (j < k)%nat ->
              nth_error (candidates parts startIdx) j = Some c ->
              tryParseJson c = Fail)
        /\ tryParseJson cand = Ok v rawText
        /\ (jslength rawText > 64000)%Z).
Proof.
  unfold scan.
  destruct (scan_cases parts)
    as [[Hs _] | [i [Hi [[Hs _] | [k [c [v0 [raw [Hn [Hlt [Hok Hs]]]]]]]]]]];
    rewrite Hs; cbn [snd].
  - split; [intros v H | intros H]; apply respond_injective in H;
      discriminate H.
  - split; [intros v H | intros H]; apply respond_injective in H;
      discriminate H.
  - destruct (64000 <? jslength raw)%Z eqn:Hb.
    + split; [intros v H; apply respond_injective in H; discriminate H |].
      intros _. exists i, k, c, v0, raw.
      apply Z.ltb_lt in Hb.
      split; [assumption |]. split; [assumption |].
      split; [assumption |]. split; [assumption | lia].
    + split; [| intros H; apply respond_injective in H; discriminate H].
      intros v H. apply respond_injective in H. injection H as <-.
      destruct (tryParseJson_Ok _ Hok) as [Hp [Hc _]].
      exists i, k, c, raw. apply Z.ltb_ge in Hb.
      split; [assumption |]. split; [assumption |].
      split; [assumption |]. split; [assumption |].
      split; [lia |]. split; assumption.
Qed.

(** X3.  The scan answers [Exhausted] exactly when some segment carries a
    trigger prefix and none of the candidates from the first such
    segment decodes. *)
Theorem scan_Exhausted_iff (parts : list jsstring) :
  scan parts = respond Exhausted
  <-> exists startIdx,
        firstTriggeredAt parts startIdx
        /\ (forall c, In c (candidates parts startIdx) ->
                      tryParseJson c = Fail).
Proof.
  unfold scan.
  destruct (scan_cases parts)
    as [[Hs Hall] | [i [Hi [[Hs Hfail] | [k [c [v0 [raw [Hn [Hlt [Hok Hs]]]]]]]]]]];
    rewrite Hs; cbn [snd].
  - split.
    + intros H. apply respond_injective in H. discriminate H.
    + intros [s [[[segment [Hn Ht]] _] _]]. exfalso.
      apply (Hall segment); [| assumption]. now apply nth_error_In with s.
  - split; [| reflexivity]. intros _. now exists i.
  - split.
    + intros H. apply respond_injective in H.
      destruct (64000 <? jslength raw)%Z; discriminate H.
    + intros [s [Hs' Hfail]].
      assert (s = i) by (eapply firstTriggeredAt_unique; eassumption).
      subst s. rewrite (Hfail c (nth_error_In _ _ Hn)) in Hok.
      discriminate Hok.
Qed.

(** X4.  Segments without a trigger prefix in front of the path change
    nothing: the scan examines the same candidates and gives the same
    answer as without them. *)
Theorem scan_skips_untriggered_segments (pre parts : list jsstring) :
  (forall segment, In segment pre -> ~ triggered segment) ->
  scanTraced (pre ++ parts) = scanTraced parts.
Proof.
  intros Hall. unfold scanTraced, findStart.
  rewrite (findStartFrom_untriggered_app pre parts 0 Hall).
  destruct (findStartFrom_found_or_not parts 0) as [[E Hd] | [k [Hk Hd]]].
  - now rewrite (Hd (Z.of_nat (List.length pre))), E.
  - assert (H0 : findStartFrom 0 parts = Z.of_nat k)
      by (change 0%Z with (0 + 0)%Z at 1; rewrite Hd; lia).
    rewrite (Hd (Z.of_nat (List.length pre))), H0.
    assert (E1 : ((0 + Z.of_nat (List.length pre) + Z.of_nat k) =? -1)%Z = false)
      by (apply Z.eqb_neq; lia).
    assert (E2 : (Z.of_nat k =? -1)%Z = false) by (apply Z.eqb_neq; lia).
    rewrite E1, E2.
    replace (Z.to_nat (0 + Z.of_nat (List.length pre) + Z.of_nat k))
      with (List.length pre + k)%nat by lia.
    now rewrite Nat2Z.id, skipn_app_left.
Qed.

(** X5.  Once a path is answered with a document or refused as too
    large, segments added after it change nothing. *)
Theorem scan_ignores_segments_after_answer (parts more : list jsstring) :
  status (scan parts) <> 400%Z ->
  scanTraced (parts ++ more) = scanTraced parts.
Proof.
  intros Hst. unfold scan in Hst.
  destruct (scanTraced_spec parts) as [[_ [_ Hs]] | [i [E [Hi Hs]]]].
  - rewrite Hs in Hst. now contradiction Hst.
  - assert (Hne : snd (examine (candidates parts i)) <> Exhausted).
    { intros Hex. rewrite Hs, Hex in Hst. now contradiction Hst. }
    unfold scanTraced, findStart in *.
    rewrite findStartFrom_app_found by (rewrite E; lia).
    rewrite E.
    assert (E1 : (Z.of_nat i =? -1)%Z = false) by (apply Z.eqb_neq; lia).
    rewrite E1, Nat2Z.id.
    destruct (firstTriggeredAt_segment Hi) as [segment [Hn Hseg]].
    assert (Hlt : (i < List.length parts)%nat)
      by (apply nth_error_Some; congruence).
    rewrite skipn_app.
    replace (i - List.length parts)%nat with 0%nat by lia.
    cbn [skipn]. apply accumulate_app_answered.
    now rewrite (growAll_candidates parts i Hn Hseg).
Qed.

(** X6.  The method is looked at before the path: OPTIONS gets the
    empty CORS answer and any method other than OPTIONS, GET and HEAD
    gets 405, on every path, the landing page's included; HEAD is
    answered as GET is. *)
Theorem fetch_method_gate :
  (forall pathname,
     fetch (lit "OPTIONS") pathname
     = {| status := 200; headers := corsHeaders; body := BodyNull |})
  /\ (forall method pathname,
        method <> lit "OPTIONS" -> method <> lit "GET" ->
        method <> lit "HEAD" ->
        fetch method pathname = json (errorBody "Method not allowed") 405)
  /\ (forall pathname,
        fetch (lit "HEAD") pathname = fetch (lit "GET") pathname).
Proof.
  split; [reflexivity |]. split; [| reflexivity].
  intros method pathname H1 H2 H3. unfold fetch.
  assert (E1 : jsstring_eqb method (lit "OPTIONS") = false).
  { destruct (jsstring_eqb method (lit "OPTIONS")) eqn:E; [| reflexivity].
    apply jsstring_eqb_eq in E. contradiction. }
  assert (E2 : jsstring_eqb method (lit "GET") = false).
  { destruct (jsstring_eqb method (lit "GET")) eqn:E; [| reflexivity].
    apply jsstring_eqb_eq in E. contradiction. }
  assert (E3 : jsstring_eqb method (lit "HEAD") = false).
  { destruct (jsstring_eqb method (lit "HEAD")) eqn:E; [| reflexivity].
    apply jsstring_eqb_eq in E. contradiction. }
  now rewrite E1, E2, E3.
Qed.

Lemma json_shape (b : JsonValue) (st : Z) :
  status (json b st) = st
  /\ incl corsHeaders (headers (json b st))
  /\ (isObject b = true \/ isArray b = true -> body (json b st) = BodyJson b).
Proof.
  split; [reflexivity |]. split.
  - unfold json. cbn [headers]. apply incl_appr, incl_refl.
  - intros [H | H]; destruct b; try discriminate H; reflexivity.
Qed.

(** X7.  Every answer has status 200, 400, 405 or 413.  Every answer but
    the landing page carries the three CORS headers.  A JSON body is
    always the serialisation of an object or an array: [json] is never
    handed a string to pass through. *)
Theorem fetch_response_shape (method pathname : jsstring) :
  In (status (fetch method pathname)) [200; 400; 405; 413]%Z
  /\ (fetch method pathname = landingPage
      \/ incl corsHeaders (headers (fetch method pathname)))
  /\ (forall s, body (fetch method pathname) <> BodyString s)
  /\ (forall v, body (fetch method pathname) = BodyJson v ->
                isObject v = true \/ isArray v = true).
Proof.
  assert (Hjson : forall (b : JsonValue) (st : Z),
             In st [200; 400; 405; 413]%Z ->
             isObject b = true \/ isArray b = true ->
             In (status (json b st)) [200; 400; 405; 413]%Z
             /\ (json b st = landingPage
                 \/ incl corsHeaders (headers (json b st)))
             /\ (forall s, body (json b st) <> BodyString s)
             /\ (forall v, body (json b st) = BodyJson v ->
                           isObject v = true \/ isArray v = true)).
  { intros b st Hst Hb. destruct (json_shape b st) as [Es [Hc Hbody]].
    rewrite Es, (Hbody Hb). split; [assumption |]. split; [now right |].
    split; [discriminate |]. intros v E. now injection E as <-. }
  unfold fetch.
  destruct (jsstring_eqb method (lit "OPTIONS")).
  { cbn [status headers body]. split; [simpl; auto |].
    split; [right; apply incl_refl |]. split; discriminate. }
  destruct (negb (jsstring_eqb method (lit "GET"))
            && negb (jsstring_eqb method (lit "HEAD"))).
  { apply Hjson; [simpl; auto | left; reflexivity]. }
  destruct (includes [lit "/"; lit "/index.html"] pathname).
  { cbn [landingPage status headers body]. split; [simpl; auto |].
    split; [now left |]. split; discriminate. }
  unfold scan.
  destruct (scan_cases (pathParts pathname))
    as [[Hs _] | [i [Hi [[Hs _] | [k [c [v0 [raw [Hn [Hlt [Hok Hs]]]]]]]]]]];
    rewrite Hs; cbn [snd].
  - apply Hjson; [simpl; auto | left; reflexivity].
  - apply Hjson; [simpl; auto | left; reflexivity].
  - destruct (64000 <? jslength raw)%Z.
    + apply Hjson; [simpl; auto | left; reflexivity].
    + destruct (tryParseJson_Ok _ Hok) as [_ [Hc _]].
      apply Hjson; [simpl; auto | assumption].
Qed.

End Handler.

(* ================================================================== *)
(** * The segments of a path *)
(* ================================================================== *)

Lemma split_not_nil (c : N) (s : jsstring) : split c s <> [].
Proof.
  destruct s as [|x s]; simpl; [discriminate |].
  destruct (x =? c)%N; [discriminate |]. now destruct (split c s).
Qed.

Lemma split_app_sep (c : N) (u v : jsstring) :
  split c (u ++ c :: v) = split c u ++ split c v.
Proof.
  induction u as [|x u IH]; cbn [app split].
  - now rewrite N.eqb_refl.
  - destruct (x =? c)%N; [now rewrite IH |].
    rewrite IH. pose proof (split_not_nil c u) as Hne.
    now destruct (split c u).
Qed.

Lemma split_segments_noSlash (s : jsstring) :
  Forall (fun segment => noSlash segment = true) (split (ch "/") s).
Proof.
  induction s as [|x s IH]; cbn [split].
  - now repeat constructor.
  - destruct (x =? ch "/")%N eqn:Hx.
    + now constructor.
    + pose proof (split_not_nil (ch "/") s) as Hne.
      destruct (split (ch "/") s) as [|h t]; [congruence |].
      inversion IH as [|? ? Hh Ht]; subst. constructor; [| assumption].
      unfold noSlash in *. cbn [forallb]. now rewrite Hx, Hh.
Qed.

Lemma split_join (l : list jsstring) :
  l <> [] ->
  Forall (fun segment => noSlash segment = true) l ->
  split (ch "/") (join (lit "/") l) = l.
Proof.
  induction l as [|a l IH]; intros Hne Hall; [congruence |].
  inversion Hall as [|? ? Ha Hl]; subst.
  destruct l as [|b l].
  - now apply split_noSlash.
  - change (join (lit "/") (a :: b :: l))
      with (a ++ ch "/" :: join (lit "/") (b :: l)).
    rewrite split_app_sep, (split_noSlash _ Ha), IH; [reflexivity | | assumption].
    discriminate.
Qed.

Lemma split_repeat_sep (c : N) (k : nat) :
  split c (repeat c k) = repeat [] (S k).
Proof.
  induction k as [|k IH]; [reflexivity |].
  cbn [repeat split]. now rewrite N.eqb_refl, IH.
Qed.

Lemma dropLeading_run (c : N) (s : jsstring) :
  exists k, s = repeat c k ++ dropLeading c s.
Proof.
  induction s as [|x s [k IH]]; [now exists 0%nat |].
  cbn [dropLeading]. destruct (x =? c)%N eqn:Hx.
  - apply N.eqb_eq in Hx. subst x. exists (S k). cbn [repeat app]. now f_equal.
  - now exists 0%nat.
Qed.

Lemma dropTrailing_run (c : N) (s : jsstring) :
  exists k, s = dropTrailing c s ++ repeat c k.
Proof.
  induction s as [|x s [k IH]]; [now exists 0%nat |].
  cbn [dropTrailing]. destruct (dropTrailing c s) as [|y r] eqn:Hd.
  - destruct (x =? c)%N eqn:Hx.
    + apply N.eqb_eq in Hx. subst x. exists (S k). cbn [app repeat].
      now f_equal.
    + exists k. cbn [app]. now f_equal.
  - exists k. cbn [app]. now f_equal.
Qed.

Lemma filter_truthy_repeat_nil (k : nat) :
  filter truthyString (repeat [] k) = [].
Proof. induction k; [reflexivity | assumption]. Qed.

(** Slashes in front and behind only add empty pieces, which the
    filter removes anyway. *)
Lemma filter_split_trim (s : jsstring) :
  filter truthyString
    (split (ch "/") (dropTrailing (ch "/") (dropLeading (ch "/") s)))
  = filter truthyString (split (ch "/") s).
Proof.
  remember (dropLeading (ch "/") s) as d eqn:Hd.
  remember (dropTrailing (ch "/") d) as core eqn:Hcore.
  destruct (dropLeading_run (ch "/") s) as [k1 E1]. rewrite <- Hd in E1.
  destruct (dropTrailing_run (ch "/") d) as [k2 E2]. rewrite <- Hcore in E2.
  clear Hd Hcore. subst s d.
  assert (Hl : forall k v,
             filter truthyString (split (ch "/") (repeat (ch "/") k ++ v))
             = filter truthyString (split (ch "/") v)).
  { intros k v. induction k as [|k IH]; [reflexivity |].
    cbn [repeat app split]. now rewrite N.eqb_refl. }
  assert (Hr : forall k u,
             filter truthyString (split (ch "/") (u ++ repeat (ch "/") k))
             = filter truthyString (split (ch "/") u)).
  { intros k u. destruct k as [|k]; [now rewrite app_nil_r |].
    cbn [repeat]. rewrite split_app_sep, split_repeat_sep, filter_app.
    now rewrite filter_truthy_repeat_nil, app_nil_r. }
  now rewrite Hl, Hr.
Qed.

Lemma pathParts_of_joined (l : list jsstring) :
  Forall (fun segment => noSlash segment = true) l ->
  pathParts (join (lit "/") l) = filter truthyString l.
Proof.
  intros Hall. unfold pathParts. rewrite filter_split_trim.
  destruct l as [|a l]; [reflexivity |].
  now rewrite split_join.
Qed.

Lemma pathParts_Forall (pathname : jsstring) :
  Forall (fun segment => segment <> [] /\ noSlash segment = true)
         (pathParts pathname).
Proof.
  unfold pathParts. apply Forall_forall. intros segment Hin.
  apply filter_In in Hin. destruct Hin as [Hin Ht]. split.
  - now apply truthyString_true.
  - pose proof (split_segments_noSlash
                  (dropTrailing (ch "/") (dropLeading (ch "/") pathname)))
      as Hall.
    rewrite Forall_forall in Hall. now apply Hall.
Qed.

(** X8.  The segments of a pathname are never empty and never contain a
    slash; joining them with slashes gives a pathname with the same
    segments. *)
Theorem pathParts_segments (pathname : jsstring) :
  Forall (fun segment => segment <> [] /\ noSlash segment = true)
         (pathParts pathname)
  /\ pathParts (join (lit "/") (pathParts pathname)) = pathParts pathname
  /\ pathParts (ch "/" :: join (lit "/") (pathParts pathname))
     = pathParts pathname.
Proof.
  pose proof (pathParts_Forall pathname) as Hall.
  assert (Hns : Forall (fun segment => noSlash segment = true)
                       (pathParts pathname)).
  { eapply Forall_impl; [| exact Hall]. now intros s [_ H]. }
  assert (Hf : filter truthyString (pathParts pathname) = pathParts pathname).
  { unfold pathParts at 1. rewrite filter_split_trim.
    unfold pathParts. rewrite filter_split_trim.
    induction (split (ch "/") pathname) as [|h t IH]; [reflexivity |].
    cbn [filter]. destruct (truthyString h) eqn:Hh; [| assumption].
    cbn [filter]. now rewrite Hh, IH. }
  split; [assumption |]. split.
  - now rewrite pathParts_of_joined.
  - destruct (pathParts pathname) as [|a l] eqn:Hp; [reflexivity |].
    change (ch "/" :: join (lit "/") (a :: l))
      with (join (lit "/") ([] :: a :: l)).
    rewrite pathParts_of_joined; [exact Hf |].
    constructor; [reflexivity | assumption].
Qed.

(** X9.  The path made of any slash-free pieces joined by slashes has
    the non-empty pieces as segments, in order: empty pieces, that is
    slashes in front, behind or doubled, do not count. *)
Theorem pathParts_join (pieces : list jsstring) :
  Forall (fun piece => noSlash piece = true) pieces ->
  pathParts (join (lit "/") pieces) = filter truthyString pieces.
Proof. apply pathParts_of_joined. Qed.

(* ================================================================== *)
(** * Heuristics, filters and padding *)
(* ================================================================== *)

Lemma lower_is_letter (c t : N) :
  (97 <= t <= 122)%N ->
  (if isUpper c then (c + 32)%N else c) = t <-> c = t \/ c = (t - 32)%N.
Proof.
  intros Ht. unfold isUpper, between.
  destruct (N.leb_spec 65 c); destruct (N.leb_spec c 90); cbn [andb]; lia.
Qed.

Lemma lower_is_other (c t : N) :
  (t < 65)%N ->
  (if isUpper c then (c + 32)%N else c) = t <-> c = t.
Proof.
  intros Ht. unfold isUpper, between.
  destruct (N.leb_spec 65 c); destruct (N.leb_spec c 90); cbn [andb]; lia.
Qed.

Lemma lower_prefix_pair (s : jsstring) (a b : N) :
  toLowerCase (slice0 2 s) = [a; b]
  <-> exists c1 c2 rest,
        s = c1 :: c2 :: rest
        /\ (if isUpper c1 then (c1 + 32)%N else c1) = a
        /\ (if isUpper c2 then (c2 + 32)%N else c2) = b.
Proof.
  unfold toLowerCase, slice0. split.
  - destruct s as [|c1 [|c2 rest]]; cbn [firstn map]; try discriminate.
    intros E. injection E as E1 E2. now exists c1, c2, rest.
  - intros [c1 [c2 [rest [-> [<- <-]]]]]. reflexivity.
Qed.

(** X10.  The three prefix heuristics look at the first two characters
    only, without regard to case: [ey] for base64, [pm], [on] or [em] for
    base32, [7b] for hex.  A string of fewer than two characters never
    passes. *)
Theorem prefix_heuristics_two_characters (s : jsstring) :
  (looksLikeB64Prefix s = true
   <-> exists c1 c2 rest,
         s = c1 :: c2 :: rest
         /\ (c1 = ch "e" \/ c1 = ch "E") /\ (c2 = ch "y" \/ c2 = ch "Y"))
  /\ (looksLikeBase32Prefix s = true
      <-> exists c1 c2 rest,
            s = c1 :: c2 :: rest
            /\ (((c1 = ch "p" \/ c1 = ch "P") /\ (c2 = ch "m" \/ c2 = ch "M"))
                \/ ((c1 = ch "o" \/ c1 = ch "O")
                    /\ (c2 = ch "n" \/ c2 = ch "N"))
                \/ ((c1 = ch "e" \/ c1 = ch "E")
                    /\ (c2 = ch "m" \/ c2 = ch "M"))))
  /\ (looksLikeHexPrefix s = true
      <-> exists c1 c2 rest,
            s = c1 :: c2 :: rest
            /\ c1 = ch "7" /\ (c2 = ch "b" \/ c2 = ch "B"))
  /\ ((List.length s < 2)%nat ->
      looksLikeB64Prefix s = false /\ looksLikeBase32Prefix s = false
      /\ looksLikeHexPrefix s = false).
Proof.
  cut ((looksLikeB64Prefix s = true
        <-> exists c1 c2 rest,
              s = c1 :: c2 :: rest
              /\ (c1 = ch "e" \/ c1 = ch "E") /\ (c2 = ch "y" \/ c2 = ch "Y"))
       /\ (looksLikeBase32Prefix s = true
           <-> exists c1 c2 rest,
                 s = c1 :: c2 :: rest
                 /\ (((c1 = ch "p" \/ c1 = ch "P")
                      /\ (c2 = ch "m" \/ c2 = ch "M"))
                     \/ ((c1 = ch "o" \/ c1 = ch "O")
                         /\ (c2 = ch "n" \/ c2 = ch "N"))
                     \/ ((c1 = ch "e" \/ c1 = ch "E")
                         /\ (c2 = ch "m" \/ c2 = ch "M"))))
       /\ (looksLikeHexPrefix s = true
           <-> exists c1 c2 rest,
                 s = c1 :: c2 :: rest
                 /\ c1 = ch "7" /\ (c2 = ch "b" \/ c2 = ch "B"))).
  { intros [H1 [H2 H3]].
    split; [assumption |]. split; [assumption |]. split; [assumption |].
    intros Hlen.
    split; [| split].
    - destruct (looksLikeB64Prefix s); [| reflexivity].
      destruct (proj1 H1 eq_refl) as [c1 [c2 [rest [-> _]]]].
      simpl in Hlen. lia.
    - destruct (looksLikeBase32Prefix s); [| reflexivity].
      destruct (proj1 H2 eq_refl) as [c1 [c2 [rest [-> _]]]].
      simpl in Hlen. lia.
    - destruct (looksLikeHexPrefix s); [| reflexivity].
      destruct (proj1 H3 eq_refl) as [c1 [c2 [rest [-> _]]]].
      simpl in Hlen. lia. }
  split; [| split].
  - unfold looksLikeB64Prefix. rewrite includes_In. cbn [In].
    change (lit "ey") with [101%N; 121%N]. split.
    + intros [E | []]. symmetry in E. apply lower_prefix_pair in E.
      destruct E as [c1 [c2 [rest [-> [E1 E2]]]]].
      apply -> lower_is_letter in E1; [| lia].
      apply -> lower_is_letter in E2; [| lia].
      exists c1, c2, rest. now repeat split.
    + intros [c1 [c2 [rest [-> [H1 H2]]]]]. left. symmetry.
      apply lower_prefix_pair. exists c1, c2, rest.
      split; [reflexivity |].
      split; apply lower_is_letter; try lia; assumption.
  - unfold looksLikeBase32Prefix. rewrite includes_In. cbn [In].
    change (lit "pm") with [112%N; 109%N].
    change (lit "on") with [111%N; 110%N].
    change (lit "em") with [101%N; 109%N]. split.
    + intros [E | [E | [E | []]]]; symmetry in E;
        apply lower_prefix_pair in E;
        destruct E as [c1 [c2 [rest [-> [E1 E2]]]]];
        (apply -> lower_is_letter in E1; [| lia]);
        (apply -> lower_is_letter in E2; [| lia]);
        exists c1, c2, rest; (split; [reflexivity |]);
        [left | right; left | right; right]; now split.
    + intros [c1 [c2 [rest [-> [[H1 H2] | [[H1 H2] | [H1 H2]]]]]]];
        [left | right; left | right; right; left]; symmetry;
        apply lower_prefix_pair; exists c1, c2, rest;
        (split; [reflexivity |]);
        split; apply lower_is_letter; try lia; assumption.
  - unfold looksLikeHexPrefix. rewrite jsstring_eqb_eq.
    change (lit "7b") with [55%N; 98%N]. split.
    + intros E. apply lower_prefix_pair in E.
      destruct E as [c1 [c2 [rest [-> [E1 E2]]]]].
      apply -> lower_is_other in E1; [| lia].
      apply -> lower_is_letter in E2; [| lia].
      exists c1, c2, rest.
      split; [reflexivity |]. split; [exact E1 | exact E2].
    + intros [c1 [c2 [rest [-> [H1 H2]]]]].
      apply lower_prefix_pair. exists c1, c2, rest.
      split; [reflexivity |]. split.
      * apply lower_is_other; [lia | assumption].
      * apply lower_is_letter; [lia | assumption].
Qed.

Lemma keepClass_junk (cls : N -> bool) (a junk b : jsstring) :
  forallb (fun c => negb (cls c)) junk = true ->
  keepClass cls (a ++ junk ++ b) = keepClass cls (a ++ b).
Proof.
  intros H. unfold keepClass. rewrite !filter_app.
  assert (E : filter cls junk = []).
  { induction junk as [|c junk IH]; [reflexivity |].
    cbn [forallb] in H. apply andb_true_iff in H. destruct H as [Hc Hj].
    apply negb_true_iff in Hc. cbn [filter]. rewrite Hc. now apply IH. }
  now rewrite E.
Qed.

Lemma keepClass_join (cls : N -> bool) (segments : list jsstring) :
  cls (ch "/") = false ->
  keepClass cls (join (lit "/") segments)
  = keepClass cls (List.concat segments).
Proof.
  intros Hs. unfold keepClass.
  induction segments as [|a l IH]; [reflexivity |].
  destruct l as [|b l].
  - cbn [join List.concat]. now rewrite app_nil_r.
  - change (join (lit "/") (a :: b :: l))
      with (a ++ ch "/" :: join (lit "/") (b :: l)).
    change (List.concat (a :: b :: l)) with (a ++ List.concat (b :: l)).
    rewrite !filter_app. cbn [filter]. rewrite Hs.
    now rewrite IH.
Qed.

Section Junk.

Context {P : Platform}.

(** X11.  Characters outside a decoder's alphabet are ignored wherever
    they stand in the candidate: the base64url, base64, base32 and hex
    attempts give the same result with and without them. *)
Theorem attempts_ignore_junk (a junk b : jsstring) :
  (forallb (fun c => negb (isB64UrlChar c)) junk = true ->
   attemptB64Url (a ++ junk ++ b) tt = attemptB64Url (a ++ b) tt)
  /\ (forallb (fun c => negb (isB64StdChar c)) junk = true ->
      attemptB64Std (a ++ junk ++ b) tt = attemptB64Std (a ++ b) tt)
  /\ (forallb (fun c => negb (isBase32Char c)) junk = true ->
      attemptBase32 (a ++ junk ++ b) tt = attemptBase32 (a ++ b) tt)
  /\ (forallb (fun c => negb (isHexChar c)) junk = true ->
      attemptHex (a ++ junk ++ b) tt = attemptHex (a ++ b) tt).
Proof.
  split; [| split; [| split]]; intros H.
  - unfold attemptB64Url, stripNonB64Url. now rewrite keepClass_junk.
  - unfold attemptB64Std, stripNonB64Std. now rewrite keepClass_junk.
  - unfold attemptBase32, stripNonBase32. now rewrite keepClass_junk.
  - unfold attemptHex, stripNonHex. now rewrite keepClass_junk.
Qed.

(** X12.  A base64url, base32 or hex payload cut into several path
    segments is decoded as if it were in one piece: on the candidate
    that joins the segments with slashes these three attempts give what
    they give on the segments put end to end.  (The slash is a base64
    character, so this does not hold of the standard base64 attempt.) *)
Theorem split_payload_reassembled (segments : list jsstring) :
  attemptB64Url (join (lit "/") segments) tt
  = attemptB64Url (List.concat segments) tt
  /\ attemptBase32 (join (lit "/") segments) tt
     = attemptBase32 (List.concat segments) tt
  /\ attemptHex (join (lit "/") segments) tt
     = attemptHex (List.concat segments) tt
  /\ stripNonB64Std (lit "ey/J") <> stripNonB64Std (lit "eyJ").
Proof.
  split; [| split; [| split]].
  - unfold attemptB64Url, stripNonB64Url.
    now rewrite keepClass_join by reflexivity.
  - unfold attemptBase32, stripNonBase32.
    now rewrite keepClass_join by reflexivity.
  - unfold attemptHex, stripNonHex.
    now rewrite keepClass_join by reflexivity.
  - intros H. vm_compute in H. discriminate H.
Qed.

End Junk.

(** X13.  [padBase64] appends between zero and three [=] signs, just
    enough to reach a length that is a multiple of four; it leaves a
    string of such a length alone, and padding twice is padding once. *)
Theorem padBase64_least_multiple (s : jsstring) :
  (exists n, (n < 4)%nat /\ padBase64 s = s ++ repeat (ch "=") n)
  /\ (List.length (padBase64 s) mod 4 = 0)%nat
  /\ (List.length s <= List.length (padBase64 s) < List.length s + 4)%nat
  /\ (padBase64 s = s <-> (List.length s mod 4 = 0)%nat)
  /\ padBase64 (padBase64 s) = padBase64 s.
Proof.
  destruct (padBase64_shape s) as [n [Hn [E Hm]]].
  split; [now exists n |]. split; [assumption |]. split; [| split].
  - rewrite E, length_app, repeat_length. lia.
  - split.
    + intros Es. now rewrite Es in Hm.
    + intros H0. unfold padBase64. apply Nat.eqb_eq in H0. now rewrite H0.
  - unfold padBase64 at 1. apply Nat.eqb_eq in Hm. now rewrite Hm.
Qed.

(* ================================================================== *)
(** * Hexadecimal round trip *)
(* ================================================================== *)

(** A check made on every number below [n] holds of each of them. *)
Lemma forall_below (n : nat) (f : N -> bool) :
  forallb f (map N.of_nat (seq 0 n)) = true ->
  forall b, (b < N.of_nat n)%N -> f b = true.
Proof.
  intros H b Hb. rewrite forallb_forall in H. apply H.
  rewrite <- (N2Nat.id b). apply in_map. apply in_seq. lia.
Qed.

Lemma matchDotsFrom_short (n : nat) (tail cur : jsstring) :
  (List.length cur + List.length tail < n)%nat ->
  matchDotsFrom n cur tail = [].
Proof.
  revert cur. induction tail as [|c tail IH]; intros cur H; [reflexivity |].
  cbn [matchDotsFrom]. cbn [List.length] in H.
  destruct (isLineTerminator c).
  - apply IH. simpl. lia.
  - assert (E : Nat.eqb (List.length (c :: cur)) n = false)
      by (apply Nat.eqb_neq; simpl; lia).
    rewrite E. apply IH. simpl. lia.
Qed.

Lemma matchDotsFrom_chunk (n : nat) (g cur rest : jsstring) :
  (List.length cur + List.length g = n)%nat ->
  g <> [] ->
  noLineTerminator g = true ->
  matchDotsFrom n cur (g ++ rest) = (rev cur ++ g) :: matchDotsFrom n [] rest.
Proof.
  revert cur. induction g as [|c g IH]; intros cur Hlen Hne Hlt; [congruence |].
  unfold noLineTerminator in Hlt. cbn [forallb] in Hlt.
  apply andb_true_iff in Hlt. destruct Hlt as [Hc Hg].
  apply negb_true_iff in Hc.
  cbn [app matchDotsFrom]. rewrite Hc. cbn [List.length] in Hlen.
  destruct g as [|c' g].
  - assert (E : Nat.eqb (List.length (c :: cur)) n = true)
      by (apply Nat.eqb_eq; simpl in *; lia).
    rewrite E. reflexivity.
  - assert (E : Nat.eqb (List.length (c :: cur)) n = false)
      by (apply Nat.eqb_neq; simpl in *; lia).
    rewrite E, IH; [| simpl in *; lia | discriminate | exact Hg].
    cbn [rev]. now rewrite <- app_assoc.
Qed.

(** [match(/.{n}/g)] cuts a string made of pieces of [n] characters
    back into its pieces, and drops a shorter tail. *)
Lemma matchDots_chunks (n : nat) (chunks : list jsstring) (tail : jsstring) :
  Forall (fun g => List.length g = n /\ g <> []
                   /\ noLineTerminator g = true) chunks ->
  (List.length tail < n)%nat ->
  matchDots n (List.concat chunks ++ tail) = chunks.
Proof.
  intros Hall Ht. unfold matchDots.
  induction Hall as [|g chunks [Hl [Hne Hlt]] _ IH].
  - now apply matchDotsFrom_short.
  - cbn [List.concat]. rewrite <- app_assoc.
    rewrite matchDotsFrom_chunk by (simpl; assumption).
    now rewrite IH.
Qed.

Lemma hexPair_checks (upper : bool) (b : N) :
  (b < 256)%N ->
  toUint8 (parseInt (hexPair upper b) 16) = b
  /\ noLineTerminator (hexPair upper b) = true
  /\ forallb isHexChar (hexPair upper b) = true.
Proof.
  intros Hb.
  pose (f := fun b => (toUint8 (parseInt (hexPair upper b) 16) =? b)%N
                      && noLineTerminator (hexPair upper b)
                      && forallb isHexChar (hexPair upper b)).
  assert (H : f b = true).
  { apply (@forall_below 256 f); [| exact Hb].
    destruct upper; vm_compute; reflexivity. }
  unfold f in H. apply andb_true_iff in H. destruct H as [H H3].
  apply andb_true_iff in H. destruct H as [H1 H2].
  apply N.eqb_eq in H1. now repeat split.
Qed.

Lemma isBytes_Forall (bytes : list N) :
  isBytes bytes = true <-> Forall (fun b => (b < 256)%N) bytes.
Proof.
  unfold isBytes. rewrite forallb_forall, Forall_forall.
  split; intros H b Hin; specialize (H b Hin); now apply N.ltb_lt.
Qed.

Lemma hexEncode_concat (upper : bool) (bytes : list N) :
  hexEncode upper bytes = List.concat (map (hexPair upper) bytes).
Proof. unfold hexEncode. apply flat_map_concat_map. Qed.

Lemma hexEncode_length (upper : bool) (bytes : list N) :
  List.length (hexEncode upper bytes) = (2 * List.length bytes)%nat.
Proof.
  induction bytes as [|b bytes IH]; [reflexivity |].
  change (hexEncode upper (b :: bytes))
    with (hexPair upper b ++ hexEncode upper bytes).
  rewrite length_app, IH. simpl. lia.
Qed.

Lemma matchDots_hexEncode (upper : bool) (bytes : list N) (tail : jsstring) :
  isBytes bytes = true ->
  (List.length tail < 2)%nat ->
  matchDots 2 (hexEncode upper bytes ++ tail) = map (hexPair upper) bytes.
Proof.
  intros Hb Ht. rewrite hexEncode_concat. apply matchDots_chunks; [| exact Ht].
  apply isBytes_Forall in Hb. apply Forall_map.
  eapply Forall_impl; [| exact Hb]. intros b Hlt.
  destruct (@hexPair_checks upper b Hlt) as [_ [Hn _]].
  split; [reflexivity |]. split; [discriminate | assumption].
Qed.

Lemma hexPairs_bytes (upper : bool) (bytes : list N) :
  isBytes bytes = true ->
  map (fun h => toUint8 (parseInt h 16)) (map (hexPair upper) bytes) = bytes.
Proof.
  intros Hb. apply isBytes_Forall in Hb. rewrite map_map.
  induction Hb as [|b bytes Hlt _ IH]; [reflexivity |].
  cbn [map]. rewrite IH. f_equal. now apply hexPair_checks.
Qed.

Section Hex.

Context {P : Platform}.

Lemma hexToUtf8_hexEncode (upper : bool) (bytes : list N) :
  bytes <> [] -> isBytes bytes = true ->
  hexToUtf8 (hexEncode upper bytes) = Some (TextDecoder_decode bytes).
Proof.
  intros Hne Hb. unfold hexToUtf8.
  assert (E : Nat.eqb (List.length (hexEncode upper bytes) mod 2) 0 = true).
  { apply Nat.eqb_eq. rewrite hexEncode_length, Nat.mul_comm.
    apply Nat.Div0.mod_mul. }
  rewrite E.
  rewrite <- (app_nil_r (hexEncode upper bytes)).
  rewrite matchDots_hexEncode by (try assumption; simpl; lia).
  destruct bytes as [|b bytes]; [congruence |].
  rewrite <- (@hexPairs_bytes upper _ Hb) at 2. reflexivity.
Qed.

(** X14.  [hexToUtf8] inverts hexadecimal encoding: on the two digits
    per byte of any non-empty byte sequence, in lower or upper case, it
    returns the text [TextDecoder] makes of those bytes, and a further
    odd character at the end is dropped.  On the empty string and on a
    single character it returns [null]. *)
Theorem hexToUtf8_roundtrip (upper : bool) (bytes : list N) :
  bytes <> [] -> isBytes bytes = true ->
  hexToUtf8 (hexEncode upper bytes) = Some (TextDecoder_decode bytes)
  /\ (forall d, hexToUtf8 (hexEncode upper bytes ++ [d])
                = Some (TextDecoder_decode bytes))
  /\ hexToUtf8 [] = None
  /\ (forall d, hexToUtf8 [d] = None).
Proof.
  intros Hne Hb. split; [now apply hexToUtf8_hexEncode |].
  split; [| split; reflexivity].
  intros d. unfold hexToUtf8.
  assert (E : Nat.eqb (List.length (hexEncode upper bytes ++ [d]) mod 2) 0
              = false).
  { apply Nat.eqb_neq. rewrite length_app, hexEncode_length. cbn [List.length].
    replace (2 * List.length bytes + 1)%nat
      with (1 + List.length bytes * 2)%nat by lia.
    rewrite Nat.Div0.mod_add. discriminate. }
  rewrite E. unfold slice0.
  replace (List.length (hexEncode upper bytes ++ [d]) - 1)%nat
    with (List.length (hexEncode upper bytes) + 0)%nat
    by (rewrite length_app; simpl; lia).
  rewrite firstn_app_2. cbn [firstn]. 
  rewrite matchDots_hexEncode by (try assumption; simpl; lia).
  destruct bytes as [|b bytes]; [congruence |].
  rewrite <- (@hexPairs_bytes upper _ Hb) at 2. reflexivity.
Qed.

End Hex.

(* ================================================================== *)
(** * Base32 round trip *)
(* ================================================================== *)

Lemma isBinary_app (a b : jsstring) :
  isBinary (a ++ b) = isBinary a && isBinary b.
Proof. apply forallb_app. Qed.

Lemma isBinary_bitsOf (n : nat) (v : N) : isBinary (bitsOf n v) = true.
Proof.
  induction n as [|n IH]; [reflexivity |].
  cbn [bitsOf]. unfold isBinary in *. cbn [forallb]. rewrite IH.
  now destruct (N.testbit v (N.of_nat n)).
Qed.

Lemma bitsOf_length (n : nat) (v : N) : List.length (bitsOf n v) = n.
Proof. induction n as [|n IH]; [reflexivity |]. cbn [bitsOf List.length]. now rewrite IH. Qed.

Lemma isBinary_noLineTerminator (bits : jsstring) :
  isBinary bits = true -> noLineTerminator bits = true.
Proof.
  unfold isBinary, noLineTerminator. rewrite !forallb_forall.
  intros H c Hin. specialize (H c Hin).
  apply orb_true_iff in H. destruct H as [H | H]; apply N.eqb_eq in H;
    now subst c.
Qed.

Lemma isBinary_bits (bits : jsstring) :
  isBinary bits = true -> Forall (fun c => c = 48%N \/ c = 49%N) bits.
Proof.
  unfold isBinary. rewrite forallb_forall, Forall_forall.
  intros H c Hin. specialize (H c Hin).
  apply orb_true_iff in H. destruct H as [H | H]; apply N.eqb_eq in H; auto.
Qed.

(** The groups of five hold the bits, in order, then fewer than five
    zeros. *)
Lemma quintets_spec (bits : jsstring) :
  isBinary bits = true ->
  (exists k, (k < 5)%nat
             /\ List.concat (quintets bits) = bits ++ repeat 48%N k)
  /\ Forall (fun g => List.length g = 5%nat /\ isBinary g = true)
            (quintets bits).
Proof.
  remember (List.length bits) as n eqn:Hn. revert bits Hn.
  induction n as [n IH] using lt_wf_ind. intros bits Hn Hb.
  destruct bits as [|a [|b [|c [|d [|e rest]]]]].
  - split; [exists 0%nat; split; [lia | reflexivity] | constructor].
  - split; [exists 4%nat; split; [lia | reflexivity] |].
    constructor; [| constructor]. split; [reflexivity |].
    cbn [quintets app List.length Nat.sub repeat].
    unfold isBinary in *. cbn [forallb] in *.
    rewrite andb_true_r in Hb. now rewrite Hb.
  - split; [exists 3%nat; split; [lia | reflexivity] |].
    constructor; [| constructor]. split; [reflexivity |].
    change ([a; b] ++ repeat (ch "0") (5 - 2)) with ([a; b] ++ [48; 48; 48]%N).
    rewrite isBinary_app, Hb. reflexivity.
  - split; [exists 2%nat; split; [lia | reflexivity] |].
    constructor; [| constructor]. split; [reflexivity |].
    change ([a; b; c] ++ repeat (ch "0") (5 - 3))
      with ([a; b; c] ++ [48; 48]%N).
    rewrite isBinary_app, Hb. reflexivity.
  - split; [exists 1%nat; split; [lia | reflexivity] |].
    constructor; [| constructor]. split; [reflexivity |].
    change ([a; b; c; d] ++ repeat (ch "0") (5 - 4))
      with ([a; b; c; d] ++ [48]%N).
    rewrite isBinary_app, Hb. reflexivity.
  - change (a :: b :: c :: d :: e :: rest)
      with ([a; b; c; d; e] ++ rest) in Hb.
    rewrite isBinary_app in Hb. apply andb_true_iff in Hb.
    destruct Hb as [Hg Hrest].
    destruct (IH (List.length rest)) with (bits := rest)
      as [[k [Hk Hc]] Hall]; [subst n; simpl; lia | reflexivity | assumption |].
    cbn [quintets]. split.
    + exists k. split; [assumption |]. cbn [List.concat]. rewrite Hc.
      reflexivity.
    + constructor; [| assumption]. now split.
Qed.

(** What the decoder makes of the character of one group. *)
Lemma base32Char_decoded (g : jsstring) :
  List.length g = 5%nat -> isBinary g = true ->
  indexOf base32Alphabet (base32Char g) = Some (bitsValue g)
  /\ padStart 5 (ch "0") (toBinary (bitsValue g)) = g
  /\ toUpperCase [base32Char g] = [base32Char g]
  /\ toUpperCase (toLowerCase [base32Char g]) = [base32Char g]
  /\ (base32Char g =? ch "=")%N = false
  /\ isBase32Char (base32Char g) = true
  /\ negb (base32Char g =? ch "/")%N = true
  /\ negb (base32Char g =? ch "%")%N = true.
Proof.
  intros Hl Hb. apply isBinary_bits in Hb.
  destruct g as [|a [|b [|c [|d [|e [|f rest]]]]]]; try discriminate Hl.
  inversion Hb as [|? ? Ha Hb1]; subst.
  inversion Hb1 as [|? ? Hb' Hb2]; subst.
  inversion Hb2 as [|? ? Hc Hb3]; subst.
  inversion Hb3 as [|? ? Hd Hb4]; subst.
  inversion Hb4 as [|? ? He _]; subst.
  destruct Ha as [-> | ->]; destruct Hb' as [-> | ->];
    destruct Hc as [-> | ->]; destruct Hd as [-> | ->];
    destruct He as [-> | ->]; vm_compute; repeat split; reflexivity.
Qed.

Lemma base32Bits_chars (groups : list jsstring) :
  Forall (fun g => List.length g = 5%nat /\ isBinary g = true) groups ->
  base32Bits (map base32Char groups) = List.concat groups.
Proof.
  induction 1 as [|g groups [Hl Hb] _ IH]; [reflexivity |].
  cbn [map base32Bits List.concat].
  destruct (base32Char_decoded g Hl Hb) as [Hi [Hp _]].
  now rewrite Hi, Hp, IH.
Qed.

Lemma base32Chars_case (groups : list jsstring) :
  Forall (fun g => List.length g = 5%nat /\ isBinary g = true) groups ->
  toUpperCase (map base32Char groups) = map base32Char groups
  /\ toUpperCase (toLowerCase (map base32Char groups))
     = map base32Char groups
  /\ forallb (fun c => negb (c =? ch "=")%N) (map base32Char groups) = true.
Proof.
  induction 1 as [|g groups [Hl Hb] _ [IH1 [IH2 IH3]]];
    [now repeat split |].
  destruct (base32Char_decoded g Hl Hb) as [_ [_ [Hu [Hlu [He _]]]]].
  unfold toUpperCase, toLowerCase in *. cbn [map forallb] in *.
  injection Hu as Hu. injection Hlu as Hlu.
  rewrite IH1, IH2, IH3, He. rewrite Hu at 1. rewrite Hlu at 1.
  now repeat split.
Qed.

Lemma dropTrailing_repeat (c : N) (n : nat) : dropTrailing c (repeat c n) = [].
Proof.
  induction n as [|n IH]; [reflexivity |].
  cbn [repeat dropTrailing]. now rewrite IH, N.eqb_refl.
Qed.

Lemma dropTrailing_app_run (c : N) (u : jsstring) (n : nat) :
  forallb (fun x => negb (x =? c)%N) u = true ->
  dropTrailing c (u ++ repeat c n) = u.
Proof.
  induction u as [|x u IH]; intros H.
  - apply dropTrailing_repeat.
  - cbn [forallb] in H. apply andb_true_iff in H. destruct H as [Hx Hu].
    apply negb_true_iff in Hx.
    cbn [app dropTrailing]. rewrite (IH Hu).
    destruct u; [now rewrite Hx | reflexivity].
Qed.

Lemma toUpperCase_app (a b : jsstring) :
  toUpperCase (a ++ b) = toUpperCase a ++ toUpperCase b.
Proof. apply map_app. Qed.

Lemma toUpperCase_padding (n : nat) :
  toUpperCase (repeat (ch "=") n) = repeat (ch "=") n.
Proof. induction n as [|n IH]; [reflexivity |]. cbn [repeat]. unfold toUpperCase in *. cbn [map]. now rewrite IH. Qed.

Lemma bitsOf8_checks (b : N) :
  (b < 256)%N -> toUint8 (parseInt (bitsOf 8 b) 2) = b.
Proof.
  intros Hb.
  pose (f := fun b => (toUint8 (parseInt (bitsOf 8 b) 2) =? b)%N).
  assert (H : f b = true).
  { apply (@forall_below 256 f); [| exact Hb]. vm_compute. reflexivity. }
  now apply N.eqb_eq in H.
Qed.

Lemma bits_bytes (bytes : list N) :
  isBytes bytes = true ->
  map (fun b => toUint8 (parseInt b 2)) (map (bitsOf 8) bytes) = bytes.
Proof.
  intros Hb. apply isBytes_Forall in Hb. rewrite map_map.
  induction Hb as [|b bytes Hlt _ IH]; [reflexivity |].
  cbn [map]. rewrite IH. f_equal. now apply bitsOf8_checks.
Qed.

Lemma flat_map_bits_binary (bytes : list N) :
  isBinary (flat_map (bitsOf 8) bytes) = true.
Proof.
  induction bytes as [|b bytes IH]; [reflexivity |].
  cbn [flat_map]. now rewrite isBinary_app, isBinary_bitsOf, IH.
Qed.

Section Base32.

Context {P : Platform}.

Lemma base32ToUtf8_chars (bytes : list N) :
  isBytes bytes = true ->
  (forall n, base32ToUtf8 (base32Chars bytes ++ repeat (ch "=") n)
             = Some (TextDecoder_decode bytes))
  /\ (forall n, base32ToUtf8 (toLowerCase (base32Chars bytes)
                              ++ repeat (ch "=") n)
                = Some (TextDecoder_decode bytes)).
Proof.
  intros Hb.
  pose proof (flat_map_bits_binary bytes) as Hbin.
  destruct (quintets_spec _ Hbin) as [[k [Hk Hc]] Hall].
  destruct (base32Chars_case Hall) as [Hu [Hlu Hne]].
  fold (base32Chars bytes) in Hu, Hlu, Hne.
  assert (Hbits : base32Bits (base32Chars bytes)
                  = flat_map (bitsOf 8) bytes ++ repeat 48%N k).
  { unfold base32Chars. now rewrite base32Bits_chars, Hc. }
  assert (Hdec : map (fun b => toUint8 (parseInt b 2))
                     (matchDots 8 (base32Bits (base32Chars bytes)))
                 = bytes).
  { rewrite Hbits, flat_map_concat_map.
    rewrite matchDots_chunks.
    - now apply bits_bytes.
    - apply Forall_map. apply Forall_forall. intros b _.
      split; [apply bitsOf_length |]. split; [discriminate |].
      apply isBinary_noLineTerminator, isBinary_bitsOf.
    - rewrite repeat_length. lia. }
  split; intros n; unfold base32ToUtf8.
  - rewrite toUpperCase_app, toUpperCase_padding, Hu.
    rewrite dropTrailing_app_run by exact Hne. now rewrite Hdec.
  - rewrite toUpperCase_app, toUpperCase_padding, Hlu.
    rewrite dropTrailing_app_run by exact Hne. now rewrite Hdec.
Qed.

(** X15.  [base32ToUtf8] inverts RFC 4648 base32: on the encoding of any
    byte sequence it returns the text [TextDecoder] makes of those
    bytes, whether the encoding is padded in full, in part or not at
    all, and in upper or in lower case. *)
Theorem base32ToUtf8_roundtrip (bytes : list N) :
  isBytes bytes = true ->
  base32ToUtf8 (base32Encode bytes) = Some (TextDecoder_decode bytes)
  /\ (forall n, base32ToUtf8 (base32Chars bytes ++ repeat (ch "=") n)
                = Some (TextDecoder_decode bytes))
  /\ (forall n, base32ToUtf8 (toLowerCase (base32Chars bytes)
                              ++ repeat (ch "=") n)
                = Some (TextDecoder_decode bytes)).
Proof.
  intros Hb. destruct (base32ToUtf8_chars bytes Hb) as [H1 H2].
  split; [apply H1 |]. now split.
Qed.

End Base32.

(* ================================================================== *)
(** * Encoded documents through the whole worker *)
(* ================================================================== *)

Lemma keepClass_all (cls : N -> bool) (s : jsstring) :
  forallb cls s = true -> keepClass cls s = s.
Proof.
  unfold keepClass. induction s as [|c s IH]; [reflexivity |].
  cbn [forallb filter]. intros H. apply andb_true_iff in H.
  destruct H as [Hc Hs]. now rewrite Hc, IH.
Qed.

Lemma forallb_impl {A} (f g : A -> bool) (l : list A) :
  (forall x, f x = true -> g x = true) ->
  forallb f l = true -> forallb g l = true.
Proof.
  intros Hfg. rewrite !forallb_forall. intros H x Hin. auto.
Qed.

(** ** The engine on plain ASCII *)

Lemma Utf8_decodeFrom_ascii (text : jsstring) :
  isAscii text = true -> Utf8.decodeFrom Utf8.init text = text.
Proof.
  induction text as [|c text IH]; [reflexivity |].
  unfold isAscii. cbn [forallb]. intros H. apply andb_true_iff in H.
  destruct H as [Hc Ht]. cbn [Utf8.decodeFrom Utf8.init Utf8.bytesNeeded N.eqb].
  unfold Utf8.lead. apply N.ltb_lt in Hc.
  assert (E : (c <=? 127)%N = true) by (apply N.leb_le; lia).
  rewrite E. cbn [app]. now rewrite (IH Ht).
Qed.

Lemma Utf8_decode_ascii (text : jsstring) :
  isAscii text = true -> Utf8.decode text = text.
Proof.
  intros H. unfold Utf8.decode.
  assert (Hb : Utf8.stripBOM text = text).
  { destruct text as [|c text]; [reflexivity |].
    unfold isAscii in H. cbn [forallb] in H. apply andb_true_iff in H.
    destruct H as [Hc _]. apply N.ltb_lt in Hc.
    unfold Utf8.stripBOM.
    destruct c as [|p]; [reflexivity |].
    repeat (destruct p as [p|p|]; try reflexivity; try (exfalso; lia)). }
  rewrite Hb, (Utf8_decodeFrom_ascii text H).
  clear Hb. induction text as [|c text IH]; [reflexivity |].
  unfold isAscii in H. cbn [forallb] in H. apply andb_true_iff in H.
  destruct H as [Hc Ht]. apply N.ltb_lt in Hc.
  cbn [flat_map]. unfold utf16Encode at 1.
  assert (E : (c <=? 65535)%N = true) by (apply N.leb_le; lia).
  rewrite E. cbn [app]. now rewrite (IH Ht).
Qed.

Lemma isAscii_isBytes (text : jsstring) :
  isAscii text = true -> isBytes text = true.
Proof.
  apply forallb_impl. intros c H. apply N.ltb_lt in H. apply N.ltb_lt. lia.
Qed.

Lemma decodeURIComponent_plain (s : jsstring) :
  noPercent s = true -> URI.decodeURIComponent s = Some s.
Proof.
  unfold URI.decodeURIComponent.
  induction s as [|c s IH]; [reflexivity |].
  unfold noPercent. cbn [forallb]. intros H. apply andb_true_iff in H.
  destruct H as [Hc Hs]. apply negb_true_iff in Hc.
  cbn [URI.decodeFrom]. rewrite Hc, (IH Hs). reflexivity.
Qed.

(** The parser of the model rejects the texts no JSON text begins
    with: [7b], [7B], [P], [e]. *)
Lemma parse_hex_text_fails (x : N) (rest : jsstring) :
  x = ch "b" \/ x = ch "B" -> JSON.parse (ch "7" :: x :: rest) = None.
Proof. intros [-> | ->]; reflexivity. Qed.

Lemma parse_letter_fails (c : N) (rest : jsstring) :
  c = ch "P" \/ c = ch "e" -> JSON.parse (c :: rest) = None.
Proof. intros [-> | ->]; reflexivity. Qed.

(** ** A path of one segment *)

Lemma fetch_single_segment {P : Platform} (segment : jsstring)
    (v : JsonValue) (rawText : jsstring) :
  noSlash segment = true ->
  isStart segment = true ->
  tryParseJson segment = Ok v rawText ->
  fetch (lit "GET") (ch "/" :: segment)
  = respond (if (64000 <? jslength rawText)%Z
             then PayloadTooLarge else Success v).
Proof.
  intros Hns Hstart Htry.
  assert (Hne : segment <> []) by now apply isStart_nonempty.
  rewrite fetch_scan; [| now left | |].
  - rewrite pathParts_single by assumption.
    unfold scan, scanTraced, findStart. cbn [findStartFrom].
    rewrite Hstart. cbn [Z.eqb Z.to_nat skipn accumulate].
    change (grow [] segment) with segment.
    rewrite Htry, Z.gtb_ltb.
    now destruct (64000 <? jslength rawText)%Z.
  - intros E. injection E as E. congruence.
  - intros E. injection E as E. subst segment. discriminate Hstart.
Qed.

(** ** Hexadecimal *)

Lemma hexEncode_chars (upper : bool) (bytes : list N) :
  isBytes bytes = true -> forallb isHexChar (hexEncode upper bytes) = true.
Proof.
  intros Hb. apply isBytes_Forall in Hb.
  induction Hb as [|b bytes Hlt _ IH]; [reflexivity |].
  change (hexEncode upper (b :: bytes))
    with (hexPair upper b ++ hexEncode upper bytes).
  rewrite forallb_app, IH.
  destruct (@hexPair_checks upper b Hlt) as [_ [_ Hh]]. now rewrite Hh.
Qed.

Lemma isHexChar_classes (c : N) :
  isHexChar c = true ->
  isB64UrlChar c = true /\ negb (c =? ch "/")%N = true
  /\ negb (c =? ch "%")%N = true.
Proof.
  unfold isHexChar, isB64UrlChar, isUpper, isLower, isDigit, between.
  intros H.
  repeat match goal with
         | |- context [(?a <=? ?b)%N] => destruct (N.leb_spec a b)
         | |- context [(?a =? ?b)%N] => destruct (N.eqb_spec a b)
         | H : context [(?a <=? ?b)%N] |- _ => destruct (N.leb_spec a b)
         end; cbn in *; try discriminate; try lia; auto.
Qed.

Lemma parseDecoded_parsed {P : Platform} (text : jsstring) (O : JsonValue) :
  text <> [] ->
  JSON_parse text = Some O ->
  isObject O = true ->
  parseDecoded (Some text) = Ok O text.
Proof.
  intros Hne Hp Ho. unfold parseDecoded.
  assert (Ht : truthyString text = true) by now apply truthyString_true.
  rewrite Ht. unfold parseJson. rewrite Hp.
  destruct O; try discriminate Ho. reflexivity.
Qed.

Lemma tryParseJson_hex (parse : jsstring -> option JsonValue)
    (upper : bool) (rest : jsstring) (O : JsonValue) :
  isAscii (ch "{" :: rest) = true ->
  parse (ch "{" :: rest) = Some O ->
  isObject O = true ->
  (forall x tail, x = ch "b" \/ x = ch "B" ->
                  parse (ch "7" :: x :: tail) = None) ->
  @attemptResults (engineWith parse) (hexEncode upper (ch "{" :: rest))
  = [Fail; Fail; Fail; Fail; Fail; Ok O (ch "{" :: rest)].
Proof.
  intros Ha Hp Ho Hrej.
  pose proof (isAscii_isBytes _ Ha) as Hb.
  pose proof (hexEncode_chars upper _ Hb) as Hhex.
  set (text := ch "{" :: rest) in *.
  set (hex := hexEncode upper text) in *.
  assert (Hshape : exists x tail,
             hex = ch "7" :: x :: tail /\ (x = ch "b" \/ x = ch "B")).
  { exists (hexDigit upper 11), (hexEncode upper rest).
    split; [reflexivity |]. destruct upper; [now right | now left]. }
  destruct Hshape as [x [tail [Eh Hx]]].
  assert (Hnp : noPercent hex = true).
  { unfold noPercent. eapply forallb_impl; [| exact Hhex].
    intros c Hc. now apply isHexChar_classes. }
  assert (Hparse : parse hex = None) by (rewrite Eh; now apply Hrej).
  assert (A1 : @attemptUrlDecoded (engineWith parse) hex tt = Fail).
  { unfold attemptUrlDecoded, safeDecodeURIComponent.
    change (@decodeURIComponent (engineWith parse) hex)
      with (URI.decodeURIComponent hex).
    rewrite (decodeURIComponent_plain hex Hnp).
    unfold parseDecoded, parseJson.
    change (@JSON_parse (engineWith parse) hex) with (parse hex).
    rewrite Hparse. now destruct (truthyString hex). }
  assert (A2 : @attemptRaw (engineWith parse) hex tt = Fail).
  { unfold attemptRaw, parseJson.
    change (@JSON_parse (engineWith parse) hex) with (parse hex).
    now rewrite Hparse. }
  assert (A3 : @attemptB64Url (engineWith parse) hex tt = Fail).
  { unfold attemptB64Url. rewrite Eh.
    destruct Hx as [-> | ->]; reflexivity. }
  assert (A4 : @attemptB64Std (engineWith parse) hex tt = Fail).
  { unfold attemptB64Std. rewrite Eh.
    destruct Hx as [-> | ->]; reflexivity. }
  assert (A5 : @attemptBase32 (engineWith parse) hex tt = Fail).
  { unfold attemptBase32. rewrite Eh.
    destruct Hx as [-> | ->]; reflexivity. }
  assert (A6 : @attemptHex (engineWith parse) hex tt = Ok O text).
  { unfold attemptHex, stripNonHex. rewrite (keepClass_all _ _ Hhex).
    assert (Hl : looksLikeHexPrefix hex = true)
      by (rewrite Eh; destruct Hx as [-> | ->]; reflexivity).
    rewrite Hl. cbn [negb]. unfold hex.
    rewrite (@hexToUtf8_hexEncode (engineWith parse) upper text)
      by (try assumption; discriminate).
    change (@TextDecoder_decode (engineWith parse) text)
      with (Utf8.decode text).
    rewrite (Utf8_decode_ascii text Ha).
    apply (@parseDecoded_parsed (engineWith parse));
      [discriminate | exact Hp | exact Ho]. }
  unfold attemptResults, attempts. cbn [map].
  now rewrite A1, A2, A3, A4, A5, A6.
Qed.

Lemma tryParseJson_of_results {P : Platform} (input : jsstring)
    (r : Attempt) (fails : list Attempt) (more : list Attempt) :
  attemptResults input = fails ++ r :: more ->
  forallb (fun a => negb (ok a)) fails = true ->
  ok r = true ->
  tryParseJson input = r.
Proof.
  intros E Hf Hr. rewrite tryParseJson_firstSuccess, E. clear E.
  induction fails as [|a fails IH].
  - cbn [app firstSuccess]. now rewrite Hr.
  - cbn [forallb] in Hf. apply andb_true_iff in Hf. destruct Hf as [Ha Hf].
    apply negb_true_iff in Ha. cbn [app firstSuccess]. rewrite Ha.
    specialize (IH Hf).
    destruct (firstSuccess (fails ++ r :: more)) as [[k r']|]; [assumption |].
    now subst r.
Qed.

(** X16.  A GET of the hexadecimal encoding, in either case, of an ASCII
    text of at most 64,000 characters that starts with a brace and that
    the engine's [JSON.parse] reads as the object [O] answers 200 with
    [O]: the first five attempts fail on it and the hex attempt decodes
    it.  The parser is any parser; of it the theorem asks the object it
    makes of the text, and that it rejects a text beginning [7b] or [7B],
    as JSON has no such text. *)
Theorem fetch_hex_document (parse : jsstring -> option JsonValue)
    (upper : bool) (rest : jsstring) (O : JsonValue) :
  isAscii (ch "{" :: rest) = true ->
  parse (ch "{" :: rest) = Some O ->
  isObject O = true ->
  (forall x tail, x = ch "b" \/ x = ch "B" ->
                  parse (ch "7" :: x :: tail) = None) ->
  (jslength (ch "{" :: rest) <= 64000)%Z ->
  @attemptResults (engineWith parse) (hexEncode upper (ch "{" :: rest))
  = [Fail; Fail; Fail; Fail; Fail; Ok O (ch "{" :: rest)]
  /\ @fetch (engineWith parse) (lit "GET")
       (ch "/" :: hexEncode upper (ch "{" :: rest))
     = respond (Success O).
Proof.
  intros Ha Hp Ho Hrej Hlen.
  pose proof (tryParseJson_hex parse upper rest Ha Hp Ho Hrej) as Hres.
  split; [exact Hres |].
  pose proof (isAscii_isBytes _ Ha) as Hb.
  pose proof (hexEncode_chars upper _ Hb) as Hhex.
  rewrite (@fetch_single_segment (engineWith parse) _ O (ch "{" :: rest)).
  - assert (E : (64000 <? jslength (ch "{" :: rest))%Z = false)
      by (apply Z.ltb_ge; lia).
    now rewrite E.
  - unfold noSlash. eapply forallb_impl; [| exact Hhex].
    intros c Hc. now apply isHexChar_classes.
  - destruct upper; reflexivity.
  - apply (@tryParseJson_of_results (engineWith parse) _ _
             [Fail; Fail; Fail; Fail; Fail] []);
      [exact Hres | reflexivity | reflexivity].
Qed.

(** ** Base32 *)

Lemma bitsOf8_small (c : N) :
  (c < 64)%N -> bitsOf 8 c = 48%N :: 48%N :: bitsOf 6 c.
Proof.
  intros Hc.
  pose (f := fun c => negb (N.testbit c 7) && negb (N.testbit c 6)).
  assert (H : f c = true)
    by (apply (@forall_below 64 f); [vm_compute; reflexivity | exact Hc]).
  unfold f in H. apply andb_true_iff in H. destruct H as [H7 H6].
  apply negb_true_iff in H7, H6.
  cbn [bitsOf]. change (N.of_nat 7) with 7%N. change (N.of_nat 6) with 6%N.
  now rewrite H7, H6.
Qed.

Lemma base32Chars_brace (c2 : N) (rest : jsstring) :
  (c2 < 64)%N ->
  exists tail, base32Chars (ch "{" :: c2 :: rest)
               = ch "P" :: ch "M" :: tail.
Proof.
  intros Hc. unfold base32Chars. cbn [flat_map].
  rewrite (bitsOf8_small Hc).
  change (bitsOf 8 (ch "{")) with [48; 49; 49; 49; 49; 48; 49; 49]%N.
  cbn [app].
  set (X := bitsOf 6 c2 ++ flat_map (bitsOf 8) rest).
  change (quintets (48 :: 49 :: 49 :: 49 :: 49 :: 48 :: 49 :: 49
                       :: 48 :: 48 :: X)%N)
    with ([48; 49; 49; 49; 49]%N :: [48; 49; 49; 48; 48]%N :: quintets X).
  cbn [map]. eexists. reflexivity.
Qed.

Lemma base32Chars_classes (bytes : list N) :
  forallb isBase32Char (base32Chars bytes) = true
  /\ noSlash (base32Chars bytes) = true
  /\ noPercent (base32Chars bytes) = true.
Proof.
  pose proof (flat_map_bits_binary bytes) as Hbin.
  destruct (quintets_spec _ Hbin) as [_ Hall].
  unfold base32Chars, noSlash, noPercent.
  induction Hall as [|g groups [Hl Hb] _ [IH1 [IH2 IH3]]];
    [now repeat split |].
  destruct (base32Char_decoded g Hl Hb) as [_ [_ [_ [_ [_ [H1 [H2 H3]]]]]]].
  cbn [map forallb]. now rewrite H1, H2, H3, IH1, IH2, IH3.
Qed.

Lemma forallb_repeat {A} (f : A -> bool) (x : A) (n : nat) :
  f x = true -> forallb f (repeat x n) = true.
Proof. intros H. induction n as [|n IH]; [reflexivity |]. cbn [repeat forallb]. now rewrite H, IH. Qed.

(** X17.  A GET of the padded base32 encoding of an ASCII text of at
    most 64,000 characters that starts with a brace followed by a
    character below [@] (a quote or a space, say) and that the engine's
    [JSON.parse] reads as the object [O] answers 200 with [O]; the
    base32 attempt, the fifth, is the one that decodes it.  The parser
    is any parser; of it the theorem asks the object it makes of the
    text, and that it rejects a text beginning with [P], as JSON has no
    such text. *)
Theorem fetch_base32_document (parse : jsstring -> option JsonValue)
    (c2 : N) (rest : jsstring) (O : JsonValue) :
  isAscii (ch "{" :: c2 :: rest) = true ->
  (c2 < 64)%N ->
  parse (ch "{" :: c2 :: rest) = Some O ->
  isObject O = true ->
  (forall tail, parse (ch "P" :: tail) = None) ->
  (jslength (ch "{" :: c2 :: rest) <= 64000)%Z ->
  runAttempts
    (@attempts (engineWith parse) (base32Encode (ch "{" :: c2 :: rest))) 0
  = (Ok O (ch "{" :: c2 :: rest), 5%nat)
  /\ @fetch (engineWith parse) (lit "GET")
       (ch "/" :: base32Encode (ch "{" :: c2 :: rest))
     = respond (Success O).
Proof.
  intros Ha Hc Hp Ho Hrej Hlen.
  pose proof (isAscii_isBytes _ Ha) as Hb.
  set (text := ch "{" :: c2 :: rest) in *.
  destruct (base32Chars_classes text) as [H32 [Hns Hnp]].
  destruct (base32Chars_brace rest Hc) as [tail Eh]. fold text in Eh.
  set (n := ((8 - List.length (base32Chars text) mod 8) mod 8)%nat).
  assert (Eenc : base32Encode text = base32Chars text ++ repeat (ch "=") n)
    by reflexivity.
  set (enc := base32Encode text) in *.
  assert (Eshape : enc = ch "P" :: ch "M" :: tail ++ repeat (ch "=") n)
    by (rewrite Eenc, Eh; reflexivity).
  assert (Hnp' : noPercent enc = true).
  { rewrite Eenc. unfold noPercent in *. rewrite forallb_app, Hnp.
    now rewrite forallb_repeat. }
  assert (Hns' : noSlash enc = true).
  { rewrite Eenc. unfold noSlash in *. rewrite forallb_app, Hns.
    now rewrite forallb_repeat. }
  assert (H32' : forallb isBase32Char enc = true).
  { rewrite Eenc, forallb_app, H32. now rewrite forallb_repeat. }
  assert (Hparse : parse enc = None) by (rewrite Eshape; apply Hrej).
  assert (A1 : @attemptUrlDecoded (engineWith parse) enc tt = Fail).
  { unfold attemptUrlDecoded, safeDecodeURIComponent.
    change (@decodeURIComponent (engineWith parse) enc)
      with (URI.decodeURIComponent enc).
    rewrite (decodeURIComponent_plain enc Hnp').
    unfold parseDecoded, parseJson.
    change (@JSON_parse (engineWith parse) enc) with (parse enc).
    rewrite Hparse. now destruct (truthyString enc). }
  assert (A2 : @attemptRaw (engineWith parse) enc tt = Fail).
  { unfold attemptRaw, parseJson.
    change (@JSON_parse (engineWith parse) enc) with (parse enc).
    now rewrite Hparse. }
  assert (A3 : @attemptB64Url (engineWith parse) enc tt = Fail)
    by (unfold attemptB64Url; rewrite Eshape; reflexivity).
  assert (A4 : @attemptB64Std (engineWith parse) enc tt = Fail)
    by (unfold attemptB64Std; rewrite Eshape; reflexivity).
  assert (A5 : @attemptBase32 (engineWith parse) enc tt = Ok O text).
  { unfold attemptBase32, stripNonBase32. rewrite (keepClass_all _ _ H32').
    assert (Hl : looksLikeBase32Prefix enc = true)
      by (rewrite Eshape; reflexivity).
    rewrite Hl. cbn [negb]. rewrite Eenc.
    rewrite (proj1 (@base32ToUtf8_chars (engineWith parse) text Hb) n).
    change (@TextDecoder_decode (engineWith parse) text)
      with (Utf8.decode text).
    rewrite (Utf8_decode_ascii text Ha).
    apply (@parseDecoded_parsed (engineWith parse));
      [discriminate | exact Hp | exact Ho]. }
  assert (Hrun : runAttempts (@attempts (engineWith parse) enc) 0
                 = (Ok O text, 5%nat)).
  { unfold attempts. cbn [runAttempts]. now rewrite A1, A2, A3, A4, A5. }
  split; [exact Hrun |].
  rewrite (@fetch_single_segment (engineWith parse) _ O text).
  - assert (E : (64000 <? jslength text)%Z = false) by (apply Z.ltb_ge; lia).
    now rewrite E.
  - exact Hns'.
  - rewrite Eshape. reflexivity.
  - unfold tryParseJson. now rewrite Hrun.
Qed.

(** ** Percent-encoding *)

Lemma percentEncodeChar_checks (c : N) :
  (c < 128)%N ->
  (if isUriUnreserved c then (c =? ch "%")%N = false
   else URI.hexOctet (hexDigit true (c / 16)) (hexDigit true (c mod 16))
        = Some c)
  /\ noSlash (percentEncodeChar c) = true.
Proof.
  intros Hc.
  pose (f := fun c =>
          (if isUriUnreserved c then negb (c =? ch "%")%N
           else match URI.hexOctet (hexDigit true (c / 16))
                                   (hexDigit true (c mod 16)) with
                | Some v => (v =? c)%N
                | None => false
                end)
          && noSlash (percentEncodeChar c)).
  assert (H : f c = true)
    by (apply (@forall_below 128 f); [vm_compute; reflexivity | exact Hc]).
  unfold f in H. apply andb_true_iff in H. destruct H as [H1 H2].
  split; [| exact H2].
  destruct (isUriUnreserved c).
  - now apply negb_true_iff in H1.
  - destruct (URI.hexOctet _ _) as [v|]; [| discriminate H1].
    apply N.eqb_eq in H1. now subst v.
Qed.

Lemma decode_percentEncode (text : jsstring) :
  isAscii text = true ->
  URI.decodeURIComponent (percentEncode text) = Some text.
Proof.
  unfold URI.decodeURIComponent.
  induction text as [|c text IH]; [reflexivity |].
  unfold isAscii. cbn [forallb]. intros H. apply andb_true_iff in H.
  destruct H as [Hc Ht]. apply N.ltb_lt in Hc.
  change (percentEncode (c :: text))
    with (percentEncodeChar c ++ percentEncode text).
  destruct (percentEncodeChar_checks Hc) as [Hd _].
  unfold percentEncodeChar. destruct (isUriUnreserved c).
  - cbn [app URI.decodeFrom]. rewrite Hd, (IH Ht). reflexivity.
  - cbn [app URI.decodeFrom]. rewrite N.eqb_refl, Hd.
    unfold URI.leadingOnes.
    assert (E : (c <? 128)%N = true) by now apply N.ltb_lt.
    rewrite E, (IH Ht). reflexivity.
Qed.

Lemma noSlash_percentEncode (text : jsstring) :
  isAscii text = true -> noSlash (percentEncode text) = true.
Proof.
  induction text as [|c text IH]; [reflexivity |].
  unfold isAscii. cbn [forallb]. intros H. apply andb_true_iff in H.
  destruct H as [Hc Ht]. apply N.ltb_lt in Hc.
  change (percentEncode (c :: text))
    with (percentEncodeChar c ++ percentEncode text).
  destruct (percentEncodeChar_checks Hc) as [_ Hn].
  unfold noSlash in *. now rewrite forallb_app, Hn, (IH Ht).
Qed.

(** X18.  A GET of the percent-encoding ([encodeURIComponent]) of an
    ASCII text of at most 64,000 characters that starts with a brace and
    that the engine's [JSON.parse] reads as the object [O] answers 200
    with [O], by the first attempt.  The parser is any parser; of it the
    theorem asks only the object it makes of the text. *)
Theorem fetch_percent_document (parse : jsstring -> option JsonValue)
    (rest : jsstring) (O : JsonValue) :
  isAscii (ch "{" :: rest) = true ->
  parse (ch "{" :: rest) = Some O ->
  isObject O = true ->
  (jslength (ch "{" :: rest) <= 64000)%Z ->
  URI.decodeURIComponent (percentEncode (ch "{" :: rest))
  = Some (ch "{" :: rest)
  /\ runAttempts
       (@attempts (engineWith parse) (percentEncode (ch "{" :: rest))) 0
     = (Ok O (ch "{" :: rest), 1%nat)
  /\ @fetch (engineWith parse) (lit "GET")
       (ch "/" :: percentEncode (ch "{" :: rest))
     = respond (Success O).
Proof.
  intros Ha Hp Ho Hlen.
  pose proof (decode_percentEncode _ Ha) as Hd.
  set (text := ch "{" :: rest) in *.
  assert (A1 : @attemptUrlDecoded (engineWith parse) (percentEncode text) tt
               = Ok O text).
  { unfold attemptUrlDecoded, safeDecodeURIComponent.
    change (@decodeURIComponent (engineWith parse) (percentEncode text))
      with (URI.decodeURIComponent (percentEncode text)).
    rewrite Hd.
    apply (@parseDecoded_parsed (engineWith parse));
      [discriminate | exact Hp | exact Ho]. }
  assert (Hrun : runAttempts
                   (@attempts (engineWith parse) (percentEncode text)) 0
                 = (Ok O text, 1%nat)).
  { unfold attempts. cbn [runAttempts]. now rewrite A1. }
  split; [exact Hd |]. split; [exact Hrun |].
  rewrite (@fetch_single_segment (engineWith parse) _ O text).
  - assert (E : (64000 <? jslength text)%Z = false) by (apply Z.ltb_ge; lia).
    now rewrite E.
  - now apply noSlash_percentEncode.
  - reflexivity.
  - unfold tryParseJson. now rewrite Hrun.
Qed.

(** ** Base64 *)

Lemma base64Char_checks (v : N) :
  (v < 64)%N ->
  Base64.sextet (base64Char false v) = Some v
  /\ replaceChar (ch "_") (ch "/")
       (replaceChar (ch "-") (ch "+") [base64Char true v])
     = [base64Char false v]
  /\ (base64Char false v =? ch "=")%N = false
  /\ Base64.isAsciiWhitespace (base64Char false v) = false
  /\ isB64UrlChar (base64Char true v) = true
  /\ isB64StdChar (base64Char false v) = true
  /\ negb (base64Char true v =? ch "/")%N = true
  /\ negb (base64Char true v =? ch "%")%N = true.
Proof.
  intros Hv.
  pose (f := fun v =>
          match Base64.sextet (base64Char false v) with
          | Some w => (w =? v)%N
          | None => false
          end
          && jsstring_eqb
               (replaceChar (ch "_") (ch "/")
                  (replaceChar (ch "-") (ch "+") [base64Char true v]))
               [base64Char false v]
          && negb (base64Char false v =? ch "=")%N
          && negb (Base64.isAsciiWhitespace (base64Char false v))
          && isB64UrlChar (base64Char true v)
          && isB64StdChar (base64Char false v)
          && negb (base64Char true v =? ch "/")%N
          && negb (base64Char true v =? ch "%")%N).
  assert (H : f v = true)
    by (apply (@forall_below 64 f); [vm_compute; reflexivity | exact Hv]).
  unfold f in H.
  repeat match type of H with
         | (_ && _ = true) =>
             let H' := fresh "H" in
             apply andb_true_iff in H; destruct H as [H H']
         end.
  destruct (Base64.sextet (base64Char false v)) as [w|]; [| discriminate H].
  apply N.eqb_eq in H. subst w.
  repeat match goal with
         | Hx : negb _ = true |- _ => apply negb_true_iff in Hx
         | Hx : jsstring_eqb _ _ = true |- _ => apply jsstring_eqb_eq in Hx
         end.
  repeat split; try assumption; now apply negb_true_iff.
Qed.

(** The four sextets of three bytes, and the bytes back. *)
Lemma sextets_of_bytes (a b c : N) :
  (a < 256)%N -> (b < 256)%N -> (c < 256)%N ->
  ((a / 4 < 64) /\ ((a mod 4) * 16 + b / 16 < 64)
   /\ ((b mod 16) * 4 + c / 64 < 64) /\ (c mod 64 < 64)
   /\ ((a mod 4) * 16 < 64) /\ ((b mod 16) * 4 < 64)
   /\ (a / 4) * 4 + ((a mod 4) * 16 + b / 16) / 16 = a
   /\ (((a mod 4) * 16 + b / 16) mod 16) * 16
      + ((b mod 16) * 4 + c / 64) / 4 = b
   /\ (((b mod 16) * 4 + c / 64) mod 4) * 64 + c mod 64 = c
   /\ (a / 4) * 4 + ((a mod 4) * 16) / 16 = a
   /\ (((a mod 4) * 16 + b / 16) mod 16) * 16 + ((b mod 16) * 4) / 4 = b)%N.
Proof.
  intros Ha Hb Hc.
  pose proof (N.div_mod a 4 ltac:(lia)) as Da.
  pose proof (N.mod_upper_bound a 4 ltac:(lia)) as Ma.
  pose proof (N.div_mod b 16 ltac:(lia)) as Db.
  pose proof (N.mod_upper_bound b 16 ltac:(lia)) as Mb.
  pose proof (N.div_mod c 64 ltac:(lia)) as Dc.
  pose proof (N.mod_upper_bound c 64 ltac:(lia)) as Mc.
  assert (Hb16 : (b / 16 < 16)%N) by (apply N.Div0.div_lt_upper_bound; lia).
  assert (Hc64 : (c / 64 < 4)%N) by (apply N.Div0.div_lt_upper_bound; lia).
  assert (Ha4 : (a / 4 < 64)%N) by (apply N.Div0.div_lt_upper_bound; lia).
  assert (E1 : (((a mod 4) * 16 + b / 16) / 16 = a mod 4)%N).
  { rewrite N.add_comm, N.div_add by lia. rewrite (N.div_small (b / 16)); lia. }
  assert (E2 : (((a mod 4) * 16 + b / 16) mod 16 = b / 16)%N).
  { rewrite N.add_comm, N.Div0.mod_add. apply N.mod_small. lia. }
  assert (E3 : (((b mod 16) * 4 + c / 64) / 4 = b mod 16)%N).
  { rewrite N.add_comm, N.div_add by lia. rewrite (N.div_small (c / 64)); lia. }
  assert (E4 : (((b mod 16) * 4 + c / 64) mod 4 = c / 64)%N).
  { rewrite N.add_comm, N.Div0.mod_add. apply N.mod_small. lia. }
  assert (E5 : (((a mod 4) * 16) / 16 = a mod 4)%N) by (apply N.div_mul; lia).
  assert (E6 : (((b mod 16) * 4) / 4 = b mod 16)%N) by (apply N.div_mul; lia).
  rewrite E1, E2, E3, E4, E5, E6. repeat split; lia.
Qed.

Lemma list_ind3 {A} (Pr : list A -> Prop) :
  Pr [] -> (forall a, Pr [a]) -> (forall a b, Pr [a; b]) ->
  (forall a b c rest, Pr rest -> Pr (a :: b :: c :: rest)) ->
  forall l, Pr l.
Proof.
  intros H0 H1 H2 H3 l.
  remember (List.length l) as n eqn:Hn. revert l Hn.
  induction n as [n IH] using lt_wf_ind. intros l Hn.
  destruct l as [|a [|b [|c rest]]]; auto.
  apply H3. apply (IH (List.length rest)); [subst n; simpl; lia | reflexivity].
Qed.

Lemma isBytes_cons (b : N) (bytes : list N) :
  isBytes (b :: bytes) = true <-> (b < 256)%N /\ isBytes bytes = true.
Proof.
  unfold isBytes. cbn [forallb]. rewrite andb_true_iff, N.ltb_lt. reflexivity.
Qed.

(** The unpadded encoding decodes, sextet by sextet, to the bytes. *)
Lemma base64Chars_sextets (bytes : list N) :
  isBytes bytes = true ->
  (exists vs, Base64.sextets (base64Chars false bytes) = Some vs
              /\ Base64.bytesOf vs = bytes)
  /\ (List.length (base64Chars false bytes) mod 4 <> 1)%nat
  /\ isB64Payload (base64Chars false bytes) = true.
Proof.
  induction bytes as [| a | a b | a b c rest IH] using list_ind3; intros Hb.
  - split; [exists []; now split |]. split; [discriminate | reflexivity].
  - apply isBytes_cons in Hb. destruct Hb as [Ha _].
    destruct (sextets_of_bytes Ha Ha Ha)
      as [S1 [_ [_ [_ [S5 [_ [_ [_ [_ [E4 _]]]]]]]]]].
    destruct (base64Char_checks S1) as [D1 [_ [P1 [W1 _]]]].
    destruct (base64Char_checks S5) as [D2 [_ [P2 [W2 _]]]].
    split; [| split; [discriminate |]].
    + eexists. cbn [base64Chars Base64.sextets]. rewrite D1, D2.
      split; [reflexivity |]. cbn [Base64.bytesOf]. now rewrite E4.
    + unfold isB64Payload. cbn [base64Chars forallb].
      now rewrite P1, P2, W1, W2.
  - apply isBytes_cons in Hb. destruct Hb as [Ha Hb].
    apply isBytes_cons in Hb. destruct Hb as [Hb _].
    destruct (sextets_of_bytes Ha Hb Hb)
      as [S1 [S2 [_ [_ [_ [S6 [E1 [_ [_ [_ E5]]]]]]]]]].
    destruct (base64Char_checks S1) as [D1 [_ [P1 [W1 _]]]].
    destruct (base64Char_checks S2) as [D2 [_ [P2 [W2 _]]]].
    destruct (base64Char_checks S6) as [D3 [_ [P3 [W3 _]]]].
    split; [| split; [discriminate |]].
    + eexists. cbn [base64Chars Base64.sextets]. rewrite D1, D2, D3.
      split; [reflexivity |]. cbn [Base64.bytesOf]. now rewrite E1, E5.
    + unfold isB64Payload. cbn [base64Chars forallb].
      now rewrite P1, P2, P3, W1, W2, W3.
  - apply isBytes_cons in Hb. destruct Hb as [Ha Hb].
    apply isBytes_cons in Hb. destruct Hb as [Hb Hc].
    apply isBytes_cons in Hc. destruct Hc as [Hc Hrest].
    destruct (IH Hrest) as [[vs [Hs Hv]] [Hm Hp]].
    destruct (sextets_of_bytes Ha Hb Hc)
      as [S1 [S2 [S3 [S4 [_ [_ [E1 [E2 [E3 _]]]]]]]]].
    destruct (base64Char_checks S1) as [D1 [_ [P1 [W1 _]]]].
    destruct (base64Char_checks S2) as [D2 [_ [P2 [W2 _]]]].
    destruct (base64Char_checks S3) as [D3 [_ [P3 [W3 _]]]].
    destruct (base64Char_checks S4) as [D4 [_ [P4 [W4 _]]]].
    split; [| split].
    + eexists. cbn [base64Chars Base64.sextets]. rewrite D1, D2, D3, D4, Hs.
      split; [reflexivity |]. cbn [Base64.bytesOf].
      now rewrite E1, E2, E3, Hv.
    + cbn [base64Chars List.length].
      replace (S (S (S (S (List.length (base64Chars false rest))))))
        with (List.length (base64Chars false rest) + 1 * 4)%nat by lia.
      now rewrite Nat.Div0.mod_add.
    + unfold isB64Payload in *. cbn [base64Chars forallb].
      now rewrite P1, P2, P3, P4, W1, W2, W3, W4, Hp.
Qed.

Lemma dropPadding_padded (chars : jsstring) (n : nat) :
  isB64Payload chars = true -> (n <= 2)%nat ->
  Base64.dropPadding (chars ++ repeat (ch "=") n) = chars.
Proof.
  intros Hp Hn.
  assert (Hin : forall e, In e (rev chars) -> (e =? ch "=")%N = false).
  { intros e He. apply in_rev in He. unfold isB64Payload in Hp.
    rewrite forallb_forall in Hp. specialize (Hp e He).
    apply andb_true_iff in Hp. destruct Hp as [Hp _].
    now apply negb_true_iff in Hp. }
  unfold Base64.dropPadding.
  destruct n as [|[|[|n]]]; [| | | lia].
  - rewrite app_nil_r.
    destruct (rev chars) as [|e1 [|e2 r]] eqn:Hr; [reflexivity | |];
      now rewrite (Hin e1 (or_introl eq_refl)).
  - cbn [repeat]. rewrite rev_app_distr. cbn [rev app].
    destruct (rev chars) as [|e2 r] eqn:Hr.
    + rewrite N.eqb_refl. apply (f_equal (@rev N)) in Hr.
      rewrite rev_involutive in Hr. now rewrite Hr.
    + rewrite N.eqb_refl, (Hin e2 (or_introl eq_refl)).
      change (rev r ++ [e2]) with (rev (e2 :: r)).
      rewrite <- Hr. apply rev_involutive.
  - cbn [repeat]. rewrite rev_app_distr. cbn [rev app].
    rewrite !N.eqb_refl. apply rev_involutive.
Qed.

Lemma atob_padBase64 (bytes : list N) :
  isBytes bytes = true ->
  Base64.atob (padBase64 (base64Chars false bytes)) = Some bytes.
Proof.
  intros Hb.
  destruct (base64Chars_sextets bytes Hb) as [[vs [Hs Hv]] [Hm Hp]].
  destruct (padBase64_shape (base64Chars false bytes)) as [n [Hn [E Hl]]].
  set (chars := base64Chars false bytes) in *.
  assert (Hn2 : (n <= 2)%nat).
  { rewrite E, length_app, repeat_length in Hl.
    destruct (Nat.eq_dec n 3) as [-> |]; [| lia].
    exfalso. apply Hm.
    pose proof (Nat.div_mod_eq (List.length chars + 3) 4) as D.
    rewrite Hl in D.
    replace (List.length chars)
      with (1 + ((List.length chars + 3) / 4 - 1) * 4)%nat by lia.
    now rewrite Nat.Div0.mod_add. }
  unfold Base64.atob. rewrite E.
  assert (Hf : filter (fun c => negb (Base64.isAsciiWhitespace c))
                      (chars ++ repeat (ch "=") n)
               = chars ++ repeat (ch "=") n).
  { apply (keepClass_all (fun c => negb (Base64.isAsciiWhitespace c))).
    rewrite forallb_app. apply andb_true_iff. split.
    - unfold isB64Payload in Hp. eapply forallb_impl; [| exact Hp].
      intros c Hc. apply andb_true_iff in Hc. tauto.
    - now apply forallb_repeat. }
  rewrite Hf, <- E, Hl. cbn [Nat.eqb]. rewrite E.
  rewrite (dropPadding_padded chars Hp Hn2).
  assert (E1 : Nat.eqb (List.length chars mod 4) 1 = false)
    by now apply Nat.eqb_neq.
  now rewrite E1, Hs, <- Hv.
Qed.

Lemma base64Chars_alphabets (bytes : list N) :
  isBytes bytes = true ->
  replaceChar (ch "_") (ch "/")
    (replaceChar (ch "-") (ch "+") (base64Chars true bytes))
  = base64Chars false bytes
  /\ forallb isB64UrlChar (base64Chars true bytes) = true
  /\ forallb isB64StdChar (base64Chars false bytes) = true
  /\ noSlash (base64Chars true bytes) = true
  /\ noPercent (base64Chars true bytes) = true.
Proof.
  assert (Hone : forall v, (v < 64)%N ->
            (fun x => if (x =? ch "_")%N then ch "/" else x)
              ((fun x => if (x =? ch "-")%N then ch "+" else x)
                 (base64Char true v))
            = base64Char false v
            /\ isB64UrlChar (base64Char true v) = true
            /\ isB64StdChar (base64Char false v) = true
            /\ negb (base64Char true v =? ch "/")%N = true
            /\ negb (base64Char true v =? ch "%")%N = true).
  { intros v Hv.
    destruct (base64Char_checks Hv) as [_ [R [_ [_ [U [S [N1 N2]]]]]]].
    unfold replaceChar in R. cbn [map] in R. injection R as R.
    now repeat split. }
  unfold replaceChar, noSlash, noPercent.
  induction bytes as [| a | a b | a b c rest IH] using list_ind3; intros Hb.
  - now repeat split.
  - apply isBytes_cons in Hb. destruct Hb as [Ha _].
    destruct (sextets_of_bytes Ha Ha Ha)
      as [S1 [_ [_ [_ [S5 _]]]]].
    destruct (Hone _ S1) as [R1 [U1 [T1 [N1 M1]]]].
    destruct (Hone _ S5) as [R2 [U2 [T2 [N2 M2]]]].
    cbn [base64Chars map forallb].
    now rewrite R1, R2, U1, U2, T1, T2, N1, N2, M1, M2.
  - apply isBytes_cons in Hb. destruct Hb as [Ha Hb].
    apply isBytes_cons in Hb. destruct Hb as [Hb _].
    destruct (sextets_of_bytes Ha Hb Hb)
      as [S1 [S2 [_ [_ [_ [S6 _]]]]]].
    destruct (Hone _ S1) as [R1 [U1 [T1 [N1 M1]]]].
    destruct (Hone _ S2) as [R2 [U2 [T2 [N2 M2]]]].
    destruct (Hone _ S6) as [R3 [U3 [T3 [N3 M3]]]].
    cbn [base64Chars map forallb].
    now rewrite R1, R2, R3, U1, U2, U3, T1, T2, T3, N1, N2, N3, M1, M2, M3.
  - apply isBytes_cons in Hb. destruct Hb as [Ha Hb].
    apply isBytes_cons in Hb. destruct Hb as [Hb Hc].
    apply isBytes_cons in Hc. destruct Hc as [Hc Hrest].
    destruct (IH Hrest) as [IR [IU [IT [IN IM]]]].
    destruct (sextets_of_bytes Ha Hb Hc) as [S1 [S2 [S3 [S4 _]]]].
    destruct (Hone _ S1) as [R1 [U1 [T1 [N1 M1]]]].
    destruct (Hone _ S2) as [R2 [U2 [T2 [N2 M2]]]].
    destruct (Hone _ S3) as [R3 [U3 [T3 [N3 M3]]]].
    destruct (Hone _ S4) as [R4 [U4 [T4 [N4 M4]]]].
    cbn [base64Chars map forallb].
    rewrite R1, R2, R3, R4, U1, U2, U3, U4, T1, T2, T3, T4,
      N1, N2, N3, N4, M1, M2, M3, M4, IR, IU, IT, IN, IM.
    now repeat split.
Qed.

Lemma bytes_mod256 (bytes : list N) :
  isBytes bytes = true -> map (fun c => c mod 256)%N bytes = bytes.
Proof.
  intros Hb. apply isBytes_Forall in Hb.
  induction Hb as [|b bytes Hlt _ IH]; [reflexivity |].
  cbn [map]. rewrite IH. f_equal. now apply N.mod_small.
Qed.

Lemma b64_decoders_chars (bytes : list N) :
  isBytes bytes = true ->
  @b64urlToUtf8 engine (base64Chars true bytes) = Some (Utf8.decode bytes)
  /\ @b64StdToUtf8 engine (base64Chars false bytes)
     = Some (Utf8.decode bytes)
  /\ @b64StdToUtf8 engine (padBase64 (base64Chars false bytes))
     = Some (Utf8.decode bytes).
Proof.
  intros Hb.
  destruct (base64Chars_alphabets bytes Hb) as [R _].
  pose proof (atob_padBase64 bytes Hb) as Hd.
  assert (Hstd : @b64StdToUtf8 engine (base64Chars false bytes)
                 = Some (Utf8.decode bytes)).
  { unfold b64StdToUtf8.
    change (@atob engine) with Base64.atob. rewrite Hd.
    unfold utf8FromBytes. now rewrite (bytes_mod256 bytes Hb). }
  split; [| split; [exact Hstd |]].
  - unfold b64urlToUtf8. rewrite R. exact Hstd.
  - unfold b64StdToUtf8.
    assert (Hi : padBase64 (padBase64 (base64Chars false bytes))
                 = padBase64 (base64Chars false bytes)).
    { destruct (padBase64_shape (base64Chars false bytes)) as [n [_ [_ Hl]]].
      unfold padBase64 at 1. apply Nat.eqb_eq in Hl. now rewrite Hl. }
    rewrite Hi. change (@atob engine) with Base64.atob. rewrite Hd.
    unfold utf8FromBytes. now rewrite (bytes_mod256 bytes Hb).
Qed.

(** X19.  The base64 decoders invert RFC 4648 base64 on every byte
    sequence: [b64urlToUtf8] on the unpadded URL-safe encoding, and
    [b64StdToUtf8] on the standard encoding, padded or not, return the
    text [TextDecoder] makes of the bytes; [padBase64] gives [atob]
    exactly the padding it needs. *)
Theorem base64_roundtrip (bytes : list N) :
  isBytes bytes = true ->
  @b64urlToUtf8 engine (base64Chars true bytes) = Some (Utf8.decode bytes)
  /\ @b64StdToUtf8 engine (base64Chars false bytes)
     = Some (Utf8.decode bytes)
  /\ @b64StdToUtf8 engine (padBase64 (base64Chars false bytes))
     = Some (Utf8.decode bytes)
  /\ Base64.atob (padBase64 (base64Chars false bytes)) = Some bytes.
Proof.
  intros Hb. destruct (b64_decoders_chars bytes Hb) as [H1 [H2 H3]].
  repeat split; try assumption. now apply atob_padBase64.
Qed.

Lemma base64Chars_brace (c2 : N) (rest : jsstring) :
  (32 <= c2 < 48)%N ->
  exists tail, base64Chars true (ch "{" :: c2 :: rest)
               = ch "e" :: ch "y" :: tail.
Proof.
  intros Hc.
  assert (E : (c2 / 16 = 2)%N).
  { assert (H1 : (2 <= c2 / 16)%N) by (apply N.div_le_lower_bound; lia).
    assert (H2 : (c2 / 16 < 3)%N) by (apply N.Div0.div_lt_upper_bound; lia).
    lia. }
  destruct rest as [|c3 rest]; cbn [base64Chars]; rewrite E;
    eexists; reflexivity.
Qed.

(** X20.  A GET of the unpadded base64url encoding of an ASCII text of
    at most 64,000 characters that starts with a brace followed by a
    character from space to [/] (a quote, say) and that the engine's
    [JSON.parse] reads as the object [O] answers 200 with [O]; the
    base64url attempt, the third, is the one that decodes it.  The
    parser is any parser; of it the theorem asks the object it makes of
    the text, and that it rejects a text beginning with [e], as JSON has
    no such text. *)
Theorem fetch_base64url_document (parse : jsstring -> option JsonValue)
    (c2 : N) (rest : jsstring) (O : JsonValue) :
  isAscii (ch "{" :: c2 :: rest) = true ->
  (32 <= c2 < 48)%N ->
  parse (ch "{" :: c2 :: rest) = Some O ->
  isObject O = true ->
  (forall tail, parse (ch "e" :: tail) = None) ->
  (jslength (ch "{" :: c2 :: rest) <= 64000)%Z ->
  runAttempts
    (@attempts (engineWith parse)
       (base64Chars true (ch "{" :: c2 :: rest))) 0
  = (Ok O (ch "{" :: c2 :: rest), 3%nat)
  /\ @fetch (engineWith parse) (lit "GET")
       (ch "/" :: base64Chars true (ch "{" :: c2 :: rest))
     = respond (Success O).
Proof.
  intros Ha Hc Hp Ho Hrej Hlen.
  pose proof (isAscii_isBytes _ Ha) as Hb.
  destruct (base64Chars_brace rest Hc) as [tail Eshape].
  set (text := ch "{" :: c2 :: rest) in *.
  destruct (base64Chars_alphabets text Hb) as [_ [Hurl [_ [Hns Hnp]]]].
  destruct (b64_decoders_chars text Hb) as [Hdec _].
  set (enc := base64Chars true text) in *.
  assert (Hparse : parse enc = None) by (rewrite Eshape; apply Hrej).
  assert (A1 : @attemptUrlDecoded (engineWith parse) enc tt = Fail).
  { unfold attemptUrlDecoded, safeDecodeURIComponent.
    change (@decodeURIComponent (engineWith parse) enc)
      with (URI.decodeURIComponent enc).
    rewrite (decodeURIComponent_plain enc Hnp).
    unfold parseDecoded, parseJson.
    change (@JSON_parse (engineWith parse) enc) with (parse enc).
    rewrite Hparse. now destruct (truthyString enc). }
  assert (A2 : @attemptRaw (engineWith parse) enc tt = Fail).
  { unfold attemptRaw, parseJson.
    change (@JSON_parse (engineWith parse) enc) with (parse enc).
    now rewrite Hparse. }
  assert (A3 : @attemptB64Url (engineWith parse) enc tt = Ok O text).
  { unfold attemptB64Url, stripNonB64Url. rewrite (keepClass_all _ _ Hurl).
    assert (Hl : looksLikeB64Prefix enc = true)
      by (rewrite Eshape; reflexivity).
    rewrite Hl. cbn [negb].
    change (@b64urlToUtf8 (engineWith parse) enc)
      with (@b64urlToUtf8 engine enc).
    rewrite Hdec.
    rewrite (Utf8_decode_ascii text Ha).
    apply (@parseDecoded_parsed (engineWith parse));
      [discriminate | exact Hp | exact Ho]. }
  assert (Hrun : runAttempts (@attempts (engineWith parse) enc) 0
                 = (Ok O text, 3%nat)).
  { unfold attempts. cbn [runAttempts]. now rewrite A1, A2, A3. }
  split; [exact Hrun |].
  rewrite (@fetch_single_segment (engineWith parse) _ O text).
  - assert (E : (64000 <? jslength text)%Z = false) by (apply Z.ltb_ge; lia).
    now rewrite E.
  - exact Hns.
  - rewrite Eshape. reflexivity.
  - unfold tryParseJson. now rewrite Hrun.
Qed.

(* ================================================================== *)
(** * The encoders on the test vectors of RFC 4648 *)
(* ================================================================== *)

Example encoders_rfc4648_vectors :
  hexEncode true (lit "foobar") = lit "666F6F626172"
  /\ base32Encode (lit "f") = lit "MY======"
  /\ base32Encode (lit "fo") = lit "MZXQ===="
  /\ base32Encode (lit "foo") = lit "MZXW6==="
  /\ base32Encode (lit "foob") = lit "MZXW6YQ="
  /\ base32Encode (lit "fooba") = lit "MZXW6YTB"
  /\ base32Encode (lit "foobar") = lit "MZXW6YTBOI======"
  /\ padBase64 (base64Chars false (lit "f")) = lit "Zg=="
  /\ padBase64 (base64Chars false (lit "fo")) = lit "Zm8="
  /\ padBase64 (base64Chars false (lit "foo")) = lit "Zm9v"
  /\ padBase64 (base64Chars false (lit "foobar")) = lit "Zm9vYmFy"
  /\ base64Chars true [251; 255; 190]%N = lit "-_--"
  /\ base64Chars false [251; 255; 190]%N = lit "+/++"
  /\ percentEncode (ch "{" :: 34%N :: sampleTail) = lit "%7B%22a%22%3A1%7D".
Proof. repeat split; vm_compute; reflexivity. Qed.

(* ================================================================== *)
(** * The further theorems at work *)
(* ================================================================== *)

Lemma tryParseJson_sound_witness :
  JSON.parse (lit "{}") = Some (JObject [])
  /\ (isObject (JObject []) = true \/ isArray (JObject []) = true)
  /\ exists k, (k < 6)%nat
              /\ nth_error (@attemptResults engine (lit "%7B%7D")) k
                 = Some (Ok (JObject []) (lit "{}")).
Proof.
  apply (@tryParseJson_sound engine (lit "%7B%7D") (JObject []) (lit "{}")).
  reflexivity.
Defined.

Lemma scan_answer_sound_witness :
  exists startIdx k cand rawText,
    firstTriggeredAt (pathParts examplePath) startIdx
    /\ nth_error (candidates (pathParts examplePath) startIdx) k = Some cand
    /\ (forall j c, (j < k)%nat ->
          nth_error (candidates (pathParts examplePath) startIdx) j = Some c ->
          @tryParseJson engine c = Fail)
    /\ @tryParseJson engine cand = Ok exampleObject rawText
    /\ (jslength rawText <= 64000)%Z
    /\ JSON.parse rawText = Some exampleObject
    /\ (isObject exampleObject = true \/ isArray exampleObject = true).
Proof.
  apply (proj1 (@scan_answer_sound engine (pathParts examplePath))
           exampleObject).
  vm_compute. reflexivity.
Defined.

Lemma scan_Exhausted_iff_witness :
  exists startIdx,
    firstTriggeredAt (pathParts (lit "/v1/eyZZZ/b")) startIdx
    /\ (forall c, In c (candidates (pathParts (lit "/v1/eyZZZ/b")) startIdx) ->
                  @tryParseJson engine c = Fail).
Proof.
  apply (proj1 (@scan_Exhausted_iff engine (pathParts (lit "/v1/eyZZZ/b")))).
  vm_compute. reflexivity.
Defined.

Lemma scan_skips_untriggered_segments_witness :
  @scanTraced engine ([lit "api"; lit "v1"] ++ [exampleCandidate])
  = @scanTraced engine [exampleCandidate].
Proof.
  apply (@scan_skips_untriggered_segments engine).
  intros segment [<- | [<- | []]]; apply isStart_false; reflexivity.
Defined.

Lemma scan_ignores_segments_after_answer_witness :
  @scanTraced engine ([exampleCandidate] ++ [lit "client.json"])
  = @scanTraced engine [exampleCandidate].
Proof.
  apply (@scan_ignores_segments_after_answer engine).
  vm_compute. discriminate.
Defined.

Lemma fetch_method_gate_witness :
  @fetch engine (lit "POST") (lit "/index.html")
  = json (errorBody "Method not allowed") 405.
Proof.
  apply (proj1 (proj2 (@fetch_method_gate engine))).
  - intros H. vm_compute in H. discriminate H.
  - intros H. vm_compute in H. discriminate H.
  - intros H. vm_compute in H. discriminate H.
Defined.

Lemma pathParts_join_witness :
  pathParts (lit "//v1///eyZZZ/") = [lit "v1"; lit "eyZZZ"].
Proof.
  exact (@pathParts_join [[]; []; lit "v1"; []; []; lit "eyZZZ"; []]
           ltac:(repeat constructor)).
Defined.

Lemma prefix_heuristics_two_characters_witness :
  looksLikeB64Prefix (lit "e") = false
  /\ looksLikeBase32Prefix (lit "e") = false
  /\ looksLikeHexPrefix (lit "e") = false.
Proof.
  apply (proj2 (proj2 (proj2 (prefix_heuristics_two_characters (lit "e"))))).
  simpl. lia.
Defined.

Lemma attempts_ignore_junk_witness :
  @attemptHex engine (lit "7b" ++ lit "-:-" ++ lit "7d") tt
  = @attemptHex engine (lit "7b" ++ lit "7d") tt.
Proof.
  apply (proj2 (proj2 (proj2
           (@attempts_ignore_junk engine (lit "7b") (lit "-:-") (lit "7d"))))).
  reflexivity.
Defined.

Lemma hexToUtf8_roundtrip_witness :
  @hexToUtf8 engine (lit "7b7d") = Some (lit "{}").
Proof.
  exact (proj1 (@hexToUtf8_roundtrip engine false (lit "{}")
                  ltac:(discriminate) eq_refl)).
Defined.

Lemma base32ToUtf8_roundtrip_witness :
  @base32ToUtf8 engine (lit "PN6Q====") = Some (lit "{}").
Proof.
  exact (proj1 (@base32ToUtf8_roundtrip engine (lit "{}") eq_refl)).
Defined.

Lemma base64_roundtrip_witness :
  @b64urlToUtf8 engine (lit "e30") = Some (lit "{}").
Proof.
  exact (proj1 (@base64_roundtrip (lit "{}") eq_refl)).
Defined.

Lemma fetch_hex_document_witness :
  @fetch engine (lit "GET") (lit "/7B2261223A317D")
  = respond (Success sampleObject).
Proof.
  refine (proj2 (@fetch_hex_document JSON.parse true (34%N :: sampleTail)
                   sampleObject eq_refl eq_refl eq_refl _ _)).
  - intros x tail [-> | ->]; reflexivity.
  - vm_compute. discriminate.
Defined.

Lemma fetch_base32_document_witness :
  @fetch engine (lit "GET") (lit "/PMRGCIR2GF6Q====")
  = respond (Success sampleObject).
Proof.
  refine (proj2 (@fetch_base32_document JSON.parse 34%N sampleTail
                   sampleObject eq_refl _ eq_refl eq_refl _ _)).
  - reflexivity.
  - intros tail. reflexivity.
  - vm_compute. discriminate.
Defined.

Lemma fetch_percent_document_witness :
  @fetch engine (lit "GET") (lit "/%7B%22a%22%3A1%7D")
  = respond (Success sampleObject).
Proof.
  refine (proj2 (proj2 (@fetch_percent_document JSON.parse
                          (34%N :: sampleTail) sampleObject
                          eq_refl eq_refl eq_refl _))).
  vm_compute. discriminate.
Defined.

Lemma fetch_base64url_document_witness :
  @fetch engine (lit "GET") (lit "/eyJhIjoxfQ")
  = respond (Success sampleObject).
Proof.
  refine (proj2 (@fetch_base64url_document JSON.parse 34%N sampleTail
                   sampleObject eq_refl _ eq_refl eq_refl _ _)).
  - split; [vm_compute; discriminate | reflexivity].
  - intros tail. reflexivity.
  - vm_compute. discriminate.
Defined.
